(** * The Docker driver of cnab-go: a shallow embedding of
      [driver/docker/docker.go] and the properties of its [Run] entry point.

    The driver talks to a container engine through a client.  The engine is
    kept abstract: a state type together with one transition per client
    call.  Every client call made by the driver is recorded, in order and
    with the reply it got, so that statements such as "no container is
    created" or "exactly one removal is attempted" are statements about the
    recorded calls of one [Run]. *)

From Stdlib Require Import ZArith Ascii String DecimalString.
From stdpp Require Import base option list strings gmap fin_maps.

Local Open Scope string_scope.
Local Open Scope list_scope.

(** ** Errors *)

(** Go's [error] values.  [io_EOF] is the sentinel the code compares with
    [!=]; [ErrNotFound] stands for the engine errors [client.IsErrNotFound]
    recognises; [Err] is any other error, among them those built by
    [fmt.Errorf].  A nil error is [None : option error]. *)
Inductive error : Type :=
  | io_EOF
  | ErrNotFound (msg : string)
  | Err (msg : string).

Global Instance error_eq_dec : EqDecision error.
Proof. solve_decision. Defined.

(** [err.Error()], which is also what the verbs [%v] and [%s] print. *)
Definition Error (e : error) : string :=
  match e with
  | io_EOF => "EOF"
  | ErrNotFound msg => msg
  | Err msg => msg
  end.

(** [client.IsErrNotFound(err)]; false on a nil error. *)
Definition IsErrNotFound (err : option error) : bool :=
  match err with
  | Some (ErrNotFound _) => true
  | _ => false
  end.

(** [fmt.Errorf] once the format string has been expanded. *)
Definition Errorf (msg : string) : error := Err msg.

(** The verb [%d] on an [int64]. *)
Definition itoa (n : Z) : string := NilZero.string_of_int (Z.to_int n).

(** [strings.Contains(s, substr)]. *)
Fixpoint Contains (s substr : string) : bool :=
  String.prefix substr s ||
  match s with
  | EmptyString => false
  | String _ s' => Contains s' substr
  end.

(** ** Paths *)

Definition slash : ascii := "/"%char.

(** [unix_path.IsAbs]: [len(path) > 0 && path[0] == '/']. *)
Definition IsAbs (path : string) : bool :=
  match path with
  | String c _ => if decide (c = slash) then true else false
  | EmptyString => false
  end.

(** The elements of a path between slashes; [cur] holds the characters of
    the element being read, last one first. *)
Fixpoint elements_aux (path : string) (cur : string) : list string :=
  match path with
  | EmptyString => [String.rev cur]
  | String c rest =>
      if decide (c = slash) then String.rev cur :: elements_aux rest ""
      else elements_aux rest (String c cur)
  end.

Definition path_elements (path : string) : list string := elements_aux path "".

(** One step of [filepath.Clean] on the elements kept so far (last one
    first): empty elements and [.] are dropped, [..] removes the element
    before it when there is one, is dropped at the root and is kept in a
    relative path; anything else is kept. *)
Definition clean_step (rooted : bool) (out : list string) (e : string) : list string :=
  if decide (e = "") then out
  else if decide (e = ".") then out
  else if decide (e = "..") then
    match out with
    | top :: out' =>
        if decide (top = "..") then e :: out else out'
    | [] => if rooted then [] else [e]
    end
  else e :: out.

Fixpoint join_slash (l : list string) : string :=
  match l with
  | [] => ""
  | [e] => e
  | e :: l' => e +:+ "/" +:+ join_slash l'
  end.

(** [filepath.Clean] where the separator is the slash. *)
Definition Clean (path : string) : string :=
  if decide (path = "") then "."
  else
    let rooted := IsAbs path in
    let out := rev (foldl (clean_step rooted) [] (path_elements path)) in
    if rooted then "/" +:+ join_slash out
    else if decide (out = []) then "." else join_slash out.

(** [filepath.Join(a, b)] for a non-empty [a]: the elements are joined with
    the separator and the result is cleaned. *)
Definition Join (a b : string) : string := Clean (a +:+ "/" +:+ b).

(** ** Data *)

(** A Go result pair [(v, err)]: a value when [err] is nil, the error
    otherwise. *)
Inductive result (T : Type) : Type :=
  | Ok (v : T)
  | Fail (err : error).
Arguments Ok {T} v.
Arguments Fail {T} err.

(** [driver.Operation], the fields the Docker driver reads. *)
Record Operation : Type := {
  Image : string;
  Environment : gmap string string;
  Files : gmap string string
}.

(** [driver.OperationResult].  [Outputs] is a Go map: [None] is the nil map
    of the zero value [driver.OperationResult{}], [Some m] an allocated
    one. *)
Record OperationResult : Type := { Outputs : option (gmap string string) }.

Definition OperationResult_zero : OperationResult := {| Outputs := None |}.

(** [container.Config] and [container.HostConfig], the fields set here and a
    few of those a configuration option may set. *)
Record container_Config : Type := {
  cfgImage : string;
  Env : list string;
  Entrypoint : list string;
  AttachStderr : bool;
  AttachStdout : bool;
  Cmd : list string;
  User : string;
  WorkingDir : string
}.

Record container_HostConfig : Type := {
  Binds : list string;
  Privileged : bool;
  NetworkMode : string
}.

Definition HostConfig_zero : container_HostConfig :=
  {| Binds := []; Privileged := false; NetworkMode := "" |}.

(** [ConfigurationOption]: the Go function receives both specifications by
    pointer, may change them, and returns an error or nil. *)
Definition ConfigurationOption : Type :=
  container_Config → container_HostConfig → container_Config * container_HostConfig * option error.

(** [command.Cli], as far as the driver touches it: whether the combined
    streams were redirected to [ioutil.Discard]. *)
Record Cli : Type := { combinedDiscard : bool }.

Definition Writer : Type := string.

Record Driver : Type := {
  config : gmap string string;
  Simulate : bool;
  dockerCli : option Cli;
  dockerConfigurationOptions : list ConfigurationOption;
  containerOut : option Writer;
  containerErr : option Writer
}.

(** [d.config[key]]: a missing key, or a nil map, reads as the empty
    string. *)
Definition config_get (d : Driver) (key : string) : string :=
  default "" (config d !! key).

(** An entry written by [generateTar]. *)
Record tarFile : Type := {
  hdrName : string;
  hdrMode : Z;
  hdrSize : Z;
  content : string
}.

(** A header read back from the outputs archive: its name and what
    [header.FileInfo().IsDir()] answers. *)
Record Header : Type := { Name : string; IsDir : bool }.

(** The archive stream of [CopyFromContainer] as [tar.Reader] presents it:
    [TarEnd err] when [Next] returns [err] ([io_EOF] at a regular end),
    [TarEntry h body rest] when [Next] returns the header [h], [body] is
    what [ioutil.ReadAll] gives for this entry and [rest] is what follows. *)
Inductive tarReader : Type :=
  | TarEnd (err : error)
  | TarEntry (h : Header) (body : result string) (rest : tarReader).

(** One message of the pull progress stream: a status line, or the error
    that [jsonmessage.DisplayJSONMessagesStream] stops on. *)
Definition ResponseBody : Type := list (result string).

(** What the [select] on the two channels of [ContainerWait] receives. *)
Inductive waitOutcome : Type :=
  | FromErrc (err : option error)
  | FromStatusc (StatusCode : Z) (WaitError : option string).

(** ** The engine and the record of calls *)

(** A call of the engine client with its reply, the value received by the
    [select], or a line written to [cli.Err()]. *)
Inductive event : Type :=
  | EvImagePull (image encodedAuth : string) (reply : result ResponseBody)
  | EvContainerCreate (cfg : container_Config) (hostCfg : container_HostConfig) (reply : result string)
  | EvContainerRemove (ID : string) (reply : option error)
  | EvCopyToContainer (ID path : string) (tarContent : list tarFile) (reply : option error)
  | EvContainerAttach (ID : string) (reply : option error)
  | EvContainerWait (ID : string)
  | EvContainerStart (ID : string) (reply : option error)
  | EvReceived (w : waitOutcome)
  | EvCopyFromContainer (ID path : string) (reply : result tarReader)
  | EvNotice (line : string).

(** What lies outside the driver: the packages that build a client and
    resolve registry credentials, [strconv.Quote] (the verb [%q]), and the
    engine API.  [Engine] is the state of the engine; every API call may
    change it.  [ContainerWait] returns its two channels at once; what the
    [select] receives from them after the start is [WaitResult]. *)
Record Docker (Engine : Type) : Type := {
  NewDockerCli : result Cli;
  Initialize : Cli → option error;
  ParseNormalizedNamed : string → result string;
  ParseRepositoryInfo : string → result string;
  ResolveAuthConfig : string → string;
  EncodeAuthToBase64 : string → result string;
  Quote : string → string;
  ImagePull : string → string → Engine → result ResponseBody * Engine;
  ContainerCreate : container_Config → container_HostConfig → Engine → result string * Engine;
  ContainerRemove : string → Engine → option error * Engine;
  CopyToContainer : string → string → list tarFile → Engine → option error * Engine;
  ContainerAttach : string → Engine → option error * Engine;
  ContainerWait : string → Engine → Engine;
  ContainerStart : string → Engine → option error * Engine;
  WaitResult : string → Engine → waitOutcome;
  CopyFromContainer : string → string → Engine → result tarReader * Engine
}.
Arguments NewDockerCli {Engine}.
Arguments Initialize {Engine}.
Arguments ParseNormalizedNamed {Engine}.
Arguments ParseRepositoryInfo {Engine}.
Arguments ResolveAuthConfig {Engine}.
Arguments EncodeAuthToBase64 {Engine}.
Arguments Quote {Engine}.
Arguments ImagePull {Engine}.
Arguments ContainerCreate {Engine}.
Arguments ContainerRemove {Engine}.
Arguments CopyToContainer {Engine}.
Arguments ContainerAttach {Engine}.
Arguments ContainerWait {Engine}.
Arguments ContainerStart {Engine}.
Arguments WaitResult {Engine}.
Arguments CopyFromContainer {Engine}.

(** ** Functions that do not touch the engine *)

(** [Config()]. *)
Definition Config (d : Driver) : gmap string string :=
  <["VERBOSE" := "Increase verbosity. true, false are supported values"]>
  (<["PULL_ALWAYS" := "Always pull image, even if locally available (0|1)"]>
  (<["DOCKER_DRIVER_QUIET" := "Make the Docker driver quiet (only print container stdout/stderr)"]>
  (<["OUTPUTS_MOUNT_PATH" := "Absolute path to where Docker driver can create temporary directories to bundle outputs. Defaults to temp dir."]>
   ∅))).

(** [SetConfig]. *)
Definition SetConfig (d : Driver) (settings : gmap string string) : Driver :=
  {| config := settings; Simulate := Simulate d; dockerCli := dockerCli d;
     dockerConfigurationOptions := dockerConfigurationOptions d;
     containerOut := containerOut d; containerErr := containerErr d |}.

(** [SetDockerCli]. *)
Definition SetDockerCli (d : Driver) (cli : Cli) : Driver :=
  {| config := config d; Simulate := Simulate d; dockerCli := Some cli;
     dockerConfigurationOptions := dockerConfigurationOptions d;
     containerOut := containerOut d; containerErr := containerErr d |}.

(** [SetContainerOut] and [SetContainerErr]. *)
Definition SetContainerOut (d : Driver) (w : Writer) : Driver :=
  {| config := config d; Simulate := Simulate d; dockerCli := dockerCli d;
     dockerConfigurationOptions := dockerConfigurationOptions d;
     containerOut := Some w; containerErr := containerErr d |}.

Definition SetContainerErr (d : Driver) (w : Writer) : Driver :=
  {| config := config d; Simulate := Simulate d; dockerCli := dockerCli d;
     dockerConfigurationOptions := dockerConfigurationOptions d;
     containerOut := containerOut d; containerErr := Some w |}.

(** [AddConfigurationOptions]. *)
Definition AddConfigurationOptions (d : Driver) (opts : list ConfigurationOption) : Driver :=
  {| config := config d; Simulate := Simulate d; dockerCli := dockerCli d;
     dockerConfigurationOptions := dockerConfigurationOptions d ++ opts;
     containerOut := containerOut d; containerErr := containerErr d |}.

(** A Go [range] over a map visits every entry once, in an order the
    language leaves open; [map_to_list] is such an order, and statements
    about the result are made up to permutation. *)
Definition range (m : gmap string string) : list (string * string) := map_to_list m.

(** The first loop of [generateTar]: the first visited path that is not
    absolute is reported. *)
Fixpoint checkPaths (entries : list (string * string)) : option error :=
  match entries with
  | [] => None
  | (path, _) :: rest =>
      if negb (IsAbs path)
      then Some (Errorf ("destination path " +:+ path +:+ " should be an absolute unix path"))
      else checkPaths rest
  end.

(** The loop of the writer goroutine of [generateTar]. *)
Definition writeEntries (entries : list (string * string)) : list tarFile :=
  map (λ '(path, content),
         {| hdrName := path; hdrMode := 420 (* 0644 *);
            hdrSize := Z.of_nat (String.length content);
            content := content |}) entries.

(** [generateTar].  The pipe and its writer goroutine are replaced by the
    entries the goroutine writes. *)
Definition generateTar (files : gmap string string) : result (list tarFile) :=
  match checkPaths (range files) with
  | Some err => Fail err
  | None => Ok (writeEntries (range files))
  end.

(** The loop of [exec] that serialises the environment. *)
Definition serializeEnv (environment : gmap string string) : list string :=
  map (λ '(k, v), k +:+ "=" +:+ v) (range environment).

(** The loop of [exec] over the configuration options: each one is applied
    to what the previous ones left, and the first error ends the loop. *)
Fixpoint applyOptions (opts : list ConfigurationOption) (cfg : container_Config) (hostCfg : container_HostConfig)
  : result (container_Config * container_HostConfig) :=
  match opts with
  | [] => Ok (cfg, hostCfg)
  | opt :: rest =>
      match opt cfg hostCfg with
      | (_, _, Some err) => Fail err
      | (cfg', hostCfg', None) => applyOptions rest cfg' hostCfg'
      end
  end.

(** [jsonmessage.DisplayJSONMessagesStream]: the first error of the stream,
    nil when there is none. *)
Fixpoint DisplayJSONMessagesStream (body : ResponseBody) : option error :=
  match body with
  | [] => None
  | Ok _ :: rest => DisplayJSONMessagesStream rest
  | Fail err :: _ => Some err
  end.

(** [fetchOutputs], the loop over the archive: directories are skipped, a
    file is read whole and stored under its path in the container, a read
    error returns what was stored so far, and [io_EOF] from [Next] is the
    regular end. *)
Fixpoint readOutputs (quote : string → string) (tarReader : tarReader)
    (outputs : gmap string string) : gmap string string * option error :=
  match tarReader with
  | TarEnd err =>
      if decide (err ≠ io_EOF) then (outputs, Some err) else (outputs, None)
  | TarEntry header body rest =>
      if IsDir header then readOutputs quote rest outputs
      else
        let pathInContainer := Join "/cnab/app" (Name header) in
        match body with
        | Fail err =>
            (outputs,
             Some (Errorf ("error while reading " +:+ quote pathInContainer +:+
                           " from outputs tar: " +:+ Error err)))
        | Ok contents => readOutputs quote rest (<[pathInContainer := contents]> outputs)
        end
  end.

(** ** The driver's monad: state of driver and engine, and the calls made *)

Record State (Engine : Type) : Type := { driver : Driver; engine : Engine }.
Arguments driver {Engine}.
Arguments engine {Engine}.

Definition M (Engine A : Type) : Type := State Engine → A * State Engine * list event.

Global Instance M_ret {Engine} : MRet (M Engine) := λ A a s, (a, s, []).

Global Instance M_bind {Engine} : MBind (M Engine) :=
  λ A B k m s,
    let '(a, s1, evs1) := m s in
    let '(b, s2, evs2) := k a s1 in
    (b, s2, evs1 ++ evs2).

(** An engine call: the engine moves on and the call is recorded with its
    reply. *)
Definition call {Engine R} (f : Engine → R * Engine) (ev : R → event) : M Engine R :=
  λ s, let '(r, e) := f (engine s) in
       (r, {| driver := driver s; engine := e |}, [ev r]).

Definition emit {Engine} (ev : event) : M Engine unit := λ s, (tt, s, [ev]).

Definition getDriver {Engine} : M Engine Driver := λ s, (driver s, s, []).

Definition getEngine {Engine} : M Engine Engine := λ s, (engine s, s, []).

Definition setDockerCli {Engine} (cli : Cli) : M Engine unit :=
  λ s, (tt, {| driver := SetDockerCli (driver s) cli; engine := engine s |}, []).

Definition newline : string := String (ascii_of_nat 10) EmptyString.
Definition apostrophe : string := String (ascii_of_nat 39) EmptyString.

(** ** The driver *)

Section Driver.
Context {Engine : Type} (docker : Docker Engine).

Local Abbreviation M := (M Engine).

(** [pullImage]. *)
Definition pullImage (image : string) : M (option error) :=
  match ParseNormalizedNamed docker image with
  | Fail err => mret (Some err)
  | Ok ref =>
      match ParseRepositoryInfo docker ref with
      | Fail err => mret (Some err)
      | Ok repoInfo =>
          let authConfig := ResolveAuthConfig docker repoInfo in
          match EncodeAuthToBase64 docker authConfig with
          | Fail err => mret (Some err)
          | Ok encodedAuth =>
              r ← call (ImagePull docker image encodedAuth) (EvImagePull image encodedAuth);
              match r with
              | Fail err => mret (Some err)
              | Ok responseBody => mret (DisplayJSONMessagesStream responseBody)
              end
          end
      end
  end.

(** [initializeDockerCli]: the client of the driver when there is one,
    else a new one, kept in the driver once it is initialised. *)
Definition initializeDockerCli : M (result Cli) :=
  d ← getDriver;
  match dockerCli d with
  | Some cli => mret (Ok cli)
  | None =>
      match NewDockerCli docker with
      | Fail err => mret (Fail err)
      | Ok cli =>
          let cli :=
            if decide (config_get d "DOCKER_DRIVER_QUIET" = "1")
            then {| combinedDiscard := true |} else cli in
          match Initialize docker cli with
          | Some err => mret (Fail err)
          | None => setDockerCli cli;; mret (Ok cli)
          end
      end
  end.

(** [fetchOutputs]. *)
Definition fetchOutputs (container : string) : M (OperationResult * option error) :=
  r ← call (CopyFromContainer docker container "/cnab/app/outputs")
           (EvCopyFromContainer container "/cnab/app/outputs");
  match r with
  | Fail err =>
      mret ({| Outputs := Some ∅ |},
            Some (Errorf ("error copying outputs from container: " +:+ Error err)))
  | Ok ioReader =>
      let '(outputs, err) := readOutputs (Quote docker) ioReader ∅ in
      mret ({| Outputs := Some outputs |}, err)
  end.

(** The [select] of [exec]: the value one of the two channels of
    [ContainerWait] delivers once the container was started. *)
Definition receive (ID : string) : M waitOutcome :=
  e ← getEngine;
  let w := WaitResult docker ID e in
  emit (EvReceived w);; mret w.

(** [exec] from the staging of the files to its last line, that is what
    runs between the [defer] of the removal and the removal itself.  The
    goroutine that copies the attached stream to the writers is left out: it
    makes no engine call and has no part in what [exec] returns. *)
Definition execCreated (op : Operation) (ID : string) : M (OperationResult * option error) :=
  match generateTar (Files op) with
  | Fail err =>
      mret (OperationResult_zero, Some (Errorf ("error staging files: " +:+ Error err)))
  | Ok tarContent =>
      err ← call (CopyToContainer docker ID "/" tarContent) (EvCopyToContainer ID "/" tarContent);
      match err with
      | Some err =>
          mret (OperationResult_zero,
                Some (Errorf ("error copying to / in container: " +:+ Error err)))
      | None =>
          err ← call (ContainerAttach docker ID) (EvContainerAttach ID);
          match err with
          | Some err =>
              mret (OperationResult_zero,
                    Some (Errorf ("unable to retrieve logs: " +:+ Error err)))
          | None =>
              call (λ e, (tt, ContainerWait docker ID e)) (λ _, EvContainerWait ID);;
              err ← call (ContainerStart docker ID) (EvContainerStart ID);
              match err with
              | Some err =>
                  mret (OperationResult_zero,
                        Some (Errorf ("cannot start container: " +:+ Error err)))
              | None =>
                  w ← receive ID;
                  match w with
                  | FromErrc (Some err) =>
                      '(opResult, _) ← fetchOutputs ID;
                      mret (opResult, Some (Errorf ("error in container: " +:+ Error err)))
                  | FromErrc None =>
                      '(opResult, _) ← fetchOutputs ID;
                      mret (opResult, None)
                  | FromStatusc StatusCode WaitError =>
                      if decide (StatusCode = 0%Z) then fetchOutputs ID
                      else
                        match WaitError with
                        | Some Message =>
                            '(opResult, _) ← fetchOutputs ID;
                            mret (opResult,
                                  Some (Errorf ("container exit code: " +:+ itoa StatusCode +:+
                                                ", message: " +:+ Message)))
                        | None =>
                            '(opResult, _) ← fetchOutputs ID;
                            mret (opResult,
                                  Some (Errorf ("container exit code: " +:+ itoa StatusCode)))
                        end
                  end
              end
          end
      end
  end.

(** The container specification [exec] starts from. *)
Definition newConfig (op : Operation) : container_Config :=
  {| cfgImage := Image op;
     Env := serializeEnv (Environment op);
     Entrypoint := ["/cnab/app/run"];
     AttachStderr := true;
     AttachStdout := true;
     Cmd := []; User := ""; WorkingDir := "" |}.

(** The [defer] of [exec]: what follows the creation runs first, then
    [ContainerRemove] is called and its reply dropped, and the result
    that was computed before is returned. *)
Definition execDeferred (op : Operation) (ID : string) : M (OperationResult * option error) :=
  res ← execCreated op ID;
  call (ContainerRemove docker ID) (EvContainerRemove ID);;
  mret res.

(** [exec]. *)
Definition exec (op : Operation) : M (OperationResult * option error) :=
  r ← initializeDockerCli;
  match r with
  | Fail err => mret (OperationResult_zero, Some err)
  | Ok cli =>
      d ← getDriver;
      if Simulate d then mret (OperationResult_zero, None)
      else
        err ← (if decide (config_get d "PULL_ALWAYS" = "1")
               then pullImage (Image op) else mret None);
        match err with
        | Some err => mret (OperationResult_zero, Some err)
        | None =>
            match applyOptions (dockerConfigurationOptions d) (newConfig op) HostConfig_zero with
            | Fail err => mret (OperationResult_zero, Some err)
            | Ok (cfg, hostCfg) =>
                resp ← call (ContainerCreate docker cfg hostCfg) (EvContainerCreate cfg hostCfg);
                match resp with
                | Ok ID => execDeferred op ID
                | Fail err =>
                    if IsErrNotFound (Some err) then
                      emit (EvNotice ("Unable to find image " +:+ apostrophe +:+ Image op +:+
                                      apostrophe +:+ " locally" +:+ newline));;
                      err ← pullImage (Image op);
                      match err with
                      | Some err => mret (OperationResult_zero, Some err)
                      | None =>
                          resp ← call (ContainerCreate docker cfg hostCfg)
                                      (EvContainerCreate cfg hostCfg);
                          match resp with
                          | Fail err =>
                              mret (OperationResult_zero,
                                    Some (Errorf ("cannot create container: " +:+ Error err)))
                          | Ok ID => execDeferred op ID
                          end
                      end
                    else
                      mret (OperationResult_zero,
                            Some (Errorf ("cannot create container: " +:+ Error err)))
                end
            end
        end
  end.

(** [Run]. *)
Definition Run (op : Operation) : M (OperationResult * option error) := exec op.
End Driver.

(** [Handles], with the two image types its comment names. *)
Definition Handles (dt : string) : bool :=
  if decide (dt = "docker") then true else if decide (dt = "oci") then true else false.

(** ** Notions used by the statements *)

(** Kinds of recorded events. *)
Definition is_create (ev : event) : bool :=
  match ev with EvContainerCreate _ _ _ => true | _ => false end.

Definition is_remove (ev : event) : bool :=
  match ev with EvContainerRemove _ _ => true | _ => false end.

Definition is_pull (ev : event) : bool :=
  match ev with EvImagePull _ _ _ => true | _ => false end.

(** The calls [exec] makes once the files are staged. *)
Definition after_staging (ev : event) : bool :=
  match ev with
  | EvCopyToContainer _ _ _ _ | EvContainerAttach _ _ | EvContainerWait _
  | EvContainerStart _ _ | EvReceived _ | EvCopyFromContainer _ _ _ => true
  | _ => false
  end.

Definition count (p : event → bool) (evs : list event) : nat :=
  length (List.filter p evs).

(** The same client with another [ContainerRemove]. *)
Definition withContainerRemove {Engine} (docker : Docker Engine)
    (f : string → Engine → option error * Engine) : Docker Engine :=
  {| NewDockerCli := NewDockerCli docker;
     Initialize := Initialize docker;
     ParseNormalizedNamed := ParseNormalizedNamed docker;
     ParseRepositoryInfo := ParseRepositoryInfo docker;
     ResolveAuthConfig := ResolveAuthConfig docker;
     EncodeAuthToBase64 := EncodeAuthToBase64 docker;
     Quote := Quote docker;
     ImagePull := ImagePull docker;
     ContainerCreate := ContainerCreate docker;
     ContainerRemove := f;
     CopyToContainer := CopyToContainer docker;
     ContainerAttach := ContainerAttach docker;
     ContainerWait := ContainerWait docker;
     ContainerStart := ContainerStart docker;
     WaitResult := WaitResult docker;
     CopyFromContainer := CopyFromContainer docker |}.

(** The entries of an archive that [fetchOutputs] is to store, as path in
    the container and contents: the files, directories left out, up to the
    first file that cannot be read. *)
Fixpoint collected (tarReader : tarReader) : list (string * string) :=
  match tarReader with
  | TarEnd _ => []
  | TarEntry header body rest =>
      if IsDir header then collected rest
      else match body with
           | Ok contents => (Join "/cnab/app" (Name header), contents) :: collected rest
           | Fail _ => []
           end
  end.

(** The flat map a list of stored entries amounts to: a later entry
    replaces an earlier one of the same path. *)
Definition flatten (entries : list (string * string)) : gmap string string :=
  list_to_map (reverse entries).

(** What [fetchOutputs] returns for a reply of [CopyFromContainer]. *)
Definition fetched (quote : string → string) (reply : result tarReader)
  : OperationResult * option error :=
  match reply with
  | Fail err =>
      ({| Outputs := Some ∅ |},
       Some (Errorf ("error copying outputs from container: " +:+ Error err)))
  | Ok ioReader =>
      ({| Outputs := Some (readOutputs quote ioReader ∅).1 |},
       (readOutputs quote ioReader ∅).2)
  end.

(** An archive given by its entries and by the error [Next] returns after
    the last of them. *)
Definition entry : Type := Header * result string.

Fixpoint archive (entries : list entry) (last : error) : tarReader :=
  match entries with
  | [] => TarEnd last
  | (header, body) :: rest => TarEntry header body (archive rest last)
  end.

(** What an entry adds to the outputs: nothing for a directory, path in the
    container and contents for a file that is read. *)
Definition stored (e : entry) : option (string * string) :=
  if IsDir e.1 then None
  else match e.2 with
       | Ok contents => Some (Join "/cnab/app" (Name e.1), contents)
       | Fail _ => None
       end.

(** The entries that do not stop the loop: directories, whose contents are
    not read, and files that are read without error. *)
Definition readable (e : entry) : bool :=
  IsDir e.1 || match e.2 with Ok _ => true | Fail _ => false end.

(** The elements of a path that [filepath.Clean] keeps as they are. *)
Definition normal (e : string) : bool :=
  bool_decide (e ≠ "" ∧ e ≠ "." ∧ e ≠ "..").

(** The characters of a string. *)
Fixpoint occurs (c : ascii) (s : string) : bool :=
  match s with
  | EmptyString => false
  | String c' s' => bool_decide (c = c') || occurs c s'
  end.

(** The partial-result contract, for the reply [CopyFromContainer] gave:
    the outputs are allocated and empty when the copy fails; else they hold
    the files of the archive when all of them are read, and the files that
    come before the first one that cannot be read otherwise. *)
Definition partial_outputs (reply : result tarReader) (res : OperationResult) : Prop :=
  match reply with
  | Fail _ => Outputs res = Some ∅
  | Ok ioReader =>
      ∀ entries last, ioReader = archive entries last →
        (forallb readable entries = true →
           Outputs res = Some (flatten (omap stored entries)))
        ∧ (∀ pre header err post,
             entries = pre ++ (header, Fail err) :: post →
             forallb readable pre = true → IsDir header = false →
             Outputs res = Some (flatten (omap stored pre)))
  end.

(** What [exec] returns once the [select] has received [w] and
    [fetchOutputs] has returned [fetch]: the outputs of [fetch] in every
    case; the error of [fetch] for the exit status 0 only, and an error made
    from [w] alone, or nil, otherwise. *)
Definition exits (w : waitOutcome) (fetch res : OperationResult * option error) : Prop :=
  res.1 = fetch.1
  ∧ match w with
    | FromErrc (Some err) => res.2 = Some (Errorf ("error in container: " +:+ Error err))
    | FromErrc None => res.2 = None
    | FromStatusc StatusCode WaitError =>
        if decide (StatusCode = 0%Z) then res.2 = fetch.2
        else match WaitError with
             | Some Message =>
                 res.2 = Some (Errorf ("container exit code: " +:+ itoa StatusCode +:+
                                       ", message: " +:+ Message))
             | None =>
                 res.2 = Some (Errorf ("container exit code: " +:+ itoa StatusCode))
             end
    end.

(** ** The runs of the driver as sequences of events *)

(** The events of [pullImage] and the error it returns: no call when the
    reference or the credentials cannot be resolved, else one [ImagePull]
    whose failure, or the first error of whose stream, is returned. *)
Inductive pull_run (image : string) : list event → option error → Prop :=
  | pull_unresolved err :
      pull_run image [] (Some err)
  | pull_refused encodedAuth err :
      pull_run image [EvImagePull image encodedAuth (Fail err)] (Some err)
  | pull_streamed encodedAuth body :
      pull_run image [EvImagePull image encodedAuth (Ok body)]
        (DisplayJSONMessagesStream body).

(** The events of [exec] between the creation of the container and its
    removal, with the result [exec] is going to return. *)
Inductive created_run (quote : string → string) (op : Operation) (ID : string)
  : list event → OperationResult * option error → Prop :=
  | staging_failed err :
      generateTar (Files op) = Fail err →
      created_run quote op ID []
        (OperationResult_zero, Some (Errorf ("error staging files: " +:+ Error err)))
  | copy_failed tarContent err :
      generateTar (Files op) = Ok tarContent →
      created_run quote op ID
        [EvCopyToContainer ID "/" tarContent (Some err)]
        (OperationResult_zero, Some (Errorf ("error copying to / in container: " +:+ Error err)))
  | attach_failed tarContent err :
      generateTar (Files op) = Ok tarContent →
      created_run quote op ID
        [EvCopyToContainer ID "/" tarContent None; EvContainerAttach ID (Some err)]
        (OperationResult_zero, Some (Errorf ("unable to retrieve logs: " +:+ Error err)))
  | start_failed tarContent err :
      generateTar (Files op) = Ok tarContent →
      created_run quote op ID
        [EvCopyToContainer ID "/" tarContent None; EvContainerAttach ID None;
         EvContainerWait ID; EvContainerStart ID (Some err)]
        (OperationResult_zero, Some (Errorf ("cannot start container: " +:+ Error err)))
  | wait_failed tarContent err reply :
      generateTar (Files op) = Ok tarContent →
      created_run quote op ID
        [EvCopyToContainer ID "/" tarContent None; EvContainerAttach ID None;
         EvContainerWait ID; EvContainerStart ID None; EvReceived (FromErrc (Some err));
         EvCopyFromContainer ID "/cnab/app/outputs" reply]
        ((fetched quote reply).1, Some (Errorf ("error in container: " +:+ Error err)))
  | wait_closed tarContent reply :
      generateTar (Files op) = Ok tarContent →
      created_run quote op ID
        [EvCopyToContainer ID "/" tarContent None; EvContainerAttach ID None;
         EvContainerWait ID; EvContainerStart ID None; EvReceived (FromErrc None);
         EvCopyFromContainer ID "/cnab/app/outputs" reply]
        ((fetched quote reply).1, None)
  | exited_zero tarContent WaitError reply :
      generateTar (Files op) = Ok tarContent →
      created_run quote op ID
        [EvCopyToContainer ID "/" tarContent None; EvContainerAttach ID None;
         EvContainerWait ID; EvContainerStart ID None;
         EvReceived (FromStatusc 0 WaitError);
         EvCopyFromContainer ID "/cnab/app/outputs" reply]
        (fetched quote reply)
  | exited_message tarContent StatusCode Message reply :
      generateTar (Files op) = Ok tarContent →
      StatusCode ≠ 0%Z →
      created_run quote op ID
        [EvCopyToContainer ID "/" tarContent None; EvContainerAttach ID None;
         EvContainerWait ID; EvContainerStart ID None;
         EvReceived (FromStatusc StatusCode (Some Message));
         EvCopyFromContainer ID "/cnab/app/outputs" reply]
        ((fetched quote reply).1,
         Some (Errorf ("container exit code: " +:+ itoa StatusCode +:+
                       ", message: " +:+ Message)))
  | exited_status tarContent StatusCode reply :
      generateTar (Files op) = Ok tarContent →
      StatusCode ≠ 0%Z →
      created_run quote op ID
        [EvCopyToContainer ID "/" tarContent None; EvContainerAttach ID None;
         EvContainerWait ID; EvContainerStart ID None;
         EvReceived (FromStatusc StatusCode None);
         EvCopyFromContainer ID "/cnab/app/outputs" reply]
        ((fetched quote reply).1,
         Some (Errorf ("container exit code: " +:+ itoa StatusCode))).

(** The line [exec] writes before it pulls a missing image. *)
Definition notice (op : Operation) : event :=
  EvNotice ("Unable to find image " +:+ apostrophe +:+ Image op +:+ apostrophe +:+
            " locally" +:+ newline).

(** The events of [exec] from the first creation on, for the specification
    [cfg], [hostCfg] the options have produced. *)
Inductive create_run (quote : string → string) (op : Operation)
    (cfg : container_Config) (hostCfg : container_HostConfig)
  : list event → OperationResult * option error → Prop :=
  | create_failed err :
      IsErrNotFound (Some err) = false →
      create_run quote op cfg hostCfg
        [EvContainerCreate cfg hostCfg (Fail err)]
        (OperationResult_zero, Some (Errorf ("cannot create container: " +:+ Error err)))
  | created_first ID evs res reply :
      created_run quote op ID evs res →
      create_run quote op cfg hostCfg
        (EvContainerCreate cfg hostCfg (Ok ID) :: evs ++ [EvContainerRemove ID reply])
        res
  | fallback_pull_failed msg evs err :
      pull_run (Image op) evs (Some err) →
      create_run quote op cfg hostCfg
        (EvContainerCreate cfg hostCfg (Fail (ErrNotFound msg)) :: notice op :: evs)
        (OperationResult_zero, Some err)
  | retry_failed msg evs err :
      pull_run (Image op) evs None →
      create_run quote op cfg hostCfg
        (EvContainerCreate cfg hostCfg (Fail (ErrNotFound msg)) :: notice op :: evs ++
         [EvContainerCreate cfg hostCfg (Fail err)])
        (OperationResult_zero, Some (Errorf ("cannot create container: " +:+ Error err)))
  | created_retry msg evs ID evs' res reply :
      pull_run (Image op) evs None →
      created_run quote op ID evs' res →
      create_run quote op cfg hostCfg
        (EvContainerCreate cfg hostCfg (Fail (ErrNotFound msg)) :: notice op :: evs ++
         EvContainerCreate cfg hostCfg (Ok ID) :: evs' ++ [EvContainerRemove ID reply])
        res.

(** The events of [exec] once the client is acquired, for a driver that is
    not in simulate mode. *)
Inductive exec_run (quote : string → string) (d : Driver) (op : Operation)
  : list event → OperationResult * option error → Prop :=
  | eager_pull_failed evs err :
      config_get d "PULL_ALWAYS" = "1" →
      pull_run (Image op) evs (Some err) →
      exec_run quote d op evs (OperationResult_zero, Some err)
  | option_failed evs err :
      (config_get d "PULL_ALWAYS" = "1" ∧ pull_run (Image op) evs None
       ∨ config_get d "PULL_ALWAYS" ≠ "1" ∧ evs = []) →
      applyOptions (dockerConfigurationOptions d) (newConfig op) HostConfig_zero = Fail err →
      exec_run quote d op evs (OperationResult_zero, Some err)
  | options_applied evs cfg hostCfg evs' res :
      (config_get d "PULL_ALWAYS" = "1" ∧ pull_run (Image op) evs None
       ∨ config_get d "PULL_ALWAYS" ≠ "1" ∧ evs = []) →
      applyOptions (dockerConfigurationOptions d) (newConfig op) HostConfig_zero
        = Ok (cfg, hostCfg) →
      create_run quote op cfg hostCfg evs' res →
      exec_run quote d op (evs ++ evs') res.

(** Cleanup, as a property of a sequence of events: when a creation succeeded, one
    removal is recorded, it is the last event and it removes the created
    container; when none did, no removal is recorded. *)
Definition removes_created (evs : list event) : Prop :=
  (∀ cfg hostCfg ID, EvContainerCreate cfg hostCfg (Ok ID) ∈ evs →
     count is_remove evs = 1
     ∧ ∃ pre reply, evs = pre ++ [EvContainerRemove ID reply])
  ∧ ((∀ cfg hostCfg ID, EvContainerCreate cfg hostCfg (Ok ID) ∉ evs) →
     count is_remove evs = 0).

(** Fail-fast staging, as a property of a run: none of the calls that
    follow the staging is made, and when a container was created [exec]
    returns the staging error for [err] and removes the container right
    after the creation. *)
Definition stops_at_staging (err : error) (evs : list event)
    (res : OperationResult * option error) : Prop :=
  count after_staging evs = 0
  ∧ ∀ cfg hostCfg ID, EvContainerCreate cfg hostCfg (Ok ID) ∈ evs →
      res = (OperationResult_zero, Some (Errorf ("error staging files: " +:+ Error err)))
      ∧ ∃ pre reply,
          evs = pre ++ [EvContainerCreate cfg hostCfg (Ok ID); EvContainerRemove ID reply].

(** ** A scripted engine *)

(** An engine that answers from a script: the replies to the successive
    create and pull calls, and one reply for each of the other calls. *)
Module Fake.
Record Script : Type := {
  creates : list (result string);
  pulls : list (result ResponseBody);
  copyTo : option error;
  attach : option error;
  start : option error;
  wait : waitOutcome;
  copyFrom : result tarReader;
  remove : option error
}.

Definition popCreate (cfg : container_Config) (hostCfg : container_HostConfig)
    (e : Script) : result string * Script :=
  match creates e with
  | [] => (Fail (Err "script exhausted"), e)
  | reply :: rest =>
      (reply,
       {| creates := rest; pulls := pulls e; copyTo := copyTo e; attach := attach e;
          start := start e; wait := wait e; copyFrom := copyFrom e; remove := remove e |})
  end.

Definition popPull (image encodedAuth : string) (e : Script) : result ResponseBody * Script :=
  match pulls e with
  | [] => (Fail (Err "script exhausted"), e)
  | reply :: rest =>
      (reply,
       {| creates := creates e; pulls := rest; copyTo := copyTo e; attach := attach e;
          start := start e; wait := wait e; copyFrom := copyFrom e; remove := remove e |})
  end.

Definition dquote : string := String (ascii_of_nat 34) EmptyString.

Definition docker : Docker Script :=
  {| NewDockerCli := Ok {| combinedDiscard := false |};
     Initialize := λ _, None;
     ParseNormalizedNamed := λ image,
       if decide (image = "") then Fail (Err "invalid reference format") else Ok image;
     ParseRepositoryInfo := Ok;
     ResolveAuthConfig := λ _, "";
     EncodeAuthToBase64 := Ok;
     Quote := λ s, dquote +:+ s +:+ dquote;
     ImagePull := popPull;
     ContainerCreate := popCreate;
     ContainerRemove := λ _ e, (remove e, e);
     CopyToContainer := λ _ _ _ e, (copyTo e, e);
     ContainerAttach := λ _ e, (attach e, e);
     ContainerWait := λ _ e, e;
     ContainerStart := λ _ e, (start e, e);
     WaitResult := λ _ e, wait e;
     CopyFromContainer := λ _ _ e, (copyFrom e, e) |}.

(** A driver as [&Driver{}] leaves it, and one in simulate mode. *)
Definition driver0 : Driver :=
  {| config := ∅; Simulate := false; dockerCli := None;
     dockerConfigurationOptions := []; containerOut := None; containerErr := None |}.

Definition simulated : Driver :=
  {| config := ∅; Simulate := true; dockerCli := None;
     dockerConfigurationOptions := []; containerOut := None; containerErr := None |}.

(** Scenario A of the specification: one file staged, exit status 0, one
    file and its directory in the outputs archive. *)
Definition install : Operation :=
  {| Image := "example/install:v1";
     Environment := {[ "CNAB_ACTION" := "install" ]};
     Files := {[ "/cnab/app/run" := "#!/bin/sh" ]} |}.

Definition outputsArchive : tarReader :=
  TarEntry {| Name := "outputs/"; IsDir := true |} (Ok "")
    (TarEntry {| Name := "outputs/install.log"; IsDir := false |} (Ok "done")
       (TarEnd io_EOF)).

Definition scenarioA : Script :=
  {| creates := [Ok "c1"]; pulls := []; copyTo := None; attach := None; start := None;
     wait := FromStatusc 0 None; copyFrom := Ok outputsArchive; remove := None |}.

Definition stateA : State Script := {| driver := driver0; engine := scenarioA |}.

(** An operation with a file whose path is not absolute. *)
Definition relative : Operation :=
  {| Image := "example/install:v1";
     Environment := ∅;
     Files := {[ "app/run" := "#!/bin/sh" ]} |}.

(** Scenario B: the image is missing at first and is pulled. *)
Definition scenarioB : Script :=
  {| creates := [Fail (ErrNotFound "No such image: example/install:v1"); Ok "c1"];
     pulls := [Ok [Ok "Pulling from example/install"]];
     copyTo := None; attach := None; start := None;
     wait := FromStatusc 0 None; copyFrom := Ok outputsArchive; remove := None |}.

Definition stateB : State Script := {| driver := driver0; engine := scenarioB |}.

(** The image is missing and the registry refuses the pull. *)
Definition refused : Script :=
  {| creates := [Fail (ErrNotFound "No such image: example/install:v1"); Ok "c1"];
     pulls := [Fail (Err "pull access denied")];
     copyTo := None; attach := None; start := None;
     wait := FromStatusc 0 None; copyFrom := Ok outputsArchive; remove := None |}.

(** Exit status 0, but the outputs cannot be copied out. *)
Definition noOutputs : Script :=
  {| creates := [Ok "c1"]; pulls := []; copyTo := None; attach := None; start := None;
     wait := FromStatusc 0 None;
     copyFrom := Fail (Err "Could not find the file /cnab/app/outputs in container c1");
     remove := None |}.

(** Scenario C: exit status 137 without a message; the second file of the
    archive cannot be read. *)
Definition truncated : list entry :=
  [ ({| Name := "outputs/"; IsDir := true |}, Ok "");
    ({| Name := "outputs/install.log"; IsDir := false |}, Ok "done");
    ({| Name := "outputs/state.json"; IsDir := false |}, Fail (Err "unexpected EOF")) ].

Definition scenarioC : Script :=
  {| creates := [Ok "c1"]; pulls := []; copyTo := None; attach := None; start := None;
     wait := FromStatusc 137 None;
     copyFrom := Ok (archive truncated io_EOF);
     remove := Some (Err "removal of container c1 is already in progress") |}.

Definition stateC : State Script := {| driver := driver0; engine := scenarioC |}.

(** A driver set to pull always, with an engine that still misses the image
    at the first creation. *)
Definition alwaysPull : Driver :=
  {| config := {[ "PULL_ALWAYS" := "1" ]}; Simulate := false; dockerCli := None;
     dockerConfigurationOptions := []; containerOut := None; containerErr := None |}.

Definition pulledTwice : Script :=
  {| creates := [Fail (ErrNotFound "No such image: example/install:v1"); Ok "c1"];
     pulls := [Ok []; Ok []];
     copyTo := None; attach := None; start := None;
     wait := FromStatusc 0 None; copyFrom := Ok outputsArchive; remove := None |}.

(** Two options: the first mounts a volume, the second refuses to go on. *)
Definition mountState : ConfigurationOption :=
  λ cfg hostCfg,
    (cfg,
     {| Binds := Binds hostCfg ++ ["/var/state:/cnab/app/state"];
        Privileged := Privileged hostCfg; NetworkMode := NetworkMode hostCfg |},
     None).

Definition refuse : ConfigurationOption :=
  λ cfg hostCfg, (cfg, hostCfg, Some (Err "option refused")).

Definition withOptions : Driver :=
  {| config := ∅; Simulate := false; dockerCli := None;
     dockerConfigurationOptions := [mountState; refuse; mountState];
     containerOut := None; containerErr := None |}.
End Fake.

(** ** More notions on events *)

(** A creation that succeeded. *)
Definition is_created (ev : event) : bool :=
  match ev with EvContainerCreate _ _ (Ok _) => true | _ => false end.

(** The container an engine call addresses, for the calls that take a
    container ID. *)
Definition container_of (ev : event) : option string :=
  match ev with
  | EvContainerRemove ID _ | EvCopyToContainer ID _ _ _ | EvContainerAttach ID _
  | EvContainerWait ID | EvContainerStart ID _ | EvCopyFromContainer ID _ _ => Some ID
  | _ => None
  end.

(** ** The command that removes credential sets *)

(** [strings.Join]. *)
Fixpoint strings_Join (elems : list string) (sep : string) : string :=
  match elems with
  | [] => ""
  | [e] => e
  | e :: rest => e +:+ sep +:+ strings_Join rest sep
  end.

Definition percent : ascii := "%"%char.

(** [fmt.Errorf(format)] without operands: a format without [%] is the
    message as it is; what [fmt] makes of the verbs of any other format is
    left to [sprintf]. *)
Definition fmt_Errorf (sprintf : string → string) (format : string) : error :=
  Errorf (if occurs percent format then sprintf format else format).

(** What the command takes from outside: the home directory, the directory
    of the credentials in it, the credential sets found there (name to
    path), [os.Remove] on a file system of state [FS], and the expansion of
    a format by [fmt]. *)
Record System (FS : Type) : Type := {
  homePath : string;
  Credentials : string → string;
  findCredentialSets : string → FS → gmap string string;
  os_Remove : string → FS → option error * FS;
  Sprintf : string → string
}.
Arguments homePath {FS}.
Arguments Credentials {FS}.
Arguments findCredentialSets {FS}.
Arguments os_Remove {FS}.
Arguments Sprintf {FS}.

(** [credentialRemoveCmd]; what is written to its [out] is kept in the
    world below. *)
Record credentialRemoveCmd : Type := { names : list string; home : string }.

(** The file system, the lines written to [rm.out], and the [os.Remove]
    calls made so far: name of the credential set, path, reply. *)
Record World (FS : Type) : Type := {
  fs : FS;
  out : list string;
  removals : list (string * string * option error)
}.
Arguments fs {FS}.
Arguments out {FS}.
Arguments removals {FS}.

Section Credentials.
Context {FS : Type} (sys : System FS).

(** [removeCredentialSet]. *)
Definition removeCredentialSet (path : string) (fs : FS) : option error * FS :=
  match os_Remove sys path fs with
  | (Some err, fs') => (Some err, fs')
  | (None, fs') => (None, fs')
  end.

(** The loop of [run] over [rm.names]. *)
Fixpoint removeLoop (credentialSets : gmap string string) (names : list string)
    (removeErrors notFound : list string) (w : World FS)
  : list string * list string * World FS :=
  match names with
  | [] => (removeErrors, notFound, w)
  | name :: rest =>
      match credentialSets !! name with
      | Some path =>
          match removeCredentialSet path (fs w) with
          | (Some err, fs') =>
              removeLoop credentialSets rest
                (removeErrors ++
                   ["Failed to remove credential set " +:+ name +:+ ": " +:+ Error err])
                notFound
                {| fs := fs'; out := out w;
                   removals := removals w ++ [(name, path, Some err)] |}
          | (None, fs') =>
              removeLoop credentialSets rest removeErrors notFound
                {| fs := fs';
                   out := out w ++ ["Removed credential set: " +:+ name +:+ newline];
                   removals := removals w ++ [(name, path, None)] |}
          end
      | None => removeLoop credentialSets rest removeErrors (notFound ++ [name]) w
      end
  end.

(** [run]. *)
Definition run (rm : credentialRemoveCmd) (w : World FS) : option error * World FS :=
  let credentialSets := findCredentialSets sys (Credentials sys (home rm)) (fs w) in
  let '(removeErrors, notFound, w') := removeLoop credentialSets (names rm) [] [] w in
  let removeErrors :=
    if decide (0 < length notFound)
    then removeErrors ++
           ["Unable to find credential set(s): " +:+ strings_Join notFound ", "]
    else removeErrors in
  if decide (0 < length removeErrors)
  then (Some (fmt_Errorf (Sprintf sys) (strings_Join removeErrors newline)), w')
  else (None, w').

(** The [RunE] of [newCredentialRemoveCmd]. *)
Definition RunE (args : list string) (w : World FS) : option error * World FS :=
  if decide (length args < 1)
  then (Some (Err "This command requires at least 1 argument: name of credential set"), w)
  else run {| names := args; home := homePath sys |} w.
End Credentials.

(** The names of a list that are credential sets, with their paths, and
    those that are not. *)
Definition found (credentialSets : gmap string string) (names : list string)
  : list (string * string) :=
  omap (λ name, (λ path, (name, path)) <$> credentialSets !! name) names.

Definition missing (credentialSets : gmap string string) (names : list string)
  : list string :=
  omap (λ name, match credentialSets !! name with
                | None => Some name
                | Some _ => None
                end) names.

(** The line written for a removal that succeeded, and the error line kept
    for one that failed. *)
Definition removedLine (r : string * string * option error) : option string :=
  match r.2 with
  | None => Some ("Removed credential set: " +:+ r.1.1 +:+ newline)
  | Some _ => None
  end.

Definition failedLine (r : string * string * option error) : option string :=
  (λ err, "Failed to remove credential set " +:+ r.1.1 +:+ ": " +:+ Error err) <$> r.2.

(** The file system after a sequence of [os.Remove] calls. *)
Definition replay {FS} (sys : System FS) (paths : list string) (fs : FS) : FS :=
  foldl (λ fs path, (os_Remove sys path fs).2) fs paths.

(** A file system given by the set of its paths, with two credential
    sets. *)
Module FakeOS.
Definition prod : string := "/home/u/.duffle/credentials/prod.yaml".
Definition dev : string := "/home/u/.duffle/credentials/dev.yaml".

Definition sets : gmap string string := <["prod" := prod]> (<["dev" := dev]> ∅).

Definition sys : System (list string) :=
  {| homePath := "/home/u/.duffle";
     Credentials := λ h, h +:+ "/credentials";
     findCredentialSets := λ _ _, sets;
     os_Remove := λ path fs,
       if decide (path ∈ fs) then (None, List.filter (λ p, negb (String.eqb p path)) fs)
       else (Some (Err ("remove " +:+ path +:+ ": no such file or directory")), fs);
     Sprintf := λ format, format |}.

Definition world0 : World (list string) :=
  {| fs := [prod; dev]; out := []; removals := [] |}.
End FakeOS.

(** The replies of a sequence of [os.Remove] calls, each made on the file
    system the calls before it have left. *)
Fixpoint answers {FS} (sys : System FS) (paths : list string) (fs : FS)
  : list (option error) :=
  match paths with
  | [] => []
  | path :: rest =>
      (os_Remove sys path fs).1 :: answers sys rest (os_Remove sys path fs).2
  end.

(** The [os.Remove] calls of [run] for a list of names: the names that are
    credential sets, each with its path and the reply it gets. *)
Definition attempts {FS} (sys : System FS) (credentialSets : gmap string string)
    (names : list string) (fs : FS) : list (string * string * option error) :=
  zip (found credentialSets names) (answers sys (found credentialSets names).*2 fs).

(** The lines of the error of [run]: one for each removal that failed, then
    one for the names that are no credential sets, if any. *)
Definition errorLines {FS} (sys : System FS) (credentialSets : gmap string string)
    (names : list string) (fs : FS) : list string :=
  omap failedLine (attempts sys credentialSets names fs) ++
  match missing credentialSets names with
  | [] => []
  | notFound => ["Unable to find credential set(s): " +:+ strings_Join notFound ", "]
  end.

(** What comes before a successful creation in a run: no call on a
    container, no successful creation, at most [creates] creations and
    [pulls] pulls. *)
Definition preamble (creates pulls : nat) (pre : list event) : Prop :=
  count after_staging pre = 0 ∧ count is_remove pre = 0 ∧ count is_created pre = 0
  ∧ (count is_create pre ≤ creates)%nat ∧ (count is_pull pre ≤ pulls)%nat
  ∧ Forall (λ ev, container_of ev = None) pre.

(** What one configuration option leaves of a pair of specifications and
    the error it returns; and what the options of a list leave when they
    are called one after the other, from the first on, each on what the one
    before it has left. *)
Definition optionSpec (opt : ConfigurationOption)
    (s : container_Config * container_HostConfig)
  : container_Config * container_HostConfig := (opt s.1 s.2).1.

Definition optionError (opt : ConfigurationOption)
    (s : container_Config * container_HostConfig) : option error := (opt s.1 s.2).2.

Definition afterOptions (opts : list ConfigurationOption)
    (s : container_Config * container_HostConfig)
  : container_Config * container_HostConfig :=
  foldl (λ s opt, optionSpec opt s) s opts.

(** More runs of the scripted engine, and of the command that removes
    credential sets. *)
Module Scenarios.
Definition runA := Run Fake.docker Fake.install Fake.stateA.

Definition runB := Run Fake.docker Fake.install Fake.stateB.

(** The container is created and cannot be started. *)
Definition startFails : Fake.Script :=
  {| Fake.creates := [Ok "c1"]; Fake.pulls := []; Fake.copyTo := None;
     Fake.attach := None; Fake.start := Some (Err "OCI runtime create failed");
     Fake.wait := FromStatusc 0 None; Fake.copyFrom := Ok Fake.outputsArchive;
     Fake.remove := None |}.

Definition runStartFails :=
  Run Fake.docker Fake.install {| driver := Fake.driver0; engine := startFails |}.

(** [PULL_ALWAYS] is set and the registry refuses the pull. *)
Definition runPullRefused :=
  Run Fake.docker Fake.install {| driver := Fake.alwaysPull; engine := Fake.refused |}.

(** A driver without a client, set to be quiet. *)
Definition quiet : Driver :=
  {| config := {[ "DOCKER_DRIVER_QUIET" := "1" ]}; Simulate := false; dockerCli := None;
     dockerConfigurationOptions := []; containerOut := None; containerErr := None |}.

Definition stateQuiet : State Fake.Script := {| driver := quiet; engine := Fake.scenarioA |}.

(** [prod] is given twice and [stage] is no credential set. *)
Definition removeTwice : credentialRemoveCmd :=
  {| names := ["prod"; "stage"; "prod"]; home := "/home/u/.duffle" |}.

(** Three options that succeed: two mounts, and a user that is set only
    when both mounts are there. *)
Definition mountData : ConfigurationOption :=
  λ cfg hostCfg,
    (cfg,
     {| Binds := Binds hostCfg ++ ["/var/data:/cnab/app/data"];
        Privileged := Privileged hostCfg; NetworkMode := NetworkMode hostCfg |},
     None).

Definition asUser : ConfigurationOption :=
  λ cfg hostCfg,
    ({| cfgImage := cfgImage cfg; Env := Env cfg; Entrypoint := Entrypoint cfg;
        AttachStderr := AttachStderr cfg; AttachStdout := AttachStdout cfg;
        Cmd := Cmd cfg;
        User := if decide (length (Binds hostCfg) = 2) then "cnab" else User cfg;
        WorkingDir := WorkingDir cfg |},
     hostCfg, None).

Definition mounted : Driver :=
  {| config := ∅; Simulate := false; dockerCli := None;
     dockerConfigurationOptions := [Fake.mountState; mountData; asUser];
     containerOut := None; containerErr := None |}.

Definition stateMounted : State Fake.Script :=
  {| driver := mounted; engine := Fake.scenarioA |}.

Definition runMounted := Run Fake.docker Fake.install stateMounted.
End Scenarios.

(** * Properties *)

(** ** The model on concrete inputs *)

Example Join_outputs :
  Join "/cnab/app" "outputs/install.log" = "/cnab/app/outputs/install.log".
Proof. reflexivity. Qed.

Example Join_dots :
  Join "/cnab/app" "outputs//a/./../b/" = "/cnab/app/outputs/b".
Proof. reflexivity. Qed.

Example Join_empty : Join "/cnab/app" "" = "/cnab/app".
Proof. reflexivity. Qed.

Example Join_escape : Join "/cnab/app" "../../../x" = "/x".
Proof. reflexivity. Qed.

Example Clean_relative : Clean "a/../../b" = "../b".
Proof. reflexivity. Qed.

Example itoa_137 : itoa 137 = "137" ∧ itoa 0 = "0" ∧ itoa (-1) = "-1".
Proof. repeat split; reflexivity. Qed.

Example scenarioA_runs :
  let '(res, _, evs) := Run Fake.docker Fake.install Fake.stateA in
  res = ({| Outputs := Some {[ "/cnab/app/outputs/install.log" := "done" ]} |}, None)
  ∧ length evs = 8.
Proof. vm_compute. split; reflexivity. Qed.

(** Scenario B: one failed creation, the notice, one pull, one successful
    creation, and the run goes on to the removal. *)
Example scenarioB_runs :
  let '(res, _, evs) := Run Fake.docker Fake.install Fake.stateB in
  res = ({| Outputs := Some {[ "/cnab/app/outputs/install.log" := "done" ]} |}, None)
  ∧ count is_pull evs = 1 ∧ count is_create evs = 2 ∧ count is_remove evs = 1
  ∧ take 4 evs =
      [EvContainerCreate (newConfig Fake.install) HostConfig_zero
         (Fail (ErrNotFound "No such image: example/install:v1"));
       notice Fake.install;
       EvImagePull "example/install:v1" "" (Ok [Ok "Pulling from example/install"]);
       EvContainerCreate (newConfig Fake.install) HostConfig_zero (Ok "c1")].
Proof. vm_compute. repeat split; reflexivity. Qed.

(** Scenario C: exit status 137 without a message, a partial archive, and a
    removal that fails. *)
Example scenarioC_runs :
  (Run Fake.docker Fake.install Fake.stateC).1.1
  = ({| Outputs := Some {[ "/cnab/app/outputs/install.log" := "done" ]} |},
     Some (Err "container exit code: 137")).
Proof. reflexivity. Qed.

(** ** C9: the option set of [Config] *)

(** C9. [Config] returns the same mapping whatever the state of the driver,
    hence also when it is called twice in a row: the four keys [VERBOSE],
    [PULL_ALWAYS], [DOCKER_DRIVER_QUIET] and [OUTPUTS_MOUNT_PATH], each with
    a fixed description. *)
Theorem Config_idempotent (d d' : Driver) (settings : gmap string string) :
  Config d = Config d'
  ∧ Config (SetConfig d settings) = Config d
  ∧ dom (Config d) =
      ({[ "VERBOSE"; "PULL_ALWAYS"; "DOCKER_DRIVER_QUIET"; "OUTPUTS_MOUNT_PATH" ]} : gset string)
  ∧ Config d !! "VERBOSE" = Some "Increase verbosity. true, false are supported values"
  ∧ Config d !! "PULL_ALWAYS" = Some "Always pull image, even if locally available (0|1)"
  ∧ Config d !! "DOCKER_DRIVER_QUIET" =
      Some "Make the Docker driver quiet (only print container stdout/stderr)"
  ∧ Config d !! "OUTPUTS_MOUNT_PATH" =
      Some "Absolute path to where Docker driver can create temporary directories to bundle outputs. Defaults to temp dir.".
Proof.
  repeat split; reflexivity.
Qed.

(** ** The runs of [Run] *)

Section Runs.
Context {Engine : Type} (docker : Docker Engine).

Local Ltac unfold_monad :=
  cbv [call emit getDriver getEngine setDockerCli mbind mret M_bind M_ret driver engine].

(** Acquiring the client makes no engine call and leaves the engine, the
    simulate flag, the settings and the options as they are. *)
Lemma initializeDockerCli_spec (st : State Engine) :
  ∃ r d,
    initializeDockerCli docker st = (r, {| driver := d; engine := engine st |}, [])
    ∧ Simulate d = Simulate (driver st)
    ∧ config d = config (driver st)
    ∧ dockerConfigurationOptions d = dockerConfigurationOptions (driver st).
Proof.
  destruct st as [d e]. unfold initializeDockerCli. unfold_monad.
  destruct (dockerCli d) as [cli|]; [by eauto 10|].
  destruct (NewDockerCli docker) as [cli|err]; [|by eauto 10].
  destruct (Initialize docker _) as [err|]; [by eauto 10|].
  eexists _, _. split; [reflexivity|]. done.
Qed.

Lemma pullImage_spec (image : string) (st : State Engine) :
  ∃ err e evs,
    pullImage docker image st = (err, {| driver := driver st; engine := e |}, evs)
    ∧ pull_run image evs err.
Proof.
  destruct st as [d e]. unfold pullImage. unfold_monad.
  destruct (ParseNormalizedNamed docker image) as [ref|err];
    [|eexists _, _, _; split; [reflexivity|constructor]].
  destruct (ParseRepositoryInfo docker ref) as [repoInfo|err];
    [|eexists _, _, _; split; [reflexivity|constructor]].
  destruct (EncodeAuthToBase64 docker _) as [encodedAuth|err];
    [|eexists _, _, _; split; [reflexivity|constructor]].
  destruct (ImagePull docker image encodedAuth e) as [[body|err] e'];
    eexists _, _, _; (split; [reflexivity|constructor]).
Qed.

Lemma fetchOutputs_spec (ID : string) (st : State Engine) :
  ∃ reply e,
    fetchOutputs docker ID st =
      (fetched (Quote docker) reply, {| driver := driver st; engine := e |},
       [EvCopyFromContainer ID "/cnab/app/outputs" reply]).
Proof.
  destruct st as [d e]. unfold fetchOutputs. unfold_monad.
  destruct (CopyFromContainer docker ID _ e) as [[ioReader|err] e'].
  - exists (Ok ioReader), e'. unfold fetched.
    destruct (readOutputs _ ioReader ∅) as [outputs err]. reflexivity.
  - exists (Fail err), e'. reflexivity.
Qed.

Lemma execCreated_spec (op : Operation) (ID : string) (st : State Engine) :
  ∃ res e evs,
    execCreated docker op ID st = (res, {| driver := driver st; engine := e |}, evs)
    ∧ created_run (Quote docker) op ID evs res.
Proof.
  destruct st as [d e]. unfold execCreated.
  destruct (generateTar (Files op)) as [tarContent|err] eqn:Htar;
    [|eexists _, _, _; split; [reflexivity|by constructor]].
  unfold receive. unfold_monad.
  destruct (CopyToContainer docker ID "/" tarContent e) as [[err|] e1].
  { eexists _, _, _. split; [reflexivity|]. by constructor. }
  destruct (ContainerAttach docker ID e1) as [[err|] e2].
  { eexists _, _, _. split; [reflexivity|]. by constructor. }
  destruct (ContainerStart docker ID (ContainerWait docker ID e2)) as [[err|] e3].
  { eexists _, _, _. split; [reflexivity|]. by constructor. }
  destruct (WaitResult docker ID e3) as [[err|]|StatusCode WaitError].
  - destruct (fetchOutputs_spec ID {| driver := d; engine := e3 |}) as (reply & e4 & ->).
    destruct (fetched _ reply) as [opResult ferr] eqn:Hf.
    eexists _, _, _. split; [reflexivity|].
    change opResult with (opResult, ferr).1. rewrite <- Hf. by constructor.
  - destruct (fetchOutputs_spec ID {| driver := d; engine := e3 |}) as (reply & e4 & ->).
    destruct (fetched _ reply) as [opResult ferr] eqn:Hf.
    eexists _, _, _. split; [reflexivity|].
    change opResult with (opResult, ferr).1. rewrite <- Hf. by constructor.
  - destruct (decide (StatusCode = 0%Z)) as [->|Hne].
    { destruct (fetchOutputs_spec ID {| driver := d; engine := e3 |}) as (reply & e4 & ->).
      eexists _, _, _. split; [reflexivity|]. by constructor. }
    destruct WaitError as [Message|].
    + destruct (fetchOutputs_spec ID {| driver := d; engine := e3 |}) as (reply & e4 & ->).
      destruct (fetched _ reply) as [opResult ferr] eqn:Hf.
      eexists _, _, _. split; [reflexivity|].
      change opResult with (opResult, ferr).1. rewrite <- Hf. by constructor.
    + destruct (fetchOutputs_spec ID {| driver := d; engine := e3 |}) as (reply & e4 & ->).
      destruct (fetched _ reply) as [opResult ferr] eqn:Hf.
      eexists _, _, _. split; [reflexivity|].
      change opResult with (opResult, ferr).1. rewrite <- Hf. by constructor.
Qed.

Lemma bind_run {A B} (m : M Engine A) (k : A → M Engine B) s a s1 evs1 :
  m s = (a, s1, evs1) →
  (m ≫= k) s = (let '(b, s2, evs2) := k a s1 in (b, s2, evs1 ++ evs2)).
Proof. intros Hm. unfold mbind, M_bind. by rewrite Hm. Qed.

Lemma execDeferred_spec (op : Operation) (ID : string) (st : State Engine) :
  ∃ res e evs reply,
    execDeferred docker op ID st =
      (res, {| driver := driver st; engine := e |}, evs ++ [EvContainerRemove ID reply])
    ∧ created_run (Quote docker) op ID evs res.
Proof.
  destruct (execCreated_spec op ID st) as (res & e & evs & Hrun & Hcreated).
  unfold execDeferred. rewrite (bind_run _ _ _ _ _ _ Hrun). unfold_monad.
  destruct (ContainerRemove docker ID e) as [reply e'].
  exists res, e', evs, reply. by rewrite app_nil_r.
Qed.

Lemma create_spec (op : Operation) (cfg : container_Config) (hostCfg : container_HostConfig)
    (st : State Engine) :
  ∃ res st' evs,
    (resp ← call (ContainerCreate docker cfg hostCfg) (EvContainerCreate cfg hostCfg);
     match resp with
     | Ok ID => execDeferred docker op ID
     | Fail err =>
         if IsErrNotFound (Some err) then
           emit (EvNotice ("Unable to find image " +:+ apostrophe +:+ Image op +:+
                           apostrophe +:+ " locally" +:+ newline));;
           err ← pullImage docker (Image op);
           match err with
           | Some err => mret (OperationResult_zero, Some err)
           | None =>
               resp ← call (ContainerCreate docker cfg hostCfg)
                           (EvContainerCreate cfg hostCfg);
               match resp with
               | Fail err =>
                   mret (OperationResult_zero,
                         Some (Errorf ("cannot create container: " +:+ Error err)))
               | Ok ID => execDeferred docker op ID
               end
           end
         else
           mret (OperationResult_zero,
                 Some (Errorf ("cannot create container: " +:+ Error err)))
     end) st = (res, st', evs)
    ∧ create_run (Quote docker) op cfg hostCfg evs res.
Proof.
  destruct st as [d e].
  destruct (ContainerCreate docker cfg hostCfg e) as [resp e1] eqn:Hcreate.
  assert (call (ContainerCreate docker cfg hostCfg) (EvContainerCreate cfg hostCfg)
            {| driver := d; engine := e |}
          = (resp, {| driver := d; engine := e1 |}, [EvContainerCreate cfg hostCfg resp])) as Hcall.
  { unfold call. cbn [driver engine]. by rewrite Hcreate. }
  rewrite (bind_run _ _ _ _ _ _ Hcall). clear Hcall Hcreate.
  destruct resp as [ID|err].
  { destruct (execDeferred_spec op ID {| driver := d; engine := e1 |})
      as (res & e2 & evs & reply & -> & Hcreated).
    eexists _, _, _. split; [reflexivity|]. by constructor. }
  destruct (IsErrNotFound (Some err)) eqn:Hnf.
  2:{ eexists _, _, _. split; [reflexivity|]. by constructor. }
  destruct err as [|msg|]; try discriminate Hnf.
  assert (emit (notice op) {| driver := d; engine := e1 |}
          = ((), {| driver := d; engine := e1 |}, [notice op])) as Hemit by reflexivity.
  unfold notice in Hemit at 1. rewrite (bind_run _ _ _ _ _ _ Hemit). clear Hemit.
  destruct (pullImage_spec (Image op) {| driver := d; engine := e1 |})
    as (perr & e2 & pevs & Hpull & Hpulled).
  rewrite (bind_run _ _ _ _ _ _ Hpull). clear Hpull. cbn [driver] in *.
  destruct perr as [perr|].
  { eexists _, _, _. split; [reflexivity|].
    cbn [app]. rewrite ?app_nil_r. by apply fallback_pull_failed. }
  destruct (ContainerCreate docker cfg hostCfg e2) as [resp e3] eqn:Hcreate.
  assert (call (ContainerCreate docker cfg hostCfg) (EvContainerCreate cfg hostCfg)
            {| driver := d; engine := e2 |}
          = (resp, {| driver := d; engine := e3 |}, [EvContainerCreate cfg hostCfg resp])) as Hcall.
  { unfold call. cbn [driver engine]. by rewrite Hcreate. }
  rewrite (bind_run _ _ _ _ _ _ Hcall). clear Hcall Hcreate.
  destruct resp as [ID|err].
  - destruct (execDeferred_spec op ID {| driver := d; engine := e3 |})
      as (res & e4 & evs & reply & -> & Hcreated).
    eexists _, _, _. split; [reflexivity|].
    cbn [app]. by apply created_retry.
  - eexists _, _, _. split; [reflexivity|].
    cbn [app]. rewrite ?app_nil_r. by apply retry_failed.
Qed.

(** Every run of [Run]: without events when the client cannot be acquired
    or the driver is in simulate mode, and as [exec_run] describes
    otherwise. *)
Lemma Run_spec (op : Operation) (st : State Engine) :
  ∃ res st' evs,
    Run docker op st = (res, st', evs)
    ∧ match (initializeDockerCli docker st).1.1 with
      | Fail err => res = (OperationResult_zero, Some err) ∧ evs = []
      | Ok _ =>
          if Simulate (driver st) then res = (OperationResult_zero, None) ∧ evs = []
          else exec_run (Quote docker) (driver st) op evs res
      end.
Proof.
  destruct (initializeDockerCli_spec st) as (r & d & Hinit & Hsim & Hconf & Hopts).
  unfold Run, exec. rewrite (bind_run _ _ _ _ _ _ Hinit). rewrite Hinit. cbn [fst].
  destruct r as [cli|err]; [|by eexists _, _, _].
  assert (getDriver {| driver := d; engine := engine st |}
          = (d, {| driver := d; engine := engine st |}, [])) as Hget by reflexivity.
  rewrite (bind_run _ _ _ _ _ _ Hget). clear Hget.
  rewrite Hsim. destruct (Simulate (driver st)); [by eexists _, _, _|].
  assert (config_get d "PULL_ALWAYS" = config_get (driver st) "PULL_ALWAYS") as Hget
    by (unfold config_get; by rewrite Hconf).
  rewrite Hget, Hopts. clear Hget.
  assert (∃ perr e1 pevs,
    (if decide (config_get (driver st) "PULL_ALWAYS" = "1")
     then pullImage docker (Image op) else mret None) {| driver := d; engine := engine st |}
    = (perr, {| driver := d; engine := e1 |}, pevs)
    ∧ (config_get (driver st) "PULL_ALWAYS" = "1" ∧ pull_run (Image op) pevs perr
       ∨ config_get (driver st) "PULL_ALWAYS" ≠ "1" ∧ pevs = [] ∧ perr = None))
    as (perr & e1 & pevs & Hpull & Hpulled).
  { destruct (decide (config_get (driver st) "PULL_ALWAYS" = "1")) as [Hp|Hp].
    - destruct (pullImage_spec (Image op) {| driver := d; engine := engine st |})
        as (perr & e1 & pevs & Hpull & Hpulled).
      exists perr, e1, pevs. split; [done|]. by left.
    - eexists None, _, []. split; [reflexivity|]. by right. }
  rewrite (bind_run _ _ _ _ _ _ Hpull). clear Hpull.
  destruct perr as [perr|].
  { eexists _, _, _. split; [reflexivity|]. rewrite ?app_nil_r.
    destruct Hpulled as [[Hp Hpulled]|(_ & _ & [=])]. by apply eager_pull_failed. }
  assert (config_get (driver st) "PULL_ALWAYS" = "1" ∧ pull_run (Image op) pevs None
          ∨ config_get (driver st) "PULL_ALWAYS" ≠ "1" ∧ pevs = []) as Hpre
    by (destruct Hpulled as [?|(? & ? & ?)]; [by left|by right]).
  destruct (applyOptions _ _ _) as [[cfg hostCfg]|err] eqn:Happly.
  2:{ eexists _, _, _. split; [reflexivity|]. rewrite ?app_nil_r.
      by apply option_failed. }
  destruct (create_spec op cfg hostCfg {| driver := d; engine := e1 |})
    as (res & st' & evs & -> & Hcreate).
  eexists _, _, _. split; [reflexivity|].
  exact (options_applied _ _ _ pevs cfg hostCfg evs res Hpre Happly Hcreate).
Qed.

End Runs.

(** ** Events of the parts of a run *)

(** Membership in an explicit list of events, as a disjunction. *)
Ltac split_elem H :=
  repeat first
    [ apply elem_of_nil in H; destruct H
    | apply elem_of_cons in H; destruct H as [H|H]; [try discriminate H|] ].

Lemma pull_run_events image evs err :
  pull_run image evs err →
  count is_create evs = 0 ∧ count is_remove evs = 0 ∧ count after_staging evs = 0
  ∧ (count is_pull evs ≤ 1)%nat.
Proof. intros H; inv H; cbn; lia. Qed.

Lemma pull_run_no_create image evs err cfg hostCfg reply :
  pull_run image evs err → EvContainerCreate cfg hostCfg reply ∉ evs.
Proof. intros H Hin; inv H; split_elem Hin. Qed.

Lemma created_run_events quote op ID evs res :
  created_run quote op ID evs res →
  count is_create evs = 0 ∧ count is_remove evs = 0 ∧ count is_pull evs = 0.
Proof. intros H; inv H; cbn; lia. Qed.

Lemma created_run_no_create quote op ID evs res cfg hostCfg reply :
  created_run quote op ID evs res → EvContainerCreate cfg hostCfg reply ∉ evs.
Proof. intros H Hin; inv H; split_elem Hin. Qed.

Lemma count_app p evs evs' : count p (evs ++ evs') = count p evs + count p evs'.
Proof. unfold count. by rewrite List.filter_app, length_app. Qed.

Lemma count_cons p ev evs :
  count p (ev :: evs) = (if p ev then 1 else 0) + count p evs.
Proof. unfold count. cbn. by destruct (p ev). Qed.

Lemma count_zero_not_elem p evs ev : count p evs = 0 → p ev = true → ev ∉ evs.
Proof.
  intros Hc Hp Hin. induction evs as [|ev' evs IH]; [by apply elem_of_nil in Hin|].
  rewrite count_cons in Hc. apply elem_of_cons in Hin as [->|Hin].
  - rewrite Hp in Hc. lia.
  - apply IH; [lia|done].
Qed.

(** ** C6: simulate mode *)

Section Simulate.
Context {Engine : Type} (docker : Docker Engine).

(** C6. In simulate mode [Run] records no event at all, so no pull, create,
    copy, attach, start, wait or remove call reaches the engine, and the
    engine is left as it was.  The flag is looked at once the client is
    acquired: [Run] returns the zero [OperationResult] with a nil error when
    the acquisition succeeds, and the error of the acquisition when it
    fails. *)
Theorem Run_simulate (st : State Engine) (op : Operation) :
  Simulate (driver st) = true →
  ∃ st',
    Run docker op st =
      (match (initializeDockerCli docker st).1.1 with
       | Ok _ => (OperationResult_zero, None)
       | Fail err => (OperationResult_zero, Some err)
       end, st', [])
    ∧ engine st' = engine st.
Proof.
  intros Hsim.
  destruct (initializeDockerCli_spec docker st) as (r & d & Hinit & Hs & _ & _).
  unfold Run, exec. rewrite (bind_run _ _ _ _ _ _ Hinit), Hinit. cbn [fst].
  destruct r as [cli|err]; [|by eexists].
  cbv [mbind M_bind getDriver mret M_ret driver]. rewrite Hs, Hsim. by eexists.
Qed.
End Simulate.

(** In simulate mode the scripted engine is not touched. *)
Lemma Run_simulate_witness :
  ∃ st',
    Run Fake.docker Fake.install {| driver := Fake.simulated; engine := Fake.scenarioA |} =
      ((OperationResult_zero, None), st', [])
    ∧ engine st' = Fake.scenarioA.
Proof.
  apply (Run_simulate Fake.docker
           {| driver := Fake.simulated; engine := Fake.scenarioA |} Fake.install).
  reflexivity.
Defined.

(** ** C1: the created container is removed *)

Lemma removes_created_prefix pre evs :
  (∀ cfg hostCfg ID, EvContainerCreate cfg hostCfg (Ok ID) ∉ pre) →
  count is_remove pre = 0 →
  removes_created evs → removes_created (pre ++ evs).
Proof.
  intros Hc Hr [Hone Hnone]. split.
  - intros cfg hostCfg ID Hin. apply elem_of_app in Hin as [Hin|Hin].
    { by apply Hc in Hin. }
    destruct (Hone _ _ _ Hin) as (Hcount & pre' & reply & ->).
    split; [rewrite count_app; lia|].
    exists (pre ++ pre'), reply. by rewrite app_assoc.
  - intros Hno. rewrite count_app, Hr, Hnone; [done|].
    intros cfg hostCfg ID Hin. apply (Hno cfg hostCfg ID), elem_of_app. by right.
Qed.

Lemma removes_created_none evs :
  (∀ cfg hostCfg ID, EvContainerCreate cfg hostCfg (Ok ID) ∉ evs) →
  count is_remove evs = 0 → removes_created evs.
Proof. intros Hc Hr. split; [|done]. intros cfg hostCfg ID Hin. by apply Hc in Hin. Qed.

Lemma removes_created_deferred quote op ID evs res cfg hostCfg reply :
  created_run quote op ID evs res →
  removes_created (EvContainerCreate cfg hostCfg (Ok ID) :: evs ++ [EvContainerRemove ID reply]).
Proof.
  intros Hrun. destruct (created_run_events _ _ _ _ _ Hrun) as (_ & Hr & _). split.
  - intros cfg' hostCfg' ID' Hin. split.
    { rewrite count_cons, count_app, Hr. reflexivity. }
    apply elem_of_cons in Hin as [Heq|Hin].
    { inv Heq. by exists (EvContainerCreate cfg hostCfg (Ok ID) :: evs), reply. }
    apply elem_of_app in Hin as [Hin|Hin].
    { by apply (created_run_no_create _ _ _ _ _ _ _ _ Hrun) in Hin. }
    split_elem Hin.
  - intros Hno. destruct (Hno cfg hostCfg ID). apply elem_of_cons. by left.
Qed.

Lemma pull_run_removes image evs err : pull_run image evs err → removes_created evs.
Proof.
  intros H. destruct (pull_run_events _ _ _ H) as (_ & Hr & _).
  apply removes_created_none; [|done].
  intros cfg hostCfg ID. by eapply pull_run_no_create.
Qed.

Lemma create_run_removes quote op cfg hostCfg evs res :
  create_run quote op cfg hostCfg evs res → removes_created evs.
Proof.
  assert (∀ msg cfg' hostCfg' ID,
    EvContainerCreate cfg' hostCfg' (Ok ID)
      ∉ [EvContainerCreate cfg hostCfg (Fail (ErrNotFound msg)); notice op]) as Hpre.
  { intros msg cfg' hostCfg' ID Hin. split_elem Hin. }
  intros Hrun. inv Hrun.
  - apply removes_created_none; [|done]. intros cfg' hostCfg' ID Hin. split_elem Hin.
  - by eapply removes_created_deferred.
  - apply (removes_created_prefix [_; _]); [apply Hpre|done|].
    by eapply pull_run_removes.
  - match goal with H : pull_run _ _ _ |- _ =>
      destruct (pull_run_events _ _ _ H) as (_ & Hr & _) end.
    apply (removes_created_prefix [_; _]); [apply Hpre|done|].
    apply removes_created_prefix; [intros ???; by eapply pull_run_no_create|done|].
    apply removes_created_none; [|done]. intros cfg' hostCfg' ID Hin. split_elem Hin.
  - match goal with H : pull_run _ _ _ |- _ =>
      destruct (pull_run_events _ _ _ H) as (_ & Hr & _) end.
    apply (removes_created_prefix [_; _]); [apply Hpre|done|].
    apply removes_created_prefix; [intros ???; by eapply pull_run_no_create|done|].
    by eapply removes_created_deferred.
Qed.

Lemma exec_run_removes quote d op evs res :
  exec_run quote d op evs res → removes_created evs.
Proof.
  intros Hrun. inv Hrun.
  - by eapply pull_run_removes.
  - match goal with H : _ ∨ _ |- _ => destruct H as [[_ H]|[_ ->]] end.
    + by eapply pull_run_removes.
    + apply removes_created_none; [|done]. intros cfg hostCfg ID Hin. by apply elem_of_nil in Hin.
  - match goal with H : _ ∨ _ |- _ => destruct H as [[_ H]|[_ ->]] end.
    + destruct (pull_run_events _ _ _ H) as (_ & Hr & _).
      apply removes_created_prefix; [intros ???; by eapply pull_run_no_create|done|].
      by eapply create_run_removes.
    + by eapply create_run_removes.
Qed.

Section Removal.
Context {Engine : Type} (docker : Docker Engine).

(** What [Run] returns when its events are [evs], by the three ways it can
    go. *)
Lemma Run_inv (op : Operation) (st : State Engine) res st' evs :
  Run docker op st = (res, st', evs) →
  match (initializeDockerCli docker st).1.1 with
  | Fail err => res = (OperationResult_zero, Some err) ∧ evs = []
  | Ok _ =>
      if Simulate (driver st) then res = (OperationResult_zero, None) ∧ evs = []
      else exec_run (Quote docker) (driver st) op evs res
  end.
Proof.
  intros Hrun. destruct (Run_spec docker op st) as (res' & st'' & evs' & Heq & Hspec).
  rewrite Hrun in Heq. by simplify_eq.
Qed.

Lemma Run_removes (op : Operation) (st : State Engine) res st' evs :
  Run docker op st = (res, st', evs) → removes_created evs.
Proof.
  intros Hrun. apply Run_inv in Hrun.
  destruct (initializeDockerCli docker st).1.1.
  - destruct (Simulate (driver st)); [|by eapply exec_run_removes].
    destruct Hrun as [_ ->]. split; [|done].
    intros cfg hostCfg ID Hin. by apply elem_of_nil in Hin.
  - destruct Hrun as [_ ->]. split; [|done].
    intros cfg hostCfg ID Hin. by apply elem_of_nil in Hin.
Qed.

(** Two computations that return the same value after a common first
    step. *)
Lemma bind_result_ext {A B} (m : M Engine A) (k k' : A → M Engine B) s :
  (∀ a s1, (k a s1).1.1 = (k' a s1).1.1) →
  ((m ≫= k) s).1.1 = ((m ≫= k') s).1.1.
Proof.
  intros Hk. unfold mbind, M_bind. destruct (m s) as [[a s1] evs1].
  specialize (Hk a s1). by destruct (k a s1) as [[? ?] ?], (k' a s1) as [[? ?] ?].
Qed.

Lemma execDeferred_remove_irrelevant f op ID (s : State Engine) :
  (execDeferred (withContainerRemove docker f) op ID s).1.1 = (execDeferred docker op ID s).1.1.
Proof.
  unfold execDeferred.
  change (execCreated (withContainerRemove docker f)) with (execCreated docker).
  unfold mbind, M_bind. destruct (execCreated docker op ID s) as [[res s1] evs].
  unfold call, mret, M_ret. cbn [ContainerRemove withContainerRemove].
  by destruct (f ID (engine s1)), (ContainerRemove docker ID (engine s1)).
Qed.

(** The value [Run] returns does not depend on what [ContainerRemove] does
    or answers. *)
Lemma Run_remove_irrelevant f op (st : State Engine) :
  (Run (withContainerRemove docker f) op st).1.1 = (Run docker op st).1.1.
Proof.
  unfold Run, exec.
  change (initializeDockerCli (withContainerRemove docker f))
    with (initializeDockerCli docker).
  change (pullImage (withContainerRemove docker f)) with (pullImage docker).
  cbn [ContainerCreate withContainerRemove].
  apply bind_result_ext. intros [cli|err] s1; [|done].
  apply bind_result_ext. intros d s2. destruct (Simulate d); [done|].
  apply bind_result_ext. intros [err|] s3; [done|].
  destruct (applyOptions _ _ _) as [[cfg hostCfg]|err]; [|done].
  apply bind_result_ext. intros [ID|err] s4.
  { apply execDeferred_remove_irrelevant. }
  destruct (IsErrNotFound (Some err)); [|done].
  apply bind_result_ext. intros _ s5.
  apply bind_result_ext. intros [perr|] s6; [done|].
  apply bind_result_ext. intros [ID|err'] s7; [|done].
  apply execDeferred_remove_irrelevant.
Qed.

(** C1. In every run of [Run] in which a [ContainerCreate] call succeeded,
    exactly one [ContainerRemove] call is recorded, for the created
    container and as the last event of the run, whatever happened in
    between; a run without a successful creation records no removal.  The
    reply of the removal is dropped: [Run] returns the same result and
    error with any other behaviour of [ContainerRemove]. *)
Theorem Run_removes_created_container (op : Operation) (st : State Engine) res st' evs :
  Run docker op st = (res, st', evs) →
  (∀ cfg hostCfg ID, EvContainerCreate cfg hostCfg (Ok ID) ∈ evs →
     count is_remove evs = 1
     ∧ ∃ pre reply, evs = pre ++ [EvContainerRemove ID reply])
  ∧ ((∀ cfg hostCfg ID, EvContainerCreate cfg hostCfg (Ok ID) ∉ evs) →
     count is_remove evs = 0)
  ∧ ∀ f, (Run (withContainerRemove docker f) op st).1.1 = res.
Proof.
  intros Hrun. destruct (Run_removes _ _ _ _ _ Hrun) as [Hone Hnone].
  split; [done|]. split; [done|].
  intros f. by rewrite Run_remove_irrelevant, Hrun.
Qed.
End Removal.

Lemma Run_removes_created_container_witness :
  Run Fake.docker Fake.install Fake.stateA
    = ((Run Fake.docker Fake.install Fake.stateA).1.1,
       (Run Fake.docker Fake.install Fake.stateA).1.2,
       (Run Fake.docker Fake.install Fake.stateA).2)
  ∧ count is_remove (Run Fake.docker Fake.install Fake.stateA).2 = 1.
Proof.
  split; [reflexivity|].
  destruct (Run_removes_created_container Fake.docker Fake.install Fake.stateA _ _ _ eq_refl)
    as [Hone _].
  refine (proj1 (Hone (newConfig Fake.install) HostConfig_zero "c1" _)).
  vm_compute. apply list_elem_of_here.
Defined.

(** ** C2: relative paths among the files *)

Lemma checkPaths_relative entries :
  (∃ path content, (path, content) ∈ entries ∧ IsAbs path = false) →
  ∃ path content,
    (path, content) ∈ entries ∧ IsAbs path = false
    ∧ checkPaths entries =
        Some (Errorf ("destination path " +:+ path +:+ " should be an absolute unix path")).
Proof.
  induction entries as [|[path content] entries IH]; intros (p & c & Hin & Hrel).
  { by apply elem_of_nil in Hin. }
  cbn [checkPaths]. destruct (IsAbs path) eqn:Habs; cbn [negb].
  - apply elem_of_cons in Hin as [Heq|Hin]; [simplify_eq; congruence|].
    destruct IH as (p' & c' & Hin' & Hrel' & Hcheck); [by eauto|].
    exists p', c'. split; [by apply elem_of_cons; right|done].
  - exists path, content. split; [by apply elem_of_cons; left|done].
Qed.

Lemma checkPaths_absolute entries :
  (∀ path content, (path, content) ∈ entries → IsAbs path = true) →
  checkPaths entries = None.
Proof.
  induction entries as [|[path content] entries IH]; intros Habs; [done|].
  cbn [checkPaths]. rewrite (Habs path content); [|by apply elem_of_cons; left].
  cbn [negb]. apply IH. intros p c Hin. apply (Habs p c), elem_of_cons. by right.
Qed.

(** [generateTar] rejects every mapping with a path that is not absolute,
    naming one such path. *)
Lemma generateTar_relative (files : gmap string string) :
  (∃ path, is_Some (files !! path) ∧ IsAbs path = false) →
  ∃ path,
    is_Some (files !! path) ∧ IsAbs path = false
    ∧ generateTar files =
        Fail (Errorf ("destination path " +:+ path +:+ " should be an absolute unix path")).
Proof.
  intros (path & [content Hlook] & Hrel).
  destruct (checkPaths_relative (range files)) as (p & c & Hin & Hrel' & Hcheck).
  { exists path, content. split; [|done]. by apply elem_of_map_to_list. }
  exists p. split; [|split; [done|]].
  - exists c. by apply elem_of_map_to_list.
  - unfold generateTar. by rewrite Hcheck.
Qed.

(** [generateTar] accepts the mappings whose paths are all absolute, with
    one entry of mode 0644 and of the length of its content for each
    file. *)
Lemma generateTar_absolute (files : gmap string string) :
  (∀ path, is_Some (files !! path) → IsAbs path = true) →
  generateTar files = Ok (writeEntries (range files)).
Proof.
  intros Habs. unfold generateTar. rewrite checkPaths_absolute; [done|].
  intros path content Hin. apply Habs. exists content. by apply elem_of_map_to_list.
Qed.

Lemma stops_at_staging_prefix err pre evs res :
  (∀ cfg hostCfg ID, EvContainerCreate cfg hostCfg (Ok ID) ∉ pre) →
  count after_staging pre = 0 →
  stops_at_staging err evs res → stops_at_staging err (pre ++ evs) res.
Proof.
  intros Hc Hs [Hcount Hcreated]. split; [rewrite count_app; lia|].
  intros cfg hostCfg ID Hin. apply elem_of_app in Hin as [Hin|Hin]; [by apply Hc in Hin|].
  destruct (Hcreated _ _ _ Hin) as (-> & pre' & reply & ->).
  split; [done|]. exists (pre ++ pre'), reply. by rewrite app_assoc.
Qed.

Lemma stops_at_staging_none err evs res :
  (∀ cfg hostCfg ID, EvContainerCreate cfg hostCfg (Ok ID) ∉ evs) →
  count after_staging evs = 0 → stops_at_staging err evs res.
Proof. intros Hc Hs. split; [done|]. intros cfg hostCfg ID Hin. by apply Hc in Hin. Qed.

Lemma stops_at_staging_deferred quote op ID evs res cfg hostCfg reply err :
  generateTar (Files op) = Fail err →
  created_run quote op ID evs res →
  stops_at_staging err
    (EvContainerCreate cfg hostCfg (Ok ID) :: evs ++ [EvContainerRemove ID reply]) res.
Proof.
  intros Htar Hrun. inv Hrun; try congruence.
  match goal with H : generateTar _ = Fail _ |- _ => rewrite Htar in H; inv H end.
  split; [done|].
  intros cfg' hostCfg' ID' Hin. split_elem Hin. simplify_eq.
  split; [done|]. by exists [], reply.
Qed.

Lemma pull_run_stops image evs perr err res :
  pull_run image evs perr → stops_at_staging err evs res.
Proof.
  intros H. destruct (pull_run_events _ _ _ H) as (_ & _ & Hs & _).
  apply stops_at_staging_none; [|done].
  intros cfg hostCfg ID. by eapply pull_run_no_create.
Qed.

Lemma create_run_stops quote op cfg hostCfg evs res err :
  generateTar (Files op) = Fail err →
  create_run quote op cfg hostCfg evs res → stops_at_staging err evs res.
Proof.
  assert (∀ msg cfg' hostCfg' ID,
    EvContainerCreate cfg' hostCfg' (Ok ID)
      ∉ [EvContainerCreate cfg hostCfg (Fail (ErrNotFound msg)); notice op]) as Hpre.
  { intros msg cfg' hostCfg' ID Hin. split_elem Hin. }
  intros Htar Hrun. inv Hrun.
  - apply stops_at_staging_none; [|done]. intros cfg' hostCfg' ID Hin. split_elem Hin.
  - by eapply stops_at_staging_deferred.
  - apply (stops_at_staging_prefix _ [_; _]); [apply Hpre|done|].
    by eapply pull_run_stops.
  - match goal with H : pull_run _ _ _ |- _ =>
      destruct (pull_run_events _ _ _ H) as (_ & _ & Hs & _) end.
    apply (stops_at_staging_prefix _ [_; _]); [apply Hpre|done|].
    apply stops_at_staging_prefix; [intros ???; by eapply pull_run_no_create|done|].
    apply stops_at_staging_none; [|done]. intros cfg' hostCfg' ID Hin. split_elem Hin.
  - match goal with H : pull_run _ _ _ |- _ =>
      destruct (pull_run_events _ _ _ H) as (_ & _ & Hs & _) end.
    apply (stops_at_staging_prefix _ [_; _]); [apply Hpre|done|].
    apply stops_at_staging_prefix; [intros ???; by eapply pull_run_no_create|done|].
    by eapply stops_at_staging_deferred.
Qed.

Lemma exec_run_stops quote d op evs res err :
  generateTar (Files op) = Fail err →
  exec_run quote d op evs res → stops_at_staging err evs res.
Proof.
  intros Htar Hrun. inv Hrun.
  - by eapply pull_run_stops.
  - match goal with H : _ ∨ _ |- _ => destruct H as [[_ H]|[_ ->]] end.
    + by eapply pull_run_stops.
    + apply stops_at_staging_none; [|done].
      intros cfg hostCfg ID Hin. by apply elem_of_nil in Hin.
  - match goal with H : _ ∨ _ |- _ => destruct H as [[_ H]|[_ ->]] end.
    + destruct (pull_run_events _ _ _ H) as (_ & _ & Hs & _).
      apply stops_at_staging_prefix; [intros ???; by eapply pull_run_no_create|done|].
      by eapply create_run_stops.
    + by eapply create_run_stops.
Qed.

Section Staging.
Context {Engine : Type} (docker : Docker Engine).

(** C2, as the code has it.  A files mapping with a path that is not
    absolute makes [generateTar] fail, naming one such path, and
    [generateTar] makes no engine call.  [exec] calls it once the container
    is created: a run with such a mapping makes none of the calls that
    follow the staging (copy, attach, wait, start, copy of the outputs), and
    a run that created a container returns the staging error and removes
    the container right after the creation. *)
Theorem Run_relative_path (op : Operation) (st : State Engine) res st' evs :
  (∃ path, is_Some (Files op !! path) ∧ IsAbs path = false) →
  Run docker op st = (res, st', evs) →
  ∃ path,
    is_Some (Files op !! path) ∧ IsAbs path = false
    ∧ generateTar (Files op) =
        Fail (Errorf ("destination path " +:+ path +:+ " should be an absolute unix path"))
    ∧ count after_staging evs = 0
    ∧ ∀ cfg hostCfg ID, EvContainerCreate cfg hostCfg (Ok ID) ∈ evs →
        res = (OperationResult_zero,
               Some (Errorf ("error staging files: " +:+ "destination path " +:+ path +:+
                             " should be an absolute unix path")))
        ∧ ∃ pre reply,
            evs = pre ++ [EvContainerCreate cfg hostCfg (Ok ID); EvContainerRemove ID reply].
Proof.
  intros Hrel Hrun. destruct (generateTar_relative _ Hrel) as (path & Hin & Habs & Htar).
  exists path. split; [done|]. split; [done|]. split; [done|].
  apply Run_inv in Hrun.
  assert (stops_at_staging
            (Errorf ("destination path " +:+ path +:+ " should be an absolute unix path"))
            evs res) as [Hcount Hcreated]; [|by split].
  destruct (initializeDockerCli docker st).1.1.
  - destruct (Simulate (driver st)); [|by eapply exec_run_stops].
    destruct Hrun as [_ ->]. apply stops_at_staging_none; [|done].
    intros cfg hostCfg ID Hin'. by apply elem_of_nil in Hin'.
  - destruct Hrun as [_ ->]. apply stops_at_staging_none; [|done].
    intros cfg hostCfg ID Hin'. by apply elem_of_nil in Hin'.
Qed.
End Staging.

Lemma Run_relative_path_witness :
  (∃ path, is_Some (Files Fake.relative !! path) ∧ IsAbs path = false)
  ∧ count after_staging (Run Fake.docker Fake.relative Fake.stateA).2 = 0.
Proof.
  assert (∃ path, is_Some (Files Fake.relative !! path) ∧ IsAbs path = false) as Hrel.
  { exists "app/run". split; [|reflexivity]. exists "#!/bin/sh". reflexivity. }
  split; [exact Hrel|].
  destruct (Run_relative_path Fake.docker Fake.relative Fake.stateA _ _ _ Hrel eq_refl)
    as (path & _ & _ & _ & Hcount & _).
  exact Hcount.
Defined.

(** C2 as stated fails: with a relative path among the files and a driver
    that is not in simulate mode, the engine sees a creation, and a
    removal, before [Run] returns the validation error. *)
Lemma Run_relative_path_creates :
  Files Fake.relative !! "app/run" = Some "#!/bin/sh"
  ∧ IsAbs "app/run" = false
  ∧ (Run Fake.docker Fake.relative Fake.stateA).1.1 =
      (OperationResult_zero,
       Some (Errorf "error staging files: destination path app/run should be an absolute unix path"))
  ∧ (Run Fake.docker Fake.relative Fake.stateA).2 =
      [EvContainerCreate (newConfig Fake.relative) HostConfig_zero (Ok "c1");
       EvContainerRemove "c1" None].
Proof. vm_compute. repeat split; reflexivity. Qed.

(** ** Paths under the application root *)

Lemma append_assoc (s1 s2 s3 : string) : (s1 +:+ s2) +:+ s3 = s1 +:+ s2 +:+ s3.
Proof.
  induction s1 as [|c s1 IH]; [done|].
  change (String c ((s1 +:+ s2) +:+ s3) = String c (s1 +:+ s2 +:+ s3)). by f_equal.
Qed.

Lemma append_nil_r (s : string) : s +:+ "" = s.
Proof.
  induction s as [|c s IH]; [done|].
  change (String c (s +:+ "") = String c s). by f_equal.
Qed.

Lemma rev_app_append s1 s2 : String.rev_app s1 s2 = String.rev s1 +:+ s2.
Proof.
  revert s2. induction s1 as [|c s1 IH]; intros s2; [done|].
  unfold String.rev. cbn [String.rev_app]. rewrite (IH (String c "")), IH.
  by rewrite append_assoc.
Qed.

Lemma elements_aux_cons path cur : ∃ e l, elements_aux path cur = e :: l.
Proof.
  revert cur. induction path as [|c path IH]; intros cur; cbn [elements_aux]; [by eauto|].
  destruct (decide (c = slash)); [by eauto|apply IH].
Qed.

Lemma join_slash_cons e e' l :
  join_slash (e :: e' :: l) = e +:+ "/" +:+ join_slash (e' :: l).
Proof. reflexivity. Qed.

(** Joining the elements of a path with slashes gives the path back. *)
Lemma join_elements_aux path cur :
  join_slash (elements_aux path cur) = String.rev cur +:+ path.
Proof.
  revert cur. induction path as [|c path IH]; intros cur; cbn [elements_aux].
  { cbn [join_slash]. by rewrite append_nil_r. }
  destruct (decide (c = slash)) as [->|Hc].
  - destruct (elements_aux_cons path "") as (e & l & Hel).
    specialize (IH ""). rewrite Hel in *. rewrite join_slash_cons, IH. reflexivity.
  - rewrite IH. unfold String.rev at 1. cbn [String.rev_app].
    rewrite rev_app_append, append_assoc. reflexivity.
Qed.

Lemma foldl_clean_step_normal rooted out els :
  forallb normal els = true →
  foldl (clean_step rooted) out els = rev els ++ out.
Proof.
  revert out. induction els as [|e els IH]; intros out Hn; [done|].
  cbn [forallb] in Hn. apply andb_prop in Hn as [He Hn].
  apply bool_decide_eq_true in He as (H1 & H2 & H3).
  cbn [foldl rev]. rewrite IH by done. unfold clean_step.
  rewrite !decide_False by done. by rewrite <- app_assoc.
Qed.

(** For a name made of ordinary elements, [Join] with the application root
    puts [/cnab/app/] in front of the name. *)
Lemma Join_app_root name :
  forallb normal (path_elements name) = true →
  Join "/cnab/app" name = "/cnab/app/" +:+ name.
Proof.
  intros Hn. unfold Join, Clean.
  rewrite decide_False by done.
  change (IsAbs ("/cnab/app" +:+ "/" +:+ name)) with true. cbv iota.
  change (path_elements ("/cnab/app" +:+ "/" +:+ name))
    with ("" :: "cnab" :: "app" :: path_elements name).
  change (foldl (clean_step true) [] ("" :: "cnab" :: "app" :: path_elements name))
    with (foldl (clean_step true) ["app"; "cnab"] (path_elements name)).
  rewrite foldl_clean_step_normal by done.
  rewrite rev_app_distr, rev_involutive. cbn [rev app].
  unfold path_elements in *.
  destruct (elements_aux_cons name "") as (e & l & Hel).
  pose proof (join_elements_aux name "") as Hjoin. rewrite Hel in *.
  rewrite !join_slash_cons, Hjoin. reflexivity.
Qed.

(** ** The outputs archive *)

Lemma tarReader_archive (tarReader : tarReader) :
  ∃ entries last, tarReader = archive entries last.
Proof.
  induction tarReader as [err|header body rest (entries & last & ->)].
  - by exists [], err.
  - by exists ((header, body) :: entries), last.
Qed.

(** The loop stores the entries [collected] lists, in their order. *)
Lemma readOutputs_collected quote tarReader (outputs : gmap string string) :
  (readOutputs quote tarReader outputs).1
  = foldl (λ m kv, <[kv.1 := kv.2]> m) outputs (collected tarReader).
Proof.
  revert outputs. induction tarReader as [err|header body rest IH]; intros outputs.
  - cbn. by destruct (decide (err ≠ io_EOF)).
  - cbn [readOutputs collected]. destruct (IsDir header); [apply IH|].
    destruct body as [contents|err]; [|done]. cbn [foldl]. apply IH.
Qed.

Lemma foldl_insert_flatten (entries : list (string * string)) (outputs : gmap string string) :
  foldl (λ m kv, <[kv.1 := kv.2]> m) outputs entries = flatten entries ∪ outputs.
Proof.
  unfold flatten. revert outputs.
  induction entries as [|[k v] entries IH]; intros outputs.
  { cbn. by rewrite (left_id_L ∅ (∪)). }
  cbn [foldl]. rewrite IH, reverse_cons, list_to_map_app. cbn [list_to_map foldr fst snd].
  rewrite <- (assoc_L (∪)). f_equal.
  rewrite insert_union_singleton_l. f_equal.
Qed.

Lemma readOutputs_flatten quote tarReader :
  (readOutputs quote tarReader ∅).1 = flatten (collected tarReader).
Proof.
  rewrite readOutputs_collected, foldl_insert_flatten. by rewrite (right_id_L ∅ (∪)).
Qed.

Lemma collected_readable entries last :
  forallb readable entries = true →
  collected (archive entries last) = omap stored entries.
Proof.
  induction entries as [|[header body] entries IH]; intros Hr; [done|].
  cbn [forallb] in Hr. apply andb_prop in Hr as [Hr Hrs].
  cbn [archive collected omap list_omap]. unfold stored, readable in *. cbn [fst snd] in *.
  destruct (IsDir header); [by apply IH|].
  destruct body as [contents|err]; [|done]. by rewrite IH.
Qed.

Lemma collected_unreadable pre header err post last :
  forallb readable pre = true → IsDir header = false →
  collected (archive (pre ++ (header, Fail err) :: post) last) = omap stored pre.
Proof.
  intros Hr Hfile. induction pre as [|[h body] pre IH].
  { cbn. by rewrite Hfile. }
  cbn [forallb] in Hr. apply andb_prop in Hr as [Hr Hrs].
  cbn [app archive collected omap list_omap]. unfold stored, readable in *. cbn [fst snd] in *.
  destruct (IsDir h); [by apply IH|].
  destruct body as [contents|err']; [|done]. by rewrite IH.
Qed.

Lemma readOutputs_end quote entries last (outputs : gmap string string) :
  forallb readable entries = true →
  (readOutputs quote (archive entries last) outputs).2
  = if decide (last = io_EOF) then None else Some last.
Proof.
  revert outputs. induction entries as [|[header body] entries IH]; intros outputs Hr.
  { cbn. destruct (decide (last = io_EOF)) as [->|Hne].
    - by rewrite decide_False by (intros H; by apply H).
    - by rewrite decide_True. }
  cbn [forallb] in Hr. apply andb_prop in Hr as [Hr Hrs].
  cbn [archive readOutputs]. unfold readable in Hr. cbn [fst snd] in Hr.
  destruct (IsDir header); [by apply IH|].
  destruct body as [contents|err]; [by apply IH|done].
Qed.

Lemma readOutputs_unreadable quote pre header err post last (outputs : gmap string string) :
  forallb readable pre = true → IsDir header = false →
  (readOutputs quote (archive (pre ++ (header, Fail err) :: post) last) outputs).2
  = Some (Errorf ("error while reading " +:+ quote (Join "/cnab/app" (Name header)) +:+
                  " from outputs tar: " +:+ Error err)).
Proof.
  intros Hr Hfile. revert outputs. induction pre as [|[h body] pre IH]; intros outputs.
  { cbn. by rewrite Hfile. }
  cbn [forallb] in Hr. apply andb_prop in Hr as [Hr Hrs].
  cbn [app archive readOutputs]. unfold readable in Hr. cbn [fst snd] in Hr.
  destruct (IsDir h); [by apply IH|].
  destruct body as [contents|err']; [by apply IH|done].
Qed.

(** An archive is read to its end, or there is a first file that cannot be
    read. *)
Lemma entries_readable_or_not (entries : list entry) :
  forallb readable entries = true
  ∨ ∃ pre header err post,
      entries = pre ++ (header, Fail err) :: post
      ∧ forallb readable pre = true ∧ IsDir header = false.
Proof.
  induction entries as [|[header body] entries IH]; [by left|].
  destruct (readable (header, body)) eqn:Hr.
  - destruct IH as [IH|(pre & h & err & post & -> & Hpre & Hfile)].
    + left. cbn [forallb]. by rewrite Hr, IH.
    + right. exists ((header, body) :: pre), h, err, post.
      split; [done|]. split; [|done]. cbn [forallb]. by rewrite Hr, Hpre.
  - right. unfold readable in Hr. cbn [fst snd] in Hr.
    apply orb_false_elim in Hr as [Hdir Hbody].
    destruct body as [contents|err]; [done|]. by exists [], header, err, entries.
Qed.

(** The paths of the flat map are the paths of the files of the archive,
    directories left out. *)
Lemma flatten_stored_dom (entries : list entry) (path : string) :
  path ∈ dom (flatten (omap stored entries))
  ↔ ∃ header contents,
      (header, Ok contents) ∈ entries ∧ IsDir header = false
      ∧ path = Join "/cnab/app" (Name header).
Proof.
  unfold flatten. rewrite dom_list_to_map_L, elem_of_list_to_set, fmap_reverse,
    elem_of_reverse, list_elem_of_fmap.
  split.
  - intros ([k v] & -> & Hin). apply list_elem_of_omap in Hin as ([header body] & Hin & Hst).
    unfold stored in Hst. cbn [fst snd] in Hst.
    destruct (IsDir header) eqn:Hdir; [done|].
    destruct body as [contents|err]; [|done]. simplify_eq. eauto.
  - intros (header & contents & Hin & Hdir & ->).
    exists (Join "/cnab/app" (Name header), contents). split; [done|].
    apply list_elem_of_omap. exists (header, Ok contents). split; [done|].
    unfold stored. cbn [fst snd]. by rewrite Hdir.
Qed.

(** A file is found under its path with its contents, unless a later file
    of the archive has the same path. *)
Lemma flatten_stored_lookup (l1 l2 : list entry) header contents :
  IsDir header = false →
  (∀ header' contents', (header', Ok contents') ∈ l2 → IsDir header' = false →
     Join "/cnab/app" (Name header') ≠ Join "/cnab/app" (Name header)) →
  flatten (omap stored (l1 ++ (header, Ok contents) :: l2)) !! Join "/cnab/app" (Name header)
  = Some contents.
Proof.
  intros Hdir Hlater. unfold flatten.
  rewrite omap_app. cbn [omap list_omap]. unfold stored at 2. cbn [fst snd]. rewrite Hdir.
  rewrite reverse_app, reverse_cons, <- app_assoc, list_to_map_app.
  apply lookup_union_Some_raw. right. split.
  - apply not_elem_of_list_to_map. rewrite fmap_reverse, elem_of_reverse, list_elem_of_fmap.
    intros ([k v] & Hk & Hin). cbn [fst] in Hk.
    apply list_elem_of_omap in Hin as ([header' body] & Hin & Hst).
    unfold stored in Hst. cbn [fst snd] in Hst.
    destruct (IsDir header') eqn:Hdir'; [done|].
    destruct body as [contents'|err]; [|done].
    apply (inj Some), pair_equal_spec in Hst as [Hst _].
    eapply Hlater; [done..|]. by rewrite Hst.
  - cbn [app]. rewrite list_to_map_cons. apply lookup_insert_eq.
Qed.

Lemma fetched_readable quote entries last :
  forallb readable entries = true →
  fetched quote (Ok (archive entries last))
  = ({| Outputs := Some (flatten (omap stored entries)) |},
     if decide (last = io_EOF) then None else Some last).
Proof.
  intros Hr. unfold fetched.
  by rewrite readOutputs_flatten, collected_readable, readOutputs_end.
Qed.

Lemma fetched_unreadable quote pre header err post last :
  forallb readable pre = true → IsDir header = false →
  fetched quote (Ok (archive (pre ++ (header, Fail err) :: post) last))
  = ({| Outputs := Some (flatten (omap stored pre)) |},
     Some (Errorf ("error while reading " +:+ quote (Join "/cnab/app" (Name header)) +:+
                   " from outputs tar: " +:+ Error err))).
Proof.
  intros Hr Hfile. unfold fetched.
  by rewrite readOutputs_flatten, collected_unreadable, readOutputs_unreadable.
Qed.

Lemma fetched_partial_outputs quote reply :
  partial_outputs reply (fetched quote reply).1.
Proof.
  destruct reply as [ioReader|err]; [|done].
  intros entries last ->. split.
  - intros Hr. by rewrite fetched_readable.
  - intros pre header err post -> Hr Hfile. by rewrite fetched_unreadable.
Qed.

(** ** C7: what [fetchOutputs] collects *)

Section Outputs.
Context {Engine : Type} (docker : Docker Engine).

(** C7. Let [CopyFromContainer] hand over an archive with the entries
    [entries], after which [Next] returns [last].  When every file of the
    archive can be read, [fetchOutputs] returns the flat map of its files
    and a nil error if [last] is [io_EOF], the error [last] otherwise.  When
    a file cannot be read, it returns the flat map of the files before it
    and an error that names the file.  The flat map has exactly one path for
    each file entry, none for a directory; the path is [Join] of
    [/cnab/app] and the entry name, which is the name put under
    [/cnab/app/] when the name is made of ordinary elements; the value is
    the contents of the entry, of the last one when several files have the
    same path. *)
Theorem fetchOutputs_archive (st : State Engine) (container : string)
    (entries : list entry) (last : error) (e : Engine) :
  CopyFromContainer docker container "/cnab/app/outputs" (engine st)
    = (Ok (archive entries last), e) →
  (forallb readable entries = true →
     (fetchOutputs docker container st).1.1
     = ({| Outputs := Some (flatten (omap stored entries)) |},
        if decide (last = io_EOF) then None else Some last))
  ∧ (∀ pre header err post,
       entries = pre ++ (header, Fail err) :: post →
       forallb readable pre = true → IsDir header = false →
       (fetchOutputs docker container st).1.1
       = ({| Outputs := Some (flatten (omap stored pre)) |},
          Some (Errorf ("error while reading " +:+
                        Quote docker (Join "/cnab/app" (Name header)) +:+
                        " from outputs tar: " +:+ Error err))))
  ∧ (forallb readable entries = true
     ∨ ∃ pre header err post,
         entries = pre ++ (header, Fail err) :: post
         ∧ forallb readable pre = true ∧ IsDir header = false)
  ∧ (∀ (l : list entry) path,
       path ∈ dom (flatten (omap stored l))
       ↔ ∃ header contents,
           (header, Ok contents) ∈ l ∧ IsDir header = false
           ∧ path = Join "/cnab/app" (Name header))
  ∧ (∀ (l1 l2 : list entry) header contents,
       IsDir header = false →
       (∀ header' contents', (header', Ok contents') ∈ l2 → IsDir header' = false →
          Join "/cnab/app" (Name header') ≠ Join "/cnab/app" (Name header)) →
       flatten (omap stored (l1 ++ (header, Ok contents) :: l2))
         !! Join "/cnab/app" (Name header) = Some contents)
  ∧ (∀ name, forallb normal (path_elements name) = true →
       Join "/cnab/app" name = "/cnab/app/" +:+ name).
Proof.
  intros Hcopy.
  assert ((fetchOutputs docker container st).1.1
          = fetched (Quote docker) (Ok (archive entries last))) as ->.
  { unfold fetchOutputs, call, mbind, M_bind, mret, M_ret. rewrite Hcopy. unfold fetched.
    by destruct (readOutputs _ _ _). }
  split; [apply fetched_readable|].
  split; [by intros pre header err post ->; apply fetched_unreadable|].
  split; [apply entries_readable_or_not|].
  split; [apply flatten_stored_dom|].
  split; [apply flatten_stored_lookup|apply Join_app_root].
Qed.
End Outputs.

Lemma fetchOutputs_archive_witness :
  CopyFromContainer Fake.docker "c1" "/cnab/app/outputs" (engine Fake.stateC)
    = (Ok (archive Fake.truncated io_EOF), Fake.scenarioC)
  ∧ (fetchOutputs Fake.docker "c1" Fake.stateC).1.1
    = ({| Outputs := Some {[ "/cnab/app/outputs/install.log" := "done" ]} |},
       Some (Errorf ("error while reading " +:+
                     Quote Fake.docker "/cnab/app/outputs/state.json" +:+
                     " from outputs tar: unexpected EOF"))).
Proof.
  split; [reflexivity|].
  refine (proj1 (proj2 (fetchOutputs_archive Fake.docker Fake.stateC "c1" Fake.truncated
                          io_EOF Fake.scenarioC eq_refl))
            [ ({| Name := "outputs/"; IsDir := true |}, Ok "");
              ({| Name := "outputs/install.log"; IsDir := false |}, Ok "done") ]
            {| Name := "outputs/state.json"; IsDir := false |} (Err "unexpected EOF") []
            eq_refl eq_refl eq_refl).
Defined.

(** ** Substrings and decimal numbers *)

Lemma prefix_append (s1 s2 : string) : String.prefix s1 (s1 +:+ s2) = true.
Proof.
  induction s1 as [|c s1 IH]; [by destruct s2|].
  change (String c s1 +:+ s2) with (String c (s1 +:+ s2)). cbn [String.prefix].
  by destruct (ascii_dec c c).
Qed.

Lemma Contains_append (s1 s2 s3 : string) : Contains (s1 +:+ s2 +:+ s3) s2 = true.
Proof.
  induction s1 as [|c s1 IH].
  - change ("" +:+ s2 +:+ s3) with (s2 +:+ s3).
    destruct (s2 +:+ s3) eqn:Heq; cbn [Contains]; rewrite <- Heq, prefix_append; done.
  - change (String c s1 +:+ s2 +:+ s3) with (String c (s1 +:+ s2 +:+ s3)).
    cbn [Contains]. rewrite IH. apply orb_true_r.
Qed.

Lemma Contains_suffix (s1 s2 : string) : Contains (s1 +:+ s2) s2 = true.
Proof. rewrite <- (append_nil_r s2) at 1. apply Contains_append. Qed.

Lemma prefix_occurs c sub s : String.prefix (String c sub) s = true → occurs c s = true.
Proof.
  destruct s as [|c' s]; [done|]. cbn [String.prefix occurs].
  destruct (ascii_dec c c') as [->|]; [|done]. intros _.
  by rewrite bool_decide_eq_true_2.
Qed.

(** A string that contains [String c sub] has the character [c]. *)
Lemma Contains_occurs c sub s : Contains s (String c sub) = true → occurs c s = true.
Proof.
  induction s as [|c' s IH]; cbn [Contains].
  - rewrite orb_false_r. apply prefix_occurs.
  - intros [Hp|Hc]%orb_prop; [by eapply prefix_occurs|].
    cbn [occurs]. rewrite IH by done. apply orb_true_r.
Qed.

Lemma occurs_append c (s1 s2 : string) : occurs c (s1 +:+ s2) = occurs c s1 || occurs c s2.
Proof.
  induction s1 as [|c' s1 IH]; [done|].
  change (String c' s1 +:+ s2) with (String c' (s1 +:+ s2)). cbn [occurs].
  by rewrite IH, orb_assoc.
Qed.

(** A decimal number has no comma. *)
Lemma itoa_no_comma (n : Z) : occurs ","%char (itoa n) = false.
Proof.
  assert (∀ d, occurs ","%char (NilEmpty.string_of_uint d) = false) as Huint.
  { induction d; cbn [NilEmpty.string_of_uint occurs]; [done|by rewrite IHd..]. }
  assert (∀ d, occurs ","%char (NilZero.string_of_uint d) = false) as Huint'.
  { intros d. unfold NilZero.string_of_uint. destruct d; try done; apply Huint. }
  unfold itoa, NilZero.string_of_int.
  destruct (Z.to_int n); [apply Huint'|]. cbn [occurs]. by rewrite Huint'.
Qed.

(** The text of a bare exit status has no message part. *)
Lemma exit_code_no_message (n : Z) :
  Contains ("container exit code: " +:+ itoa n) ", message: " = false.
Proof.
  destruct (Contains _ _) eqn:Hc; [|done].
  apply Contains_occurs in Hc. rewrite occurs_append, itoa_no_comma in Hc. done.
Qed.

(** ** The events between creation and removal *)

Lemma created_run_staged quote op ID evs res :
  created_run quote op ID evs res → List.filter after_staging evs = evs.
Proof. intros H; by inv H. Qed.

Lemma pull_run_staged image evs err :
  pull_run image evs err → List.filter after_staging evs = [].
Proof. intros H; by inv H. Qed.

Lemma create_run_staged quote op cfg hostCfg evs res :
  create_run quote op cfg hostCfg evs res →
  List.filter after_staging evs = []
  ∨ ∃ ID, created_run quote op ID (List.filter after_staging evs) res.
Proof.
  intros Hrun. inv Hrun;
    repeat (progress (rewrite ?List.filter_app; cbn [List.filter after_staging notice]));
    repeat match goal with
      | H : pull_run _ _ _ |- _ => rewrite (pull_run_staged _ _ _ H); clear H
      | H : created_run _ _ _ ?evs _ |- _ =>
          rewrite (created_run_staged _ _ _ _ _ H), ?app_nil_r
      end;
    cbn [app]; eauto.
Qed.

Lemma exec_run_staged quote d op evs res :
  exec_run quote d op evs res →
  List.filter after_staging evs = []
  ∨ ∃ ID, created_run quote op ID (List.filter after_staging evs) res.
Proof.
  intros Hrun. inv Hrun.
  - left. by eapply pull_run_staged.
  - match goal with H : _ ∨ _ |- _ => destruct H as [[_ H]|[_ ->]] end; [|by left].
    left. by eapply pull_run_staged.
  - rewrite List.filter_app.
    match goal with H : _ ∨ _ |- _ => destruct H as [[_ H]|[_ ->]] end.
    + rewrite (pull_run_staged _ _ _ H). by eapply create_run_staged.
    + by eapply create_run_staged.
Qed.

Lemma elem_of_staged ev evs :
  ev ∈ evs → after_staging ev = true → ev ∈ List.filter after_staging evs.
Proof. intros Hin Hs. apply list_elem_of_In, filter_In. by rewrite <- list_elem_of_In. Qed.

Lemma elem_of_staged_inv ev evs : ev ∈ List.filter after_staging evs → ev ∈ evs.
Proof. intros Hin. apply list_elem_of_In, filter_In in Hin as [Hin _]. by apply list_elem_of_In. Qed.

Section Exit.
Context {Engine : Type} (docker : Docker Engine).

(** A run that records one of the events that follow the staging is a run
    with a created container, and these events are the events of
    [execCreated]. *)
Lemma Run_created_run (op : Operation) (st : State Engine) res st' evs ev :
  Run docker op st = (res, st', evs) →
  ev ∈ evs → after_staging ev = true →
  ∃ ID, created_run (Quote docker) op ID (List.filter after_staging evs) res.
Proof.
  intros Hrun Hin Hs. apply Run_inv in Hrun.
  pose proof (elem_of_staged _ _ Hin Hs) as Hin'.
  assert (exec_run (Quote docker) (driver st) op evs res) as Hexec.
  { destruct (initializeDockerCli docker st).1.1.
    - destruct (Simulate (driver st)); [|done].
      destruct Hrun as [_ ->]. by apply elem_of_nil in Hin.
    - destruct Hrun as [_ ->]. by apply elem_of_nil in Hin. }
  destruct (exec_run_staged _ _ _ _ _ Hexec) as [Hnil|Hcreated]; [|done].
  rewrite Hnil in Hin'. by apply elem_of_nil in Hin'.
Qed.
End Exit.

Lemma created_run_received quote op ID evs res w :
  created_run quote op ID evs res → EvReceived w ∈ evs →
  ∃ reply,
    EvCopyFromContainer ID "/cnab/app/outputs" reply ∈ evs
    ∧ (∀ ID' path' reply', EvCopyFromContainer ID' path' reply' ∈ evs → reply' = reply)
    ∧ exits w (fetched quote reply) res.
Proof.
  intros Hrun Hin. inv Hrun; split_elem Hin; simplify_eq;
    (eexists; split; [by repeat constructor|]; split;
     [by intros ID' path' reply' Hin'; split_elem Hin'; simplify_eq|]);
    split; try done; cbn [snd]; by rewrite ?decide_True, ?decide_False by done.
Qed.

Section Exits.
Context {Engine : Type} (docker : Docker Engine).

(** Every run in which the [select] receives a value goes on to copy the
    outputs, once, and returns as [exits] says. *)
Lemma Run_received (op : Operation) (st : State Engine) res st' evs w :
  Run docker op st = (res, st', evs) →
  EvReceived w ∈ evs →
  ∃ ID reply,
    EvCopyFromContainer ID "/cnab/app/outputs" reply ∈ evs
    ∧ (∀ ID' path' reply', EvCopyFromContainer ID' path' reply' ∈ evs → reply' = reply)
    ∧ exits w (fetched (Quote docker) reply) res.
Proof.
  intros Hrun Hin.
  destruct (Run_created_run docker _ _ _ _ _ _ Hrun Hin eq_refl) as [ID Hcreated].
  destruct (created_run_received _ _ _ _ _ w Hcreated) as (reply & Hcopy & Huniq & Hexits).
  { by apply elem_of_staged. }
  exists ID, reply. split; [by eapply elem_of_staged_inv|]. split; [|done].
  intros ID' path' reply' Hin'. eapply Huniq. by apply elem_of_staged.
Qed.

(** C10. Once the [select] has received a value, [Run] copies the outputs
    and returns what was collected, partial or not.  The error of the copy
    or of the reading is returned for the exit status 0 only.  For a
    non-zero status the error is made from the status and the message of the
    engine alone, for an error of the wait from that error alone, and it is
    nil when the error channel delivers nil: in these three cases the error
    of [fetchOutputs] is dropped. *)
Theorem Run_discards_fetch_error (op : Operation) (st : State Engine) res st' evs w :
  Run docker op st = (res, st', evs) →
  EvReceived w ∈ evs →
  ∃ ID reply,
    EvCopyFromContainer ID "/cnab/app/outputs" reply ∈ evs
    ∧ res.1 = (fetched (Quote docker) reply).1
    ∧ partial_outputs reply res.1
    ∧ match w with
      | FromStatusc StatusCode WaitError =>
          if decide (StatusCode = 0%Z) then res.2 = (fetched (Quote docker) reply).2
          else match WaitError with
               | Some Message =>
                   res.2 = Some (Errorf ("container exit code: " +:+ itoa StatusCode +:+
                                         ", message: " +:+ Message))
               | None =>
                   res.2 = Some (Errorf ("container exit code: " +:+ itoa StatusCode))
               end
      | FromErrc (Some err) => res.2 = Some (Errorf ("error in container: " +:+ Error err))
      | FromErrc None => res.2 = None
      end.
Proof.
  intros Hrun Hin.
  destruct (Run_received _ _ _ _ _ _ Hrun Hin) as (ID & reply & Hcopy & _ & Hres & Herr).
  exists ID, reply. split; [done|]. split; [done|]. split.
  { rewrite Hres. apply fetched_partial_outputs. }
  destruct w as [[err|]|StatusCode WaitError]; done.
Qed.

(** C3. When the [select] receives a non-zero exit status, [Run] returns an
    error whose text is [container exit code: ] followed by the status in
    decimal, and then by [, message: ] and the message of the engine when
    there is one; without a message the text stops after the number.  The
    outputs returned are those of the archive that was copied out: all its
    files when they are all read, the files before the first one that
    cannot be read otherwise, none when the copy itself fails. *)
Theorem Run_nonzero_exit (op : Operation) (st : State Engine) res st' evs
    (StatusCode : Z) (WaitError : option string) :
  Run docker op st = (res, st', evs) →
  EvReceived (FromStatusc StatusCode WaitError) ∈ evs →
  StatusCode ≠ 0%Z →
  ∃ err,
    res.2 = Some err
    ∧ Contains (Error err) (itoa StatusCode) = true
    ∧ match WaitError with
      | Some Message =>
          Error err = "container exit code: " +:+ itoa StatusCode +:+ ", message: " +:+ Message
          ∧ Contains (Error err) Message = true
      | None =>
          Error err = "container exit code: " +:+ itoa StatusCode
          ∧ Contains (Error err) ", message: " = false
      end
    ∧ ∃ ID reply,
        EvCopyFromContainer ID "/cnab/app/outputs" reply ∈ evs
        ∧ partial_outputs reply res.1.
Proof.
  intros Hrun Hin Hne.
  destruct (Run_received _ _ _ _ _ _ Hrun Hin) as (ID & reply & Hcopy & _ & Hres & Herr).
  rewrite decide_False in Herr by done.
  assert (partial_outputs reply res.1) as Hpartial
    by (rewrite Hres; apply fetched_partial_outputs).
  destruct WaitError as [Message|]; eexists; (split; [exact Herr|]); cbn [Error Errorf].
  - split; [apply Contains_append|]. split; [|by eauto].
    split; [done|]. rewrite <- !append_assoc. apply Contains_suffix.
  - split; [apply Contains_suffix|]. split; [|by eauto].
    split; [done|]. apply exit_code_no_message.
Qed.

(** C4, as the code has it.  When the [select] receives the exit status 0,
    [Run] returns what [fetchOutputs] returns, its error included.  The
    error is nil when the archive is copied out and read to its regular
    end; the outputs are then the files of the archive, directories left
    out, each under [Join] of [/cnab/app] and its name, which is the path
    [/cnab/app/] followed by the name when the name is made of ordinary
    elements.  When the copy fails, a file cannot be read or the archive
    ends on another error, [Run] returns that error with the outputs
    collected so far. *)
Theorem Run_zero_exit (op : Operation) (st : State Engine) res st' evs
    (WaitError : option string) :
  Run docker op st = (res, st', evs) →
  EvReceived (FromStatusc 0 WaitError) ∈ evs →
  ∃ ID reply,
    EvCopyFromContainer ID "/cnab/app/outputs" reply ∈ evs
    ∧ match reply with
      | Fail err =>
          res = ({| Outputs := Some ∅ |},
                 Some (Errorf ("error copying outputs from container: " +:+ Error err)))
      | Ok ioReader =>
          ∀ entries last, ioReader = archive entries last →
            (forallb readable entries = true →
               res = ({| Outputs := Some (flatten (omap stored entries)) |},
                      if decide (last = io_EOF) then None else Some last)
               ∧ ∀ path,
                   path ∈ dom (flatten (omap stored entries))
                   ↔ ∃ header contents,
                       (header, Ok contents) ∈ entries ∧ IsDir header = false
                       ∧ path = Join "/cnab/app" (Name header))
            ∧ (∀ pre header err post,
                 entries = pre ++ (header, Fail err) :: post →
                 forallb readable pre = true → IsDir header = false →
                 res = ({| Outputs := Some (flatten (omap stored pre)) |},
                        Some (Errorf ("error while reading " +:+
                                      Quote docker (Join "/cnab/app" (Name header)) +:+
                                      " from outputs tar: " +:+ Error err))))
      end
    ∧ (∀ name, forallb normal (path_elements name) = true →
         Join "/cnab/app" name = "/cnab/app/" +:+ name).
Proof.
  intros Hrun Hin.
  destruct (Run_received _ _ _ _ _ _ Hrun Hin) as (ID & reply & Hcopy & _ & Hres & Herr).
  rewrite decide_True in Herr by done.
  assert (res = fetched (Quote docker) reply) as ->.
  { destruct res, (fetched (Quote docker) reply). cbn [fst snd] in *. congruence. }
  exists ID, reply. split; [done|]. split; [|apply Join_app_root].
  destruct reply as [ioReader|err]; [|done].
  intros entries last ->. split.
  - intros Hr. split; [by apply fetched_readable|]. apply flatten_stored_dom.
  - intros pre header err post -> Hr Hfile. by apply fetched_unreadable.
Qed.
End Exits.

Lemma Run_discards_fetch_error_witness :
  Run Fake.docker Fake.install Fake.stateC
    = ((Run Fake.docker Fake.install Fake.stateC).1.1,
       (Run Fake.docker Fake.install Fake.stateC).1.2,
       (Run Fake.docker Fake.install Fake.stateC).2)
  ∧ EvReceived (FromStatusc 137 None) ∈ (Run Fake.docker Fake.install Fake.stateC).2
  ∧ ∃ ID reply,
      EvCopyFromContainer ID "/cnab/app/outputs" reply
        ∈ (Run Fake.docker Fake.install Fake.stateC).2
      ∧ (Run Fake.docker Fake.install Fake.stateC).1.1.2
        = Some (Errorf ("container exit code: " +:+ itoa 137)).
Proof.
  assert (EvReceived (FromStatusc 137 None) ∈ (Run Fake.docker Fake.install Fake.stateC).2)
    as Hin by (vm_compute; repeat constructor).
  split; [reflexivity|]. split; [exact Hin|].
  destruct (Run_discards_fetch_error Fake.docker Fake.install Fake.stateC _ _ _ _ eq_refl Hin)
    as (ID & reply & Hcopy & _ & _ & Herr).
  exists ID, reply. split; [exact Hcopy|exact Herr].
Defined.

Lemma Run_nonzero_exit_witness :
  Run Fake.docker Fake.install Fake.stateC
    = ((Run Fake.docker Fake.install Fake.stateC).1.1,
       (Run Fake.docker Fake.install Fake.stateC).1.2,
       (Run Fake.docker Fake.install Fake.stateC).2)
  ∧ EvReceived (FromStatusc 137 None) ∈ (Run Fake.docker Fake.install Fake.stateC).2
  ∧ (137 ≠ 0)%Z
  ∧ ∃ err,
      (Run Fake.docker Fake.install Fake.stateC).1.1.2 = Some err
      ∧ Contains (Error err) (itoa 137) = true.
Proof.
  assert (EvReceived (FromStatusc 137 None) ∈ (Run Fake.docker Fake.install Fake.stateC).2)
    as Hin by (vm_compute; repeat constructor).
  assert (137 ≠ 0)%Z as Hne by lia.
  split; [reflexivity|]. split; [exact Hin|]. split; [exact Hne|].
  destruct (Run_nonzero_exit Fake.docker Fake.install Fake.stateC _ _ _ 137%Z None
              eq_refl Hin Hne) as (err & Herr & Hcontains & _).
  exists err. split; [exact Herr|exact Hcontains].
Defined.

Lemma Run_zero_exit_witness :
  Run Fake.docker Fake.install Fake.stateA
    = ((Run Fake.docker Fake.install Fake.stateA).1.1,
       (Run Fake.docker Fake.install Fake.stateA).1.2,
       (Run Fake.docker Fake.install Fake.stateA).2)
  ∧ EvReceived (FromStatusc 0 None) ∈ (Run Fake.docker Fake.install Fake.stateA).2
  ∧ ∃ ID reply,
      EvCopyFromContainer ID "/cnab/app/outputs" reply
        ∈ (Run Fake.docker Fake.install Fake.stateA).2.
Proof.
  assert (EvReceived (FromStatusc 0 None) ∈ (Run Fake.docker Fake.install Fake.stateA).2)
    as Hin by (vm_compute; repeat constructor).
  split; [reflexivity|]. split; [exact Hin|].
  destruct (Run_zero_exit Fake.docker Fake.install Fake.stateA _ _ _ None eq_refl Hin)
    as (ID & reply & Hcopy & _).
  exists ID, reply. exact Hcopy.
Defined.

(** C4 as stated fails: the container exits with status 0, the outputs
    cannot be copied out, and [Run] returns an error. *)
Lemma Run_zero_exit_with_error :
  (Run Fake.docker Fake.install {| driver := Fake.driver0; engine := Fake.noOutputs |}).1.1
  = ({| Outputs := Some ∅ |},
     Some (Errorf "error copying outputs from container: Could not find the file /cnab/app/outputs in container c1"))
  ∧ EvReceived (FromStatusc 0 None)
      ∈ (Run Fake.docker Fake.install {| driver := Fake.driver0; engine := Fake.noOutputs |}).2.
Proof. split; [reflexivity|]. vm_compute. repeat constructor. Qed.

(** ** C5: creation with the pull of a missing image *)

Lemma first_create_unique (l1 l2 r1 r2 : list event) (c1 c2 : event) :
  l1 ++ c1 :: r1 = l2 ++ c2 :: r2 →
  count is_create l1 = 0 → count is_create l2 = 0 →
  is_create c1 = true → is_create c2 = true →
  l1 = l2 ∧ c1 = c2 ∧ r1 = r2.
Proof.
  revert l2. induction l1 as [|x l1 IH]; intros [|y l2] Heq H1 H2 Hc1 Hc2;
    cbn [app] in Heq; inv Heq.
  - done.
  - rewrite count_cons, Hc1 in H2. lia.
  - rewrite count_cons, Hc2 in H1. lia.
  - rewrite count_cons in H1, H2.
    match goal with H : l1 ++ _ = _ |- _ =>
      destruct (IH _ H) as (-> & -> & ->); [lia|lia|done..|done] end.
Qed.

Lemma create_run_head quote op cfg hostCfg evs res :
  create_run quote op cfg hostCfg evs res →
  ∃ reply rest, evs = EvContainerCreate cfg hostCfg reply :: rest.
Proof. intros H; inv H; eauto. Qed.

(** After a first creation that failed, as [exec] goes on. *)
Lemma create_run_fallback quote op cfg hostCfg err post res :
  create_run quote op cfg hostCfg (EvContainerCreate cfg hostCfg (Fail err) :: post) res →
  if IsErrNotFound (Some err) then
    ∃ pevs perr rest,
      post = notice op :: pevs ++ rest ∧ pull_run (Image op) pevs perr
      ∧ match perr with
        | Some e => rest = [] ∧ res = (OperationResult_zero, Some e)
        | None =>
            ∃ reply rest',
              rest = EvContainerCreate cfg hostCfg reply :: rest'
              ∧ count is_create rest' = 0 ∧ count is_pull rest' = 0
              ∧ match reply with
                | Fail e =>
                    rest' = []
                    ∧ res = (OperationResult_zero,
                             Some (Errorf ("cannot create container: " +:+ Error e)))
                | Ok ID => True
                end
        end
  else
    post = []
    ∧ res = (OperationResult_zero, Some (Errorf ("cannot create container: " +:+ Error err))).
Proof.
  intros Hrun. inv Hrun.
  - match goal with H : IsErrNotFound _ = false |- _ => rewrite H end. done.
  - cbn [IsErrNotFound].
    match goal with H : pull_run _ ?pevs ?perr |- _ => exists pevs, perr, [] end.
    by rewrite app_nil_r.
  - cbn [IsErrNotFound].
    match goal with H : pull_run _ ?pevs _ |- _ => eexists pevs, None, _ end.
    split; [done|]. split; [done|]. by eexists _, [].
  - cbn [IsErrNotFound].
    match goal with H : pull_run _ ?pevs _ |- _ => eexists pevs, None, _ end.
    split; [done|]. split; [done|].
    match goal with H : created_run _ _ _ _ _ |- _ =>
      destruct (created_run_events _ _ _ _ _ H) as (Hc & _ & Hp) end.
    eexists _, _. split; [done|]. rewrite !count_app, Hc, Hp. done.
Qed.

Section Fallback.
Context {Engine : Type} (docker : Docker Engine).

(** The runs of [Run] that record an event. *)
Lemma Run_exec_run (op : Operation) (st : State Engine) res st' evs :
  Run docker op st = (res, st', evs) → evs ≠ [] →
  exec_run (Quote docker) (driver st) op evs res.
Proof.
  intros Hrun Hne. apply Run_inv in Hrun.
  destruct (initializeDockerCli docker st).1.1.
  - destruct (Simulate (driver st)); [|done]. by destruct Hrun as [_ ->].
  - by destruct Hrun as [_ ->].
Qed.

(** C5, as the code has it.  Let the first creation of a run fail.  When
    the error is a not-found error, [exec] writes its notice and calls
    [pullImage], which makes at most one [ImagePull] call; when the pull
    fails, its error is returned and the creation is not retried; when it
    succeeds, the creation is retried once, with the same specification,
    and neither a creation nor a pull follows; when the retry fails, [Run]
    returns [cannot create container: ] followed by its error.  When the
    first error is any other error, nothing follows and [Run] returns
    [cannot create container: ] followed by that error. *)
Theorem Run_create_fallback (op : Operation) (st : State Engine) res st' evs
    pre cfg hostCfg err post :
  Run docker op st = (res, st', evs) →
  evs = pre ++ EvContainerCreate cfg hostCfg (Fail err) :: post →
  count is_create pre = 0 →
  if IsErrNotFound (Some err) then
    ∃ pevs perr rest,
      post = notice op :: pevs ++ rest ∧ pull_run (Image op) pevs perr
      ∧ match perr with
        | Some e => rest = [] ∧ res = (OperationResult_zero, Some e)
        | None =>
            ∃ reply rest',
              rest = EvContainerCreate cfg hostCfg reply :: rest'
              ∧ count is_create rest' = 0 ∧ count is_pull rest' = 0
              ∧ match reply with
                | Fail e =>
                    rest' = []
                    ∧ res = (OperationResult_zero,
                             Some (Errorf ("cannot create container: " +:+ Error e)))
                | Ok ID => True
                end
        end
  else
    post = []
    ∧ res = (OperationResult_zero, Some (Errorf ("cannot create container: " +:+ Error err))).
Proof.
  intros Hrun -> Hpre.
  assert (∀ pevs perr, pull_run (Image op) pevs perr →
            pre ++ EvContainerCreate cfg hostCfg (Fail err) :: post ≠ pevs) as Hpull.
  { intros pevs perr Hp Heq.
    apply (pull_run_no_create _ _ _ cfg hostCfg (Fail err) Hp).
    rewrite <- Heq. apply elem_of_app. right. apply list_elem_of_here. }
  apply Run_exec_run in Hrun; [|by destruct pre].
  inv Hrun.
  - match goal with H : pull_run _ _ _ |- _ => by eapply Hpull in H end.
  - match goal with H : _ ∨ _ |- _ => destruct H as [[_ H]|[_ H]] end.
    + by eapply Hpull in H.
    + by destruct pre.
  - match goal with
    | Hor : _ ∨ _, Hc : create_run _ _ _ _ ?evs' _, Heq : ?pevs ++ ?evs' = _ |- _ =>
        assert (count is_create pevs = 0) as Hpevs
          by (destruct Hor as [[_ Hp]|[_ ->]];
              [by destruct (pull_run_events _ _ _ Hp) as (? & _)|done]);
        pose proof Hc as Hcreate;
        apply create_run_head in Hc as (reply & rest & ->);
        symmetry in Heq;
        apply first_create_unique in Heq as (<- & Heq & <-); [|done..];
        inv Heq
    end.
    by apply create_run_fallback in Hcreate.
Qed.
End Fallback.

Lemma Run_create_fallback_witness :
  Run Fake.docker Fake.install Fake.stateB
    = ((Run Fake.docker Fake.install Fake.stateB).1.1,
       (Run Fake.docker Fake.install Fake.stateB).1.2,
       (Run Fake.docker Fake.install Fake.stateB).2)
  ∧ (Run Fake.docker Fake.install Fake.stateB).2
    = [] ++ EvContainerCreate (newConfig Fake.install) HostConfig_zero
              (Fail (ErrNotFound "No such image: example/install:v1"))
            :: tail (Run Fake.docker Fake.install Fake.stateB).2
  ∧ count is_create [] = 0
  ∧ ∃ pevs perr rest,
      tail (Run Fake.docker Fake.install Fake.stateB).2 = notice Fake.install :: pevs ++ rest
      ∧ pull_run (Image Fake.install) pevs perr.
Proof.
  split; [reflexivity|]. split; [reflexivity|]. split; [reflexivity|].
  destruct (Run_create_fallback Fake.docker Fake.install Fake.stateB _ _ _
              [] (newConfig Fake.install) HostConfig_zero
              (ErrNotFound "No such image: example/install:v1")
              (tail (Run Fake.docker Fake.install Fake.stateB).2)
              eq_refl eq_refl eq_refl)
    as (pevs & perr & rest & Hpost & Hpull & _).
  exists pevs, perr, rest. split; [exact Hpost|exact Hpull].
Defined.

(** C5 as stated fails.  When the pull after a not-found error is refused,
    the creation is not retried: the engine sees one creation, although a
    second one would have succeeded.  And with [PULL_ALWAYS] set, a run
    whose first creation fails with a not-found error pulls twice. *)
Lemma Run_pull_refused_no_retry :
  (Run Fake.docker Fake.install {| driver := Fake.driver0; engine := Fake.refused |}).1.1
  = (OperationResult_zero, Some (Err "pull access denied"))
  ∧ (Run Fake.docker Fake.install {| driver := Fake.driver0; engine := Fake.refused |}).2
    = [EvContainerCreate (newConfig Fake.install) HostConfig_zero
         (Fail (ErrNotFound "No such image: example/install:v1"));
       notice Fake.install;
       EvImagePull "example/install:v1" "" (Fail (Err "pull access denied"))]
  ∧ count is_create
      (Run Fake.docker Fake.install {| driver := Fake.driver0; engine := Fake.refused |}).2 = 1
  ∧ count is_pull
      (Run Fake.docker Fake.install
         {| driver := Fake.alwaysPull; engine := Fake.pulledTwice |}).2 = 2.
Proof. repeat split; reflexivity. Qed.

(** ** C8: the container specification and the options *)

(** The options of a list are applied from its head on; those of a second
    list see what the first list has produced, and are not applied when an
    option of the first list fails. *)
Lemma applyOptions_app (opts opts' : list ConfigurationOption) cfg hostCfg :
  applyOptions (opts ++ opts') cfg hostCfg
  = match applyOptions opts cfg hostCfg with
    | Ok (cfg', hostCfg') => applyOptions opts' cfg' hostCfg'
    | Fail err => Fail err
    end.
Proof.
  revert cfg hostCfg. induction opts as [|opt opts IH]; intros cfg hostCfg; [done|].
  cbn [app applyOptions]. destruct (opt cfg hostCfg) as [[cfg' hostCfg'] [err|]]; [done|].
  apply IH.
Qed.

Lemma applyOptions_first_error (opts : list ConfigurationOption) (opt : ConfigurationOption)
    (opts' : list ConfigurationOption) cfg hostCfg cfg' hostCfg' cfg'' hostCfg'' err :
  applyOptions opts cfg hostCfg = Ok (cfg', hostCfg') →
  opt cfg' hostCfg' = (cfg'', hostCfg'', Some err) →
  applyOptions (opts ++ opt :: opts') cfg hostCfg = Fail err.
Proof.
  intros Hopts Hopt. rewrite applyOptions_app, Hopts. cbn [applyOptions]. by rewrite Hopt.
Qed.

(** When the loop over the options ends without error, every option has
    returned nil on what the options before it have left, and the result is
    what all of them, called in the order of the list, have left. *)
Lemma applyOptions_Ok (opts : list ConfigurationOption)
    (s : container_Config * container_HostConfig) cfg hostCfg :
  applyOptions opts s.1 s.2 = Ok (cfg, hostCfg) →
  (cfg, hostCfg) = afterOptions opts s
  ∧ ∀ n opt, opts !! n = Some opt → optionError opt (afterOptions (take n opts) s) = None.
Proof.
  revert s. induction opts as [|o opts IH]; intros [c h] Happly.
  - cbn in Happly. split; [by simplify_eq|]. intros n opt Hn. by destruct n.
  - cbn [applyOptions fst snd] in Happly.
    destruct (o c h) as [[c' h'] [err|]] eqn:Ho; [done|].
    destruct (IH (c', h') Happly) as [Heq Hnil].
    assert (optionSpec o (c, h) = (c', h')) as Hspec
      by (unfold optionSpec; cbn [fst snd]; by rewrite Ho).
    split.
    + unfold afterOptions. cbn [foldl]. by rewrite Hspec.
    + intros [|n] opt Hn.
      * cbn in Hn. simplify_eq. unfold optionError. cbn [take afterOptions foldl fst snd].
        by rewrite Ho.
      * cbn [take]. unfold afterOptions. cbn [foldl]. rewrite Hspec. by apply Hnil.
Qed.

(** The first option that returns an error, on what the options before it
    have left, ends the loop with that error. *)
Lemma applyOptions_Fail_at (opts : list ConfigurationOption)
    (s : container_Config * container_HostConfig) n opt err :
  opts !! n = Some opt →
  (∀ m opt', (m < n)%nat → opts !! m = Some opt' →
     optionError opt' (afterOptions (take m opts) s) = None) →
  optionError opt (afterOptions (take n opts) s) = Some err →
  applyOptions opts s.1 s.2 = Fail err.
Proof.
  revert s n. induction opts as [|o opts IH]; intros [c h] n Hn Hbefore Hopt; [done|].
  cbn [applyOptions fst snd]. destruct n as [|n].
  - cbn in Hn. simplify_eq. unfold optionError in Hopt.
    cbn [take afterOptions foldl fst snd] in Hopt.
    destruct (opt c h) as [[c' h'] e]. cbn in Hopt. by subst.
  - pose proof (Hbefore 0%nat o ltac:(lia) eq_refl) as Ho. unfold optionError in Ho.
    cbn [take afterOptions foldl fst snd] in Ho.
    destruct (o c h) as [[c' h'] e] eqn:Hoc. cbn in Ho. subst e.
    assert (optionSpec o (c, h) = (c', h')) as Hspec
      by (unfold optionSpec; cbn [fst snd]; by rewrite Hoc).
    apply (IH (c', h') n); [done| |].
    + intros m opt' Hm Hlook. specialize (Hbefore (S m) opt' ltac:(lia) Hlook).
      cbn [take] in Hbefore. unfold afterOptions in Hbefore. cbn [foldl] in Hbefore.
      by rewrite Hspec in Hbefore.
    + cbn [take] in Hopt. unfold afterOptions in Hopt. cbn [foldl] in Hopt.
      by rewrite Hspec in Hopt.
Qed.

Lemma create_run_specification quote op cfg hostCfg evs res cfg' hostCfg' reply :
  create_run quote op cfg hostCfg evs res →
  EvContainerCreate cfg' hostCfg' reply ∈ evs → cfg' = cfg ∧ hostCfg' = hostCfg.
Proof.
  intros Hrun Hin. inv Hrun;
    repeat match goal with
      | H : _ ∈ _ :: _ |- _ => apply elem_of_cons in H as [H|H]; [try by inv H|]
      | H : _ ∈ _ ++ _ |- _ => apply elem_of_app in H as [H|H]
      | H : _ ∈ [] |- _ => by apply elem_of_nil in H
      | H : _ ∈ ?evs, Hp : pull_run _ ?evs _ |- _ =>
          by apply (pull_run_no_create _ _ _ _ _ _ Hp) in H
      | H : _ ∈ ?evs, Hc : created_run _ _ _ ?evs _ |- _ =>
          by apply (created_run_no_create _ _ _ _ _ _ _ _ Hc) in H
      end.
Qed.

Lemma exec_run_specification quote d op evs res cfg hostCfg reply :
  exec_run quote d op evs res →
  EvContainerCreate cfg hostCfg reply ∈ evs →
  applyOptions (dockerConfigurationOptions d) (newConfig op) HostConfig_zero
  = Ok (cfg, hostCfg).
Proof.
  intros Hrun Hin. inv Hrun.
  - match goal with H : pull_run _ _ _ |- _ =>
      by apply (pull_run_no_create _ _ _ _ _ _ H) in Hin end.
  - match goal with H : _ ∨ _ |- _ => destruct H as [[_ H]|[_ ->]] end.
    + by apply (pull_run_no_create _ _ _ _ _ _ H) in Hin.
    + by apply elem_of_nil in Hin.
  - apply elem_of_app in Hin as [Hin|Hin].
    + match goal with H : _ ∨ _ |- _ => destruct H as [[_ H]|[_ ->]] end.
      * by apply (pull_run_no_create _ _ _ _ _ _ H) in Hin.
      * by apply elem_of_nil in Hin.
    + match goal with H : create_run _ _ _ _ _ _ |- _ =>
        destruct (create_run_specification _ _ _ _ _ _ _ _ _ H Hin) as [-> ->] end.
      done.
Qed.

Lemma exec_run_option_failed quote d op evs res err :
  exec_run quote d op evs res →
  applyOptions (dockerConfigurationOptions d) (newConfig op) HostConfig_zero = Fail err →
  count is_create evs = 0 ∧ count is_remove evs = 0 ∧ count after_staging evs = 0
  ∧ (res = (OperationResult_zero, Some err)
     ∨ config_get d "PULL_ALWAYS" = "1"
       ∧ ∃ e, pull_run (Image op) evs (Some e) ∧ res = (OperationResult_zero, Some e)).
Proof.
  intros Hrun Hfail. inv Hrun.
  - match goal with H : pull_run _ _ _ |- _ =>
      destruct (pull_run_events _ _ _ H) as (? & ? & ? & _) end.
    repeat split; try done. right. eauto.
  - assert (err0 = err) as -> by congruence.
    match goal with H : _ ∨ _ |- _ => destruct H as [[_ H]|[_ ->]] end.
    + destruct (pull_run_events _ _ _ H) as (? & ? & ? & _). repeat split; try done. by left.
    + repeat split; try done. by left.
  - congruence.
Qed.

Lemma serializeEnv_elem (environment : gmap string string) (s : string) :
  s ∈ serializeEnv environment
  ↔ ∃ k v, environment !! k = Some v ∧ s = k +:+ "=" +:+ v.
Proof.
  unfold serializeEnv, range. rewrite list_elem_of_In, in_map_iff. split.
  - intros ([k v] & <- & Hin). exists k, v. split; [|done].
    by apply elem_of_map_to_list, list_elem_of_In.
  - intros (k & v & Hlook & ->). exists (k, v). split; [done|].
    by apply list_elem_of_In, elem_of_map_to_list.
Qed.

Lemma serializeEnv_length (environment : gmap string string) :
  length (serializeEnv environment) = size environment.
Proof. unfold serializeEnv, range. by rewrite length_map, length_map_to_list. Qed.

Section Specification.
Context {Engine : Type} (docker : Docker Engine).

(** C8. The specification [exec] starts from has the image of the
    operation, one string [k=v] for each entry of its environment, the
    entrypoint [/cnab/app/run] and both attachments enabled.  The options
    are applied to it from the first registered one on, each to what the
    previous ones produced, and every [ContainerCreate] call of the run gets
    what they produced.  When an option fails after the ones before it
    succeeded, the options after it change nothing, no container is created
    and, unless [Run] stopped before (client not acquired, simulate mode,
    failed pull of [PULL_ALWAYS]), [Run] returns the error of that option.
    The last two parts say the same of the options themselves: the
    specifications of every [ContainerCreate] call are what the registered
    options, called one after the other in the order of their registration
    on the specification above and an empty host configuration, have left,
    and each of them has returned nil; and the first registered option that
    returns an error, on what the options before it have left, ends [Run]
    as said above. *)
Theorem Run_specification (op : Operation) (st : State Engine) res st' evs :
  Run docker op st = (res, st', evs) →
  (cfgImage (newConfig op) = Image op
   ∧ Entrypoint (newConfig op) = ["/cnab/app/run"]
   ∧ AttachStdout (newConfig op) = true
   ∧ AttachStderr (newConfig op) = true
   ∧ length (Env (newConfig op)) = size (Environment op)
   ∧ ∀ s, s ∈ Env (newConfig op)
          ↔ ∃ k v, Environment op !! k = Some v ∧ s = k +:+ "=" +:+ v)
  ∧ (∀ cfg hostCfg reply, EvContainerCreate cfg hostCfg reply ∈ evs →
       applyOptions (dockerConfigurationOptions (driver st)) (newConfig op) HostConfig_zero
       = Ok (cfg, hostCfg))
  ∧ (∀ d opts, dockerConfigurationOptions (AddConfigurationOptions d opts)
               = dockerConfigurationOptions d ++ opts)
  ∧ (∀ (opts opts' : list ConfigurationOption) cfg hostCfg,
       applyOptions (opts ++ opts') cfg hostCfg
       = match applyOptions opts cfg hostCfg with
         | Ok (cfg', hostCfg') => applyOptions opts' cfg' hostCfg'
         | Fail err => Fail err
         end)
  ∧ (∀ (opts : list ConfigurationOption) (opt : ConfigurationOption)
       (opts' : list ConfigurationOption) cfg hostCfg cfg' hostCfg' err,
       dockerConfigurationOptions (driver st) = opts ++ opt :: opts' →
       applyOptions opts (newConfig op) HostConfig_zero = Ok (cfg, hostCfg) →
       opt cfg hostCfg = (cfg', hostCfg', Some err) →
       count is_create evs = 0 ∧ count is_remove evs = 0 ∧ count after_staging evs = 0
       ∧ match (initializeDockerCli docker st).1.1 with
         | Fail e => res = (OperationResult_zero, Some e)
         | Ok _ =>
             if Simulate (driver st) then res = (OperationResult_zero, None)
             else res = (OperationResult_zero, Some err)
                  ∨ config_get (driver st) "PULL_ALWAYS" = "1"
                    ∧ ∃ e, pull_run (Image op) evs (Some e)
                           ∧ res = (OperationResult_zero, Some e)
         end)
  ∧ (∀ cfg hostCfg reply, EvContainerCreate cfg hostCfg reply ∈ evs →
       (cfg, hostCfg)
       = afterOptions (dockerConfigurationOptions (driver st))
           (newConfig op, HostConfig_zero)
       ∧ ∀ n opt, dockerConfigurationOptions (driver st) !! n = Some opt →
           optionError opt
             (afterOptions (take n (dockerConfigurationOptions (driver st)))
                (newConfig op, HostConfig_zero)) = None)
  ∧ (∀ n opt err,
       dockerConfigurationOptions (driver st) !! n = Some opt →
       (∀ m opt', (m < n)%nat → dockerConfigurationOptions (driver st) !! m = Some opt' →
          optionError opt'
            (afterOptions (take m (dockerConfigurationOptions (driver st)))
               (newConfig op, HostConfig_zero)) = None) →
       optionError opt
         (afterOptions (take n (dockerConfigurationOptions (driver st)))
            (newConfig op, HostConfig_zero)) = Some err →
       count is_create evs = 0 ∧ count is_remove evs = 0 ∧ count after_staging evs = 0
       ∧ match (initializeDockerCli docker st).1.1 with
         | Fail e => res = (OperationResult_zero, Some e)
         | Ok _ =>
             if Simulate (driver st) then res = (OperationResult_zero, None)
             else res = (OperationResult_zero, Some err)
                  ∨ config_get (driver st) "PULL_ALWAYS" = "1"
                    ∧ ∃ e, pull_run (Image op) evs (Some e)
                           ∧ res = (OperationResult_zero, Some e)
         end).
Proof.
  intros Hrun.
  assert (∀ err,
            applyOptions (dockerConfigurationOptions (driver st)) (newConfig op)
              HostConfig_zero = Fail err →
            count is_create evs = 0 ∧ count is_remove evs = 0
            ∧ count after_staging evs = 0
            ∧ match (initializeDockerCli docker st).1.1 with
              | Fail e => res = (OperationResult_zero, Some e)
              | Ok _ =>
                  if Simulate (driver st) then res = (OperationResult_zero, None)
                  else res = (OperationResult_zero, Some err)
                       ∨ config_get (driver st) "PULL_ALWAYS" = "1"
                         ∧ ∃ e, pull_run (Image op) evs (Some e)
                                ∧ res = (OperationResult_zero, Some e)
              end) as Habort.
  { intros err Hfail. apply Run_inv in Hrun.
    destruct (initializeDockerCli docker st).1.1.
    - destruct (Simulate (driver st)); [by destruct Hrun as [-> ->]|].
      destruct (exec_run_option_failed _ _ _ _ _ _ Hrun Hfail) as (? & ? & ? & ?). done.
    - by destruct Hrun as [-> ->]. }
  assert (∀ cfg hostCfg reply, EvContainerCreate cfg hostCfg reply ∈ evs →
            applyOptions (dockerConfigurationOptions (driver st)) (newConfig op)
              HostConfig_zero = Ok (cfg, hostCfg)) as Hcreate.
  { intros cfg hostCfg reply Hin. eapply exec_run_specification; [|done].
    eapply Run_exec_run; [done|]. intros ->. by apply elem_of_nil in Hin. }
  split.
  { repeat split; try done.
    - apply serializeEnv_length.
    - by apply serializeEnv_elem.
    - by apply serializeEnv_elem. }
  split; [exact Hcreate|].
  split; [done|]. split; [apply applyOptions_app|].
  split.
  { intros opts opt opts' cfg hostCfg cfg' hostCfg' err Hopts Happly Hopt.
    pose proof (applyOptions_first_error _ _ opts' _ _ _ _ _ _ _ Happly Hopt) as Hfail.
    rewrite <- Hopts in Hfail. by apply Habort. }
  split.
  { intros cfg hostCfg reply Hin.
    apply (applyOptions_Ok _ (newConfig op, HostConfig_zero)). by eapply Hcreate. }
  intros n opt err Hn Hbefore Hopt. apply Habort.
  exact (applyOptions_Fail_at _ (newConfig op, HostConfig_zero) n opt err Hn Hbefore Hopt).
Qed.
End Specification.

Lemma Run_specification_witness :
  Run Fake.docker Fake.install {| driver := Fake.withOptions; engine := Fake.scenarioA |}
    = ((Run Fake.docker Fake.install
          {| driver := Fake.withOptions; engine := Fake.scenarioA |}).1.1,
       (Run Fake.docker Fake.install
          {| driver := Fake.withOptions; engine := Fake.scenarioA |}).1.2,
       (Run Fake.docker Fake.install
          {| driver := Fake.withOptions; engine := Fake.scenarioA |}).2)
  ∧ (Run Fake.docker Fake.install
       {| driver := Fake.withOptions; engine := Fake.scenarioA |}).1.1
    = (OperationResult_zero, Some (Err "option refused"))
  ∧ count is_create
      (Run Fake.docker Fake.install
         {| driver := Fake.withOptions; engine := Fake.scenarioA |}).2 = 0
  ∧ Scenarios.runMounted
    = (Scenarios.runMounted.1.1, Scenarios.runMounted.1.2, Scenarios.runMounted.2)
  ∧ count is_create Scenarios.runMounted.2 = 1
  ∧ ∀ cfg hostCfg reply,
      EvContainerCreate cfg hostCfg reply ∈ Scenarios.runMounted.2 →
      Binds hostCfg = ["/var/state:/cnab/app/state"; "/var/data:/cnab/app/data"]
      ∧ User cfg = "cnab"
      ∧ cfgImage cfg = "example/install:v1".
Proof.
  split; [reflexivity|].
  destruct (Run_specification Fake.docker Fake.install
              {| driver := Fake.withOptions; engine := Fake.scenarioA |} _ _ _ eq_refl)
    as (_ & _ & _ & _ & Habort & _).
  destruct (Habort [Fake.mountState] Fake.refuse [Fake.mountState]
              (newConfig Fake.install)
              {| Binds := ["/var/state:/cnab/app/state"]; Privileged := false;
                 NetworkMode := "" |}
              (newConfig Fake.install)
              {| Binds := ["/var/state:/cnab/app/state"]; Privileged := false;
                 NetworkMode := "" |}
              (Err "option refused") eq_refl eq_refl eq_refl)
    as (Hcreate & _ & _ & Hres).
  split; [reflexivity|]. split; [exact Hcreate|].
  split; [reflexivity|]. split; [reflexivity|].
  intros cfg hostCfg reply Hin.
  destruct (Run_specification Fake.docker Fake.install Scenarios.stateMounted
              Scenarios.runMounted.1.1 Scenarios.runMounted.1.2 Scenarios.runMounted.2
              eq_refl)
    as (_ & _ & _ & _ & _ & Hreach & _).
  destruct (Hreach cfg hostCfg reply Hin) as [Heq _].
  split; [exact (f_equal (λ s, Binds s.2) Heq)|].
  split; [exact (f_equal (λ s, User s.1) Heq)|].
  exact (f_equal (λ s, cfgImage s.1) Heq).
Defined.

(** * Further properties of the code *)

(** ** The removal of credential sets *)

Section CredentialRemoval.
Context {FS : Type} (sys : System FS).

Lemma attempts_cons_found sets name path names (fs0 : FS) :
  sets !! name = Some path →
  attempts sys sets (name :: names) fs0
  = (name, path, (os_Remove sys path fs0).1)
    :: attempts sys sets names (os_Remove sys path fs0).2.
Proof.
  intros Hlook. unfold attempts, found. cbn [omap list_omap]. rewrite Hlook. reflexivity.
Qed.

Lemma attempts_cons_missing sets name names (fs0 : FS) :
  sets !! name = None →
  attempts sys sets (name :: names) fs0 = attempts sys sets names fs0.
Proof.
  intros Hlook. unfold attempts, found. cbn [omap list_omap]. rewrite Hlook. reflexivity.
Qed.

Lemma found_cons_found sets name path names :
  sets !! name = Some path → found sets (name :: names) = (name, path) :: found sets names.
Proof. intros Hlook. unfold found. cbn [omap list_omap]. by rewrite Hlook. Qed.

Lemma found_cons_missing sets name names :
  sets !! name = None → found sets (name :: names) = found sets names.
Proof. intros Hlook. unfold found. cbn [omap list_omap]. by rewrite Hlook. Qed.

Lemma missing_cons_found sets name path names :
  sets !! name = Some path → missing sets (name :: names) = missing sets names.
Proof. intros Hlook. unfold missing. cbn [omap list_omap]. by rewrite Hlook. Qed.

Lemma missing_cons_missing sets name names :
  sets !! name = None → missing sets (name :: names) = name :: missing sets names.
Proof. intros Hlook. unfold missing. cbn [omap list_omap]. by rewrite Hlook. Qed.

(** The loop of [run], by what it leaves: the error lines of the failed
    removals, the names not found, and the world after the attempts. *)
Lemma removeLoop_spec sets names removeErrors notFound (w : World FS) :
  removeLoop sys sets names removeErrors notFound w
  = (removeErrors ++ omap failedLine (attempts sys sets names (fs w)),
     notFound ++ missing sets names,
     {| fs := replay sys (found sets names).*2 (fs w);
        out := out w ++ omap removedLine (attempts sys sets names (fs w));
        removals := removals w ++ attempts sys sets names (fs w) |}).
Proof.
  revert removeErrors notFound w.
  induction names as [|name names IH]; intros removeErrors notFound w.
  { cbn. rewrite !app_nil_r. by destruct w. }
  cbn [removeLoop]. destruct (sets !! name) as [path|] eqn:Hlook.
  - rewrite (attempts_cons_found _ _ _ _ _ Hlook), (found_cons_found _ _ _ _ Hlook),
      (missing_cons_found _ _ _ _ Hlook).
    unfold removeCredentialSet.
    destruct (os_Remove sys path (fs w)) as [[err|] fs'] eqn:Hrm;
      rewrite IH; cbn [fs out removals fst snd omap list_omap fmap list_fmap replay foldl];
      rewrite ?Hrm; cbn [fst snd];
      unfold failedLine at 2, removedLine at 2; cbn [fst snd fmap option_fmap option_map];
      rewrite <- ?app_assoc; reflexivity.
  - rewrite (attempts_cons_missing _ _ _ _ Hlook), (found_cons_missing _ _ _ Hlook),
      (missing_cons_missing _ _ _ Hlook).
    rewrite IH. by rewrite <- app_assoc.
Qed.

Lemma run_spec (rm : credentialRemoveCmd) (w : World FS) :
  run sys rm w
  = (match errorLines sys (findCredentialSets sys (Credentials sys (home rm)) (fs w))
             (names rm) (fs w) with
     | [] => None
     | lines => Some (fmt_Errorf (Sprintf sys) (strings_Join lines newline))
     end,
     {| fs := replay sys
                (found (findCredentialSets sys (Credentials sys (home rm)) (fs w))
                   (names rm)).*2 (fs w);
        out := out w ++
               omap removedLine
                 (attempts sys (findCredentialSets sys (Credentials sys (home rm)) (fs w))
                    (names rm) (fs w));
        removals := removals w ++
                    attempts sys (findCredentialSets sys (Credentials sys (home rm)) (fs w))
                      (names rm) (fs w) |}).
Proof.
  unfold run, errorLines. rewrite removeLoop_spec. cbn [app].
  set (sets := findCredentialSets sys _ _).
  destruct (missing sets (names rm)) as [|n notFound];
    destruct (omap failedLine _) as [|l lines];
    repeat case_decide; cbn [app length] in *; try lia; try done.
  by rewrite app_nil_r.
Qed.
End CredentialRemoval.

Lemma answers_length {FS} (sys : System FS) paths (fs0 : FS) :
  length (answers sys paths fs0) = length paths.
Proof.
  revert fs0. induction paths as [|path paths IH]; intros fs0; [done|].
  cbn [answers length]. by rewrite IH.
Qed.

Lemma missing_nil (sets : gmap string string) names :
  missing sets names = [] ↔ ∀ name, name ∈ names → is_Some (sets !! name).
Proof.
  induction names as [|name names IH].
  { split; [|done]. intros _ name Hin. by apply elem_of_nil in Hin. }
  destruct (sets !! name) as [path|] eqn:Hlook.
  - rewrite (missing_cons_found _ _ _ _ Hlook), IH. split.
    + intros Hall n [->|Hin]%elem_of_cons; [by eexists|by apply Hall].
    + intros Hall n Hin. apply Hall, elem_of_cons. by right.
  - rewrite (missing_cons_missing _ _ _ Hlook). split; [done|].
    intros Hall. destruct (Hall name) as [path Hpath]; [by apply elem_of_cons; left|].
    congruence.
Qed.

Lemma missing_all (sets : gmap string string) names :
  (∀ name, name ∈ names → sets !! name = None) →
  missing sets names = names ∧ found sets names = [].
Proof.
  induction names as [|name names IH]; intros Hall; [done|].
  assert (sets !! name = None) as Hlook by (apply Hall, elem_of_cons; by left).
  rewrite (missing_cons_missing _ _ _ Hlook), (found_cons_missing _ _ _ Hlook).
  destruct IH as [-> ->]; [|done]. intros n Hin. apply Hall, elem_of_cons. by right.
Qed.

Lemma failedLine_zip_nil (l : list (string * string)) (replies : list (option error)) :
  length l = length replies →
  omap failedLine (zip l replies) = [] ↔ Forall (λ reply, reply = None) replies.
Proof.
  revert replies. induction l as [|x l IH]; intros [|reply replies] Hlen;
    cbn [length] in Hlen; try lia.
  { split; [by constructor|done]. }
  cbn [zip zip_with omap list_omap]. unfold failedLine at 1. cbn [fst snd].
  destruct reply as [err|]; cbn [fmap option_fmap option_map].
  - split; [done|]. intros H. by inv H.
  - rewrite IH by lia. split; [by constructor|]. intros H. by inv H.
Qed.

Section CredentialProperties.
Context {FS : Type} (sys : System FS).

(** X13. [run] calls [os.Remove] for the names that are credential sets and
    for no other path: once for each occurrence of such a name, in the
    order of the arguments, with the path of the set, each call on the file
    system the calls before it have left, whether these failed or not.  A
    name that is no credential set causes no call. *)
Theorem run_removes_found_only (rm : credentialRemoveCmd) (w : World FS) :
  removals (run sys rm w).2
  = removals w
    ++ attempts sys (findCredentialSets sys (Credentials sys (home rm)) (fs w))
         (names rm) (fs w)
  ∧ (attempts sys (findCredentialSets sys (Credentials sys (home rm)) (fs w))
       (names rm) (fs w)).*1
    = found (findCredentialSets sys (Credentials sys (home rm)) (fs w)) (names rm)
  ∧ (attempts sys (findCredentialSets sys (Credentials sys (home rm)) (fs w))
       (names rm) (fs w)).*2
    = answers sys
        (found (findCredentialSets sys (Credentials sys (home rm)) (fs w)) (names rm)).*2
        (fs w)
  ∧ (∀ name path,
       (name, path)
         ∈ found (findCredentialSets sys (Credentials sys (home rm)) (fs w)) (names rm)
       ↔ name ∈ names rm
         ∧ findCredentialSets sys (Credentials sys (home rm)) (fs w) !! name = Some path)
  ∧ fs (run sys rm w).2
    = replay sys
        (found (findCredentialSets sys (Credentials sys (home rm)) (fs w)) (names rm)).*2
        (fs w).
Proof.
  rewrite run_spec. cbn [snd removals fs]. set (sets := findCredentialSets sys _ _).
  split; [done|]. unfold attempts.
  split; [apply fst_zip; rewrite answers_length, length_fmap; lia|].
  split; [apply snd_zip; rewrite answers_length, length_fmap; lia|].
  split; [|done].
  intros name path. unfold found. rewrite list_elem_of_omap. split.
  - intros (n & Hin & Hlook). destruct (sets !! n) as [p|] eqn:Hn; [|done].
    cbn in Hlook. by simplify_eq.
  - intros [Hin Hlook]. exists name. split; [done|]. by rewrite Hlook.
Qed.

(** X14. [run] returns nil exactly when every name is a credential set and
    every [os.Remove] call succeeded. *)
Theorem run_nil_iff (rm : credentialRemoveCmd) (w : World FS) :
  (run sys rm w).1 = None
  ↔ (∀ name, name ∈ names rm →
       is_Some (findCredentialSets sys (Credentials sys (home rm)) (fs w) !! name))
    ∧ Forall (λ reply, reply = None)
        (answers sys
           (found (findCredentialSets sys (Credentials sys (home rm)) (fs w))
              (names rm)).*2 (fs w)).
Proof.
  rewrite run_spec. cbn [fst]. set (sets := findCredentialSets sys _ _).
  rewrite <- missing_nil, <- (failedLine_zip_nil (found sets (names rm)))
    by (rewrite answers_length, length_fmap; lia).
  unfold errorLines, attempts.
  destruct (missing sets (names rm)) as [|n notFound] eqn:Hmiss.
  - rewrite app_nil_r.
    destruct (omap failedLine _) as [|l lines]; [done|].
    split; [done|]. intros [_ Hnil]. discriminate Hnil.
  - destruct (omap failedLine _ ++ _) as [|l lines] eqn:Happ.
    + by apply app_eq_nil in Happ as [_ ?].
    + split; [done|]. intros [Hnil _]. discriminate Hnil.
Qed.

(** X15. [run] writes one line [Removed credential set: name] for each
    [os.Remove] call that succeeded, in the order of the calls, and nothing
    else: no line for a failed removal or for a name that is not found. *)
Theorem run_output (rm : credentialRemoveCmd) (w : World FS) :
  out (run sys rm w).2
  = out w
    ++ omap removedLine
         (attempts sys (findCredentialSets sys (Credentials sys (home rm)) (fs w))
            (names rm) (fs w))
  ∧ ∀ line,
      line ∈ omap removedLine
               (attempts sys (findCredentialSets sys (Credentials sys (home rm)) (fs w))
                  (names rm) (fs w))
      ↔ ∃ name path,
          (name, path, None)
            ∈ attempts sys (findCredentialSets sys (Credentials sys (home rm)) (fs w))
                (names rm) (fs w)
          ∧ line = "Removed credential set: " +:+ name +:+ newline.
Proof.
  rewrite run_spec. cbn [snd out]. split; [done|].
  intros line. rewrite list_elem_of_omap. split.
  - intros ([[name path] [err|]] & Hin & Hline); [done|].
    cbn in Hline. simplify_eq. by exists name, path.
  - intros (name & path & Hin & ->). by exists (name, path, None).
Qed.

(** X16. The error of [run] joins, with newlines, one line for each failed
    removal, in the order of the calls, and then one line that lists the
    names that are no credential sets, in the order of the arguments.  The
    joined text is handed to [fmt.Errorf] as a format: it is the message as
    it is when it has no [%], and what [fmt] makes of its verbs
    otherwise. *)
Theorem run_error_text (rm : credentialRemoveCmd) (w : World FS) (lines : list string) :
  lines = errorLines sys (findCredentialSets sys (Credentials sys (home rm)) (fs w))
            (names rm) (fs w) →
  lines ≠ [] →
  (occurs percent (strings_Join lines newline) = false →
     (run sys rm w).1 = Some (Err (strings_Join lines newline)))
  ∧ (occurs percent (strings_Join lines newline) = true →
     (run sys rm w).1 = Some (Err (Sprintf sys (strings_Join lines newline)))).
Proof.
  intros -> Hne. rewrite run_spec. cbn [fst].
  destruct (errorLines _ _ _ _) as [|l lines]; [done|].
  unfold fmt_Errorf, Errorf. split; intros ->; done.
Qed.

(** X17. Without arguments [RunE] fails and touches nothing.  With
    arguments none of which is a credential set it makes no [os.Remove]
    call, writes nothing, and returns the error that [fmt.Errorf] makes of
    the line that lists all of them, used as a format: that line as it is
    when the listed names have no [%], and what [fmt] makes of its verbs
    otherwise. *)
Theorem RunE_nothing_found (args : list string) (w : World FS) :
  RunE sys [] w
  = (Some (Err "This command requires at least 1 argument: name of credential set"), w)
  ∧ (args ≠ [] →
     (∀ name, name ∈ args →
        findCredentialSets sys (Credentials sys (homePath sys)) (fs w) !! name = None) →
     RunE sys args w
     = (Some (fmt_Errorf (Sprintf sys)
                ("Unable to find credential set(s): " +:+ strings_Join args ", ")), w)
     ∧ (occurs percent (strings_Join args ", ") = false →
        RunE sys args w
        = (Some (Err ("Unable to find credential set(s): " +:+ strings_Join args ", ")), w))
     ∧ (occurs percent (strings_Join args ", ") = true →
        RunE sys args w
        = (Some (Err (Sprintf sys
                        ("Unable to find credential set(s): "
                         +:+ strings_Join args ", "))), w))).
Proof.
  split; [done|]. intros Hne Hmissing.
  assert (RunE sys args w
          = (Some (fmt_Errorf (Sprintf sys)
                     ("Unable to find credential set(s): " +:+ strings_Join args ", ")), w))
    as Heq.
  { unfold RunE. rewrite decide_False by (destruct args; [done|cbn; lia]).
    rewrite run_spec. cbn [names home].
    destruct (missing_all _ _ Hmissing) as [Hmiss Hfound].
    unfold errorLines, attempts. rewrite Hmiss, Hfound. cbn [fmap list_fmap zip zip_with
      answers omap list_omap app replay foldl].
    destruct args as [|a args]; [done|]. rewrite !app_nil_r.
    cbn [strings_Join]. by destruct w. }
  split; [exact Heq|].
  assert (occurs percent
            ("Unable to find credential set(s): " +:+ strings_Join args ", ")
          = occurs percent (strings_Join args ", ")) as Hocc
    by (rewrite occurs_append; reflexivity).
  rewrite Heq. unfold fmt_Errorf, Errorf. rewrite Hocc.
  split; intros ->; reflexivity.
Qed.
End CredentialProperties.

(** ** The shape of a run of the driver *)

Lemma preamble_nil creates pulls : preamble creates pulls [].
Proof. unfold preamble. cbn. repeat split; try lia. constructor. Qed.

Lemma preamble_app c1 p1 c2 p2 l1 l2 :
  preamble c1 p1 l1 → preamble c2 p2 l2 → preamble (c1 + c2) (p1 + p2) (l1 ++ l2).
Proof.
  intros (? & ? & ? & ? & ? & ?) (? & ? & ? & ? & ? & ?). unfold preamble.
  rewrite !count_app. repeat split; try lia. by apply Forall_app.
Qed.

Lemma preamble_weaken c1 p1 c2 p2 l :
  (c1 ≤ c2)%nat → (p1 ≤ p2)%nat → preamble c1 p1 l → preamble c2 p2 l.
Proof. intros ? ? (? & ? & ? & ? & ? & ?). unfold preamble. repeat split; try done; lia. Qed.

Lemma pull_run_preamble image evs err : pull_run image evs err → preamble 0 1 evs.
Proof.
  intros H. inv H; unfold preamble; cbn; repeat split; try lia; repeat constructor.
Qed.

Lemma created_run_body quote op ID evs res :
  created_run quote op ID evs res →
  count is_create evs = 0 ∧ count is_created evs = 0 ∧ count is_pull evs = 0
  ∧ count is_remove evs = 0 ∧ Forall (λ ev, container_of ev = Some ID ∨ ∃ w, ev = EvReceived w) evs.
Proof.
  intros H. inv H; cbn; repeat split; try lia;
    repeat (constructor; [first [by left|right; by eexists]|]); constructor.
Qed.

(** A run from the first creation on either fails before a container
    exists, or creates one container, runs [execCreated] on it and removes
    it. *)
Lemma create_run_shape quote op cfg hostCfg evs res :
  create_run quote op cfg hostCfg evs res →
  (∃ err, res = (OperationResult_zero, Some err) ∧ preamble 2 1 evs)
  ∨ ∃ pre ID body reply,
      evs = pre ++ EvContainerCreate cfg hostCfg (Ok ID) :: body ++ [EvContainerRemove ID reply]
      ∧ created_run quote op ID body res ∧ preamble 1 1 pre.
Proof.
  assert (∀ msg, preamble 1 0 [EvContainerCreate cfg hostCfg (Fail (ErrNotFound msg)); notice op])
    as Hhead.
  { intros msg. unfold preamble. cbn. repeat split; try lia. repeat constructor. }
  intros Hrun. inv Hrun.
  - left. eexists. split; [done|]. unfold preamble. cbn. repeat split; try lia.
    repeat constructor.
  - right. exists [], ID, evs0, reply. split; [done|]. split; [done|]. apply preamble_nil.
  - left. eexists. split; [done|].
    match goal with H : pull_run _ _ _ |- _ => apply pull_run_preamble in H end.
    eapply preamble_weaken; [| |apply (preamble_app 1 0 0 1 [_; _])]; [lia|lia|apply Hhead|done].
  - left. eexists. split; [done|].
    match goal with H : pull_run _ _ _ |- _ => apply pull_run_preamble in H end.
    change (?a :: ?b :: ?l ++ ?r) with ([a; b] ++ l ++ r).
    eapply preamble_weaken;
      [| |apply (preamble_app 1 0 1 1 [_; _]);
          [apply Hhead|apply (preamble_app 0 1 1 0); [done|]]]; [lia|lia|].
    unfold preamble. cbn. repeat split; try lia. repeat constructor.
  - right.
    match goal with H : pull_run _ _ _ |- _ => apply pull_run_preamble in H end.
    match goal with
    | |- context [EvContainerCreate cfg hostCfg (Fail (ErrNotFound ?msg)) :: notice op :: ?l ++ _] =>
        exists ([EvContainerCreate cfg hostCfg (Fail (ErrNotFound msg)); notice op] ++ l)
    end.
    eexists _, _, _. split; [by rewrite <- app_assoc|]. split; [done|].
    by apply (preamble_app 1 0 0 1 [_; _]).
Qed.

Lemma exec_run_shape quote d op evs res :
  exec_run quote d op evs res →
  (∃ err, res = (OperationResult_zero, Some err) ∧ preamble 2 2 evs)
  ∨ ∃ pre cfg hostCfg ID body reply,
      evs = pre ++ EvContainerCreate cfg hostCfg (Ok ID) :: body ++ [EvContainerRemove ID reply]
      ∧ created_run quote op ID body res ∧ preamble 1 2 pre
      ∧ applyOptions (dockerConfigurationOptions d) (newConfig op) HostConfig_zero
        = Ok (cfg, hostCfg).
Proof.
  assert (∀ pevs : list event,
            (config_get d "PULL_ALWAYS" = "1" ∧ pull_run (Image op) pevs None
             ∨ config_get d "PULL_ALWAYS" ≠ "1" ∧ pevs = []) → preamble 0 1 pevs) as Heager.
  { intros pevs [[_ H]|[_ ->]]; [by eapply pull_run_preamble|apply preamble_nil]. }
  intros Hrun. inv Hrun.
  - left. eexists. split; [done|].
    eapply preamble_weaken; [| |by eapply pull_run_preamble]; lia.
  - left. eexists. split; [done|].
    eapply preamble_weaken; [| |by apply Heager]; lia.
  - match goal with H : _ ∨ _ |- _ => apply Heager in H; rename H into Hpre end.
    match goal with H : create_run _ _ _ _ _ _ |- _ =>
      apply create_run_shape in H
        as [(err & -> & Hfail)|(pre & ID & body & reply & -> & Hbody & Hpre')] end.
    + left. eexists. split; [done|].
      eapply preamble_weaken; [| |apply (preamble_app _ _ _ _ _ _ Hpre Hfail)]; lia.
    + right. eexists (_ ++ pre), _, _, ID, body, reply.
      split; [by rewrite <- app_assoc|]. split; [done|]. split; [|done].
      eapply preamble_weaken; [| |apply (preamble_app _ _ _ _ _ _ Hpre Hpre')]; lia.
Qed.

Section Shape.
Context {Engine : Type} (docker : Docker Engine).

(** Every run of [Run], by its events and its result. *)
Lemma Run_shape (op : Operation) (st : State Engine) res st' evs :
  Run docker op st = (res, st', evs) →
  (res.1 = OperationResult_zero ∧ preamble 2 2 evs)
  ∨ ∃ pre cfg hostCfg ID body reply,
      evs = pre ++ EvContainerCreate cfg hostCfg (Ok ID) :: body ++ [EvContainerRemove ID reply]
      ∧ created_run (Quote docker) op ID body res ∧ preamble 1 2 pre
      ∧ applyOptions (dockerConfigurationOptions (driver st)) (newConfig op) HostConfig_zero
        = Ok (cfg, hostCfg).
Proof.
  intros Hrun. apply Run_inv in Hrun.
  destruct (initializeDockerCli docker st).1.1.
  - destruct (Simulate (driver st)).
    + destruct Hrun as [-> ->]. left. split; [done|apply preamble_nil].
    + apply exec_run_shape in Hrun as [(err & -> & Hpre)|Hcreated]; [by left|by right].
  - destruct Hrun as [-> ->]. left. split; [done|apply preamble_nil].
Qed.
End Shape.

Lemma preamble_no_staging c p evs ev :
  preamble c p evs → ev ∈ evs → after_staging ev = false ∧ container_of ev = None.
Proof.
  intros (Hs & _ & _ & _ & _ & Hc) Hin. split.
  - destruct (after_staging ev) eqn:Hev; [|done].
    by apply (count_zero_not_elem _ _ _ Hs Hev) in Hin.
  - by apply (proj1 (Forall_forall _ _) Hc).
Qed.

Section RunBody.
Context {Engine : Type} (docker : Docker Engine).

(** An event that follows the staging lies between the creation of the
    container and its removal. *)
Lemma Run_body_event (op : Operation) (st : State Engine) res st' evs ev :
  Run docker op st = (res, st', evs) →
  ev ∈ evs → after_staging ev = true →
  ∃ pre cfg hostCfg ID body reply,
    evs = pre ++ EvContainerCreate cfg hostCfg (Ok ID) :: body ++ [EvContainerRemove ID reply]
    ∧ created_run (Quote docker) op ID body res ∧ preamble 1 2 pre ∧ ev ∈ body.
Proof.
  intros Hrun Hin Hev.
  apply Run_shape in Hrun
    as [[_ Hpre]|(pre & cfg & hostCfg & ID & body & reply & -> & Hbody & Hpre & _)].
  { destruct (preamble_no_staging _ _ _ _ Hpre Hin). congruence. }
  exists pre, cfg, hostCfg, ID, body, reply. split; [done|]. split; [done|]. split; [done|].
  apply elem_of_app in Hin as [Hin|Hin].
  { destruct (preamble_no_staging _ _ _ _ Hpre Hin). congruence. }
  apply elem_of_cons in Hin as [->|Hin]; [done|].
  apply elem_of_app in Hin as [Hin|Hin]; [done|].
  apply list_elem_of_singleton in Hin as ->. done.
Qed.

(** X1. One run of [Run] creates at most one container: at most two
    [ContainerCreate] calls, of which at most one succeeds, at most two
    pulls and at most one removal; and every call that takes a container ID
    (copy, attach, wait, start, copy of the outputs, removal) is made on
    the container that was created in this run. *)
Theorem Run_one_container (op : Operation) (st : State Engine) res st' evs :
  Run docker op st = (res, st', evs) →
  (count is_created evs ≤ 1)%nat ∧ (count is_create evs ≤ 2)%nat
  ∧ (count is_pull evs ≤ 2)%nat ∧ (count is_remove evs ≤ 1)%nat
  ∧ ∀ ev ID, ev ∈ evs → container_of ev = Some ID →
      ∃ cfg hostCfg, EvContainerCreate cfg hostCfg (Ok ID) ∈ evs.
Proof.
  intros Hrun.
  apply Run_shape in Hrun
    as [[_ Hpre]|(pre & cfg & hostCfg & ID & body & reply & -> & Hbody & Hpre & _)].
  { pose proof Hpre as (? & ? & ? & ? & ? & ?). repeat split; try lia.
    intros ev ID Hin Hc. destruct (preamble_no_staging _ _ _ _ Hpre Hin). congruence. }
  pose proof Hpre as (? & ? & ? & ? & ? & ?).
  destruct (created_run_body _ _ _ _ _ Hbody) as (? & ? & ? & ? & Hids).
  rewrite !count_app, !count_cons, !count_app. cbn. repeat split; try lia.
  intros ev ID' Hin Hc.
  assert (ID' = ID) as ->.
  { apply elem_of_app in Hin as [Hin|Hin].
    { destruct (preamble_no_staging _ _ _ _ Hpre Hin). congruence. }
    apply elem_of_cons in Hin as [->|Hin]; [done|].
    apply elem_of_app in Hin as [Hin|Hin].
    - destruct (proj1 (Forall_forall _ _) Hids _ Hin) as [Hid|[w ->]]; [congruence|done].
    - apply list_elem_of_singleton in Hin as ->. cbn in Hc. congruence. }
  exists cfg, hostCfg. apply elem_of_app. right. apply list_elem_of_here.
Qed.

(** X2. A container is started only after the files were copied into it,
    the stream was attached and the wait was registered, in this order and
    right after its creation; the archive copied in is the one
    [generateTar] made of the files of the operation. *)
Theorem Run_start_order (op : Operation) (st : State Engine) res st' evs ID reply :
  Run docker op st = (res, st', evs) →
  EvContainerStart ID reply ∈ evs →
  ∃ pre cfg hostCfg tarContent post,
    evs = pre ++ [EvContainerCreate cfg hostCfg (Ok ID);
                  EvCopyToContainer ID "/" tarContent None;
                  EvContainerAttach ID None;
                  EvContainerWait ID;
                  EvContainerStart ID reply] ++ post
    ∧ generateTar (Files op) = Ok tarContent.
Proof.
  intros Hrun Hin.
  destruct (Run_body_event _ _ _ _ _ _ Hrun Hin eq_refl)
    as (pre & cfg & hostCfg & ID' & body & reply' & -> & Hbody & _ & Hin').
  inv Hbody; split_elem Hin'; simplify_eq;
    eexists pre, cfg, hostCfg, _, _; (split; [cbn [app]; reflexivity|done]).
Qed.

(** X3. When the copy of the files, the attachment or the start fails,
    [Run] returns that error behind the text of its stage, with the zero
    result, and the next call is the removal of the container: nothing is
    started or waited for, and no outputs are fetched. *)
Theorem Run_stage_failure (op : Operation) (st : State Engine) res st' evs ID err :
  Run docker op st = (res, st', evs) →
  (∀ path tarContent, EvCopyToContainer ID path tarContent (Some err) ∈ evs →
     res = (OperationResult_zero,
            Some (Errorf ("error copying to / in container: " +:+ Error err)))
     ∧ ∃ pre reply,
         evs = pre ++ [EvCopyToContainer ID path tarContent (Some err);
                       EvContainerRemove ID reply])
  ∧ (EvContainerAttach ID (Some err) ∈ evs →
     res = (OperationResult_zero, Some (Errorf ("unable to retrieve logs: " +:+ Error err)))
     ∧ ∃ pre reply,
         evs = pre ++ [EvContainerAttach ID (Some err); EvContainerRemove ID reply])
  ∧ (EvContainerStart ID (Some err) ∈ evs →
     res = (OperationResult_zero, Some (Errorf ("cannot start container: " +:+ Error err)))
     ∧ ∃ pre reply,
         evs = pre ++ [EvContainerStart ID (Some err); EvContainerRemove ID reply]).
Proof.
  intros Hrun. split; [intros path tarContent Hin|split; intros Hin];
    destruct (Run_body_event _ _ _ _ _ _ Hrun Hin eq_refl)
      as (pre & cfg & hostCfg & ID' & body & reply' & -> & Hbody & _ & Hin');
    inv Hbody; split_elem Hin'; simplify_eq; (split; [done|]).
  - exists (pre ++ [EvContainerCreate cfg hostCfg (Ok ID')]), reply'.
    by rewrite <- app_assoc.
  - eexists (pre ++ [EvContainerCreate cfg hostCfg (Ok ID'); _]), reply'.
    by rewrite <- app_assoc.
  - eexists (pre ++ [EvContainerCreate cfg hostCfg (Ok ID'); _; _; _]), reply'.
    by rewrite <- app_assoc.
Qed.
End RunBody.

Lemma fetched_allocated quote reply : is_Some (Outputs (fetched quote reply).1).
Proof. destruct reply; cbn; by eexists. Qed.

Lemma IsAbs_Join_app_root name : IsAbs (Join "/cnab/app" name) = true.
Proof.
  unfold Join, Clean. rewrite decide_False by done.
  change (IsAbs ("/cnab/app" +:+ "/" +:+ name)) with true. cbv iota.
  reflexivity.
Qed.

Lemma collected_keys tarReader k v :
  (k, v) ∈ collected tarReader → ∃ name, k = Join "/cnab/app" name.
Proof.
  induction tarReader as [err|header body rest IH]; cbn [collected].
  { intros Hin. by apply elem_of_nil in Hin. }
  destruct (IsDir header); [done|]. destruct body as [contents|err].
  - intros [Heq|Hin]%elem_of_cons; [|by apply IH].
    exists (Name header). congruence.
  - intros Hin. by apply elem_of_nil in Hin.
Qed.

Lemma fetched_keys quote reply m k :
  Outputs (fetched quote reply).1 = Some m → k ∈ dom m → IsAbs k = true.
Proof.
  destruct reply as [ioReader|err]; cbn [fetched fst Outputs]; intros [= <-].
  - rewrite readOutputs_flatten. unfold flatten.
    rewrite dom_list_to_map_L, elem_of_list_to_set, fmap_reverse, elem_of_reverse,
      list_elem_of_fmap.
    intros ([k' v] & -> & Hin). destruct (collected_keys _ _ _ Hin) as [name ->].
    apply IsAbs_Join_app_root.
  - by rewrite dom_empty_L.
Qed.

Section RunResult.
Context {Engine : Type} (docker : Docker Engine).

Lemma Run_allocated_received (op : Operation) (st : State Engine) res st' evs :
  Run docker op st = (res, st', evs) →
  is_Some (Outputs res.1) → ∃ w, EvReceived w ∈ evs.
Proof.
  intros Hrun Hout. apply Run_shape in Hrun
    as [[Hzero _]|(pre & cfg & hostCfg & ID & body & reply & -> & Hbody & _ & _)].
  { rewrite Hzero in Hout. by destruct Hout. }
  assert (∃ w, EvReceived w ∈ body) as [w Hw].
  { inv Hbody; try (by destruct Hout); eexists; repeat constructor. }
  exists w. apply elem_of_app. right. apply elem_of_cons. right.
  apply elem_of_app. by left.
Qed.

(** X4. The outputs of the result are an allocated map exactly in the runs
    in which the [select] received a value, that is in which [fetchOutputs]
    was called; every run that ends before returns the zero result, whose
    map is nil. *)
Theorem Run_outputs_allocated (op : Operation) (st : State Engine) res st' evs :
  Run docker op st = (res, st', evs) →
  (is_Some (Outputs res.1) ↔ ∃ w, EvReceived w ∈ evs)
  ∧ (Outputs res.1 = None → res.1 = OperationResult_zero)
  ∧ ((∃ w, EvReceived w ∈ evs)
     ↔ ∃ ID reply, EvCopyFromContainer ID "/cnab/app/outputs" reply ∈ evs).
Proof.
  intros Hrun.
  split; [split; [by apply (Run_allocated_received _ _ _ _ _ Hrun)|]|split].
  - intros [w Hw]. destruct (Run_received _ _ _ _ _ _ _ Hrun Hw)
      as (ID & reply & _ & _ & Hres & _).
    rewrite Hres. apply fetched_allocated.
  - intros Hnone. destruct res as [[[m|]] err]; [done|done].
  - split.
    + intros [w Hw]. destruct (Run_received _ _ _ _ _ _ _ Hrun Hw)
        as (ID & reply & Hcopy & _). by exists ID, reply.
    + intros (ID & reply & Hcopy).
      destruct (Run_body_event _ _ _ _ _ _ _ Hrun Hcopy eq_refl)
        as (pre & cfg & hostCfg & ID' & body & reply' & -> & Hbody & _ & Hin').
      assert (∃ w, EvReceived w ∈ body) as [w Hw].
      { inv Hbody; split_elem Hin'; eexists; repeat constructor. }
      exists w. apply elem_of_app. right. apply elem_of_cons. right.
      apply elem_of_app. by left.
Qed.

(** X5. [Run] returns a nil error in three cases only: in simulate mode,
    without any event; when the container exits with status 0 (and the
    outputs are fetched without error); and when the error channel of the
    wait delivers nil. *)
Theorem Run_nil_error (op : Operation) (st : State Engine) res st' evs :
  Run docker op st = (res, st', evs) →
  res.2 = None →
  (Simulate (driver st) = true ∧ evs = [] ∧ res.1 = OperationResult_zero)
  ∨ (∃ WaitError ID reply,
       EvReceived (FromStatusc 0 WaitError) ∈ evs
       ∧ EvCopyFromContainer ID "/cnab/app/outputs" reply ∈ evs
       ∧ (fetched (Quote docker) reply).2 = None)
  ∨ EvReceived (FromErrc None) ∈ evs.
Proof.
  intros Hrun Hnil. pose proof Hrun as Hinv. apply Run_inv in Hinv.
  destruct (initializeDockerCli docker st).1.1 as [cli|err].
  2:{ destruct Hinv as [-> _]. done. }
  destruct (Simulate (driver st)).
  { destruct Hinv as [-> ->]. by left. }
  right. apply exec_run_shape in Hinv
    as [(err & -> & _)|(pre & cfg & hostCfg & ID & body & reply & -> & Hbody & _ & _)];
    [done|].
  assert (∀ ev, ev ∈ body →
            ev ∈ pre ++ EvContainerCreate cfg hostCfg (Ok ID)
                          :: body ++ [EvContainerRemove ID reply]) as Hin.
  { intros ev Hev. apply elem_of_app. right. apply elem_of_cons. right.
    apply elem_of_app. by left. }
  inv Hbody; try discriminate Hnil.
  - right. apply Hin. repeat constructor.
  - left. eexists _, _, _. split; [|split; [|exact Hnil]]; apply Hin; repeat constructor.
Qed.

(** X6. Every path of the outputs [Run] returns is an absolute path. *)
Theorem Run_outputs_absolute (op : Operation) (st : State Engine) res st' evs
    (m : gmap string string) (path : string) :
  Run docker op st = (res, st', evs) →
  Outputs res.1 = Some m → path ∈ dom m → IsAbs path = true.
Proof.
  intros Hrun Hout Hin.
  destruct (Run_allocated_received _ _ _ _ _ Hrun) as [w Hw]; [by eexists|].
  destruct (Run_received _ _ _ _ _ _ _ Hrun Hw) as (ID & reply & _ & _ & Hres & _).
  rewrite Hres in Hout. by eapply fetched_keys.
Qed.
End RunResult.

(** ** The archive of the files *)

Lemma writeEntries_elem (entries : list (string * string)) (f : tarFile) :
  f ∈ writeEntries entries
  ↔ ∃ path c, (path, c) ∈ entries
      ∧ f = {| hdrName := path; hdrMode := 420;
               hdrSize := Z.of_nat (String.length c); content := c |}.
Proof.
  unfold writeEntries. rewrite list_elem_of_In, in_map_iff. split.
  - intros ([path c] & <- & Hin). exists path, c. by rewrite list_elem_of_In.
  - intros (path & c & Hin & ->). exists (path, c). by rewrite <- list_elem_of_In.
Qed.

Lemma writeEntries_names (entries : list (string * string)) :
  hdrName <$> writeEntries entries = entries.*1.
Proof. induction entries as [|[path c] entries IH]; [done|]. cbn. by f_equal. Qed.

Lemma generateTar_Ok (files : gmap string string) tarContent :
  generateTar files = Ok tarContent →
  tarContent = writeEntries (range files)
  ∧ ∀ path, is_Some (files !! path) → IsAbs path = true.
Proof.
  intros Htar. split.
  - unfold generateTar in Htar. destruct (checkPaths (range files)); by simplify_eq.
  - intros path Hin. destruct (IsAbs path) eqn:Habs; [done|].
    destruct (generateTar_relative files) as (p & _ & _ & Hfail); [by eauto|]. congruence.
Qed.

(** X7. [generateTar] succeeds exactly on the mappings whose paths are all
    absolute, the empty one among them.  The archive then has one entry for
    each file and no other: the entry is named by the path, holds the
    content, and has mode 0644 and the length of the content as size; no
    two entries have the same name. *)
Theorem generateTar_entries (files : gmap string string) :
  ((∃ tarContent, generateTar files = Ok tarContent)
   ↔ ∀ path, is_Some (files !! path) → IsAbs path = true)
  ∧ ∀ tarContent, generateTar files = Ok tarContent →
      length tarContent = size files
      ∧ NoDup (hdrName <$> tarContent)
      ∧ ∀ f, f ∈ tarContent
             ↔ ∃ path c, files !! path = Some c
                 ∧ f = {| hdrName := path; hdrMode := 420;
                          hdrSize := Z.of_nat (String.length c); content := c |}.
Proof.
  split.
  - split.
    + intros [tarContent Htar]. by apply (generateTar_Ok _ _ Htar).
    + intros Habs. eexists. by apply generateTar_absolute.
  - intros tarContent Htar. destruct (generateTar_Ok _ _ Htar) as [-> _].
    split; [|split].
    + unfold writeEntries, range. by rewrite length_map, length_map_to_list.
    + rewrite writeEntries_names. apply NoDup_fst_map_to_list.
    + intros f. rewrite writeEntries_elem. unfold range.
      split; intros (path & c & Hin & ->); exists path, c;
        (split; [by apply elem_of_map_to_list|done]).
Qed.

Section Staged.
Context {Engine : Type} (docker : Docker Engine).

(** X8. Whatever [Run] copies into a container, it copies to the root [/],
    into the container it created, and it is the archive [generateTar] made
    of the files of the operation, all of whose paths are then absolute:
    every file of the operation is in it, and nothing else. *)
Theorem Run_stages_files (op : Operation) (st : State Engine) res st' evs
    ID path tarContent reply :
  Run docker op st = (res, st', evs) →
  EvCopyToContainer ID path tarContent reply ∈ evs →
  path = "/"
  ∧ generateTar (Files op) = Ok tarContent
  ∧ (∀ p, is_Some (Files op !! p) → IsAbs p = true)
  ∧ (∀ p c, Files op !! p = Some c
            ↔ ∃ f, f ∈ tarContent ∧ hdrName f = p ∧ content f = c)
  ∧ ∃ pre cfg hostCfg post,
      evs = pre ++ [EvContainerCreate cfg hostCfg (Ok ID);
                    EvCopyToContainer ID path tarContent reply] ++ post.
Proof.
  intros Hrun Hin.
  destruct (Run_body_event _ _ _ _ _ _ _ Hrun Hin eq_refl)
    as (pre & cfg & hostCfg & ID' & body & reply' & -> & Hbody & _ & Hin').
  assert (path = "/" ∧ generateTar (Files op) = Ok tarContent
          ∧ ∃ rest, body = EvCopyToContainer ID path tarContent reply :: rest ∧ ID' = ID)
    as (-> & Htar & rest & -> & ->).
  { inv Hbody; split_elem Hin'; simplify_eq; repeat split; try done; by eexists. }
  split; [done|]. split; [done|].
  destruct (generateTar_Ok _ _ Htar) as [-> Habs]. split; [done|]. split.
  - intros p c. rewrite <- elem_of_map_to_list. split.
    + intros Hpc. eexists. split; [apply writeEntries_elem; by eexists _, _|done].
    + intros (f & (p' & c' & Hpc & ->)%writeEntries_elem & <- & <-). done.
  - by exists pre, cfg, hostCfg, (rest ++ [EvContainerRemove ID reply']).
Qed.

(** X9. Without the setting [PULL_ALWAYS] equal to [1], the first engine
    call of a run is the creation of the container; with it, the first call
    is the pull of the image of the operation, and when that pull fails
    nothing follows and [Run] returns its error. *)
Theorem Run_eager_pull (op : Operation) (st : State Engine) res st' evs :
  Run docker op st = (res, st', evs) →
  (config_get (driver st) "PULL_ALWAYS" ≠ "1" →
     evs = [] ∨ ∃ cfg hostCfg reply rest, evs = EvContainerCreate cfg hostCfg reply :: rest)
  ∧ (config_get (driver st) "PULL_ALWAYS" = "1" →
     evs = []
     ∨ ∃ encodedAuth reply rest,
         evs = EvImagePull (Image op) encodedAuth reply :: rest
         ∧ ∀ err,
             match reply with
             | Fail e => Some e
             | Ok body => DisplayJSONMessagesStream body
             end = Some err →
             rest = [] ∧ res = (OperationResult_zero, Some err)).
Proof.
  intros Hrun.
  destruct evs as [|ev evs]; [by split; left|].
  apply Run_exec_run in Hrun; [|done].
  split; intros Hcfg; right.
  - inv Hrun; try congruence.
    + match goal with H : _ ∨ _ |- _ => destruct H as [[? _]|[_ ?]] end; [congruence|done].
    + match goal with H : _ ∨ _ |- _ => destruct H as [[? _]|[_ ->]] end; [congruence|].
      match goal with H : create_run _ _ _ _ _ _ |- _ =>
        apply create_run_head in H as (reply & rest & Heq) end.
      cbn [app] in *. simplify_eq. by eexists _, _, _, _.
  - inv Hrun.
    + match goal with H : pull_run _ _ _ |- _ => inv H end.
      * eexists _, _, _. split; [done|]. intros e [= ->]. done.
      * eexists _, _, _. split; [done|]. cbn. intros e He. split; [done|]. congruence.
    + match goal with H : _ ∨ _ |- _ => destruct H as [[_ Hp]|[? _]] end; [|congruence].
      inv Hp. eexists _, _, _. split; [done|]. cbn. intros e He. congruence.
    + match goal with H : _ ∨ _ |- _ => destruct H as [[_ Hp]|[? _]] end; [|congruence].
      inv Hp. cbn [app] in *.
      eexists _, _, _. split; [done|]. cbn. intros e He. congruence.
Qed.
End Staged.

(** ** The client and the state of the driver *)

Section Client.
Context {Engine : Type} (docker : Docker Engine).

(** The three ways [initializeDockerCli] can go. *)
Lemma initializeDockerCli_cases (st : State Engine) :
  (∃ cli, dockerCli (driver st) = Some cli
          ∧ initializeDockerCli docker st = (Ok cli, st, []))
  ∨ (∃ err, dockerCli (driver st) = None
            ∧ initializeDockerCli docker st = (Fail err, st, [])
            ∧ (NewDockerCli docker = Fail err
               ∨ ∃ cli0, NewDockerCli docker = Ok cli0
                   ∧ Initialize docker
                       (if decide (config_get (driver st) "DOCKER_DRIVER_QUIET" = "1")
                        then {| combinedDiscard := true |} else cli0) = Some err))
  ∨ (∃ cli0, dockerCli (driver st) = None ∧ NewDockerCli docker = Ok cli0
             ∧ Initialize docker
                 (if decide (config_get (driver st) "DOCKER_DRIVER_QUIET" = "1")
                  then {| combinedDiscard := true |} else cli0) = None
             ∧ initializeDockerCli docker st
               = (Ok (if decide (config_get (driver st) "DOCKER_DRIVER_QUIET" = "1")
                      then {| combinedDiscard := true |} else cli0),
                  {| driver := SetDockerCli (driver st)
                       (if decide (config_get (driver st) "DOCKER_DRIVER_QUIET" = "1")
                        then {| combinedDiscard := true |} else cli0);
                     engine := engine st |}, [])).
Proof.
  destruct st as [d e]. unfold initializeDockerCli.
  cbv [getDriver setDockerCli mbind mret M_bind M_ret driver engine].
  destruct (dockerCli d) as [cli|] eqn:Hcli; [left; by eauto|]. right.
  destruct (NewDockerCli docker) as [cli0|err]; [|left; by eauto 10].
  destruct (Initialize docker _) as [err|] eqn:Hinit.
  - left. exists err. split; [done|]. split; [done|]. right. by eauto.
  - right. exists cli0. by rewrite Hinit.
Qed.

(** X10. The client is created at most once.  When [initializeDockerCli]
    succeeds the driver holds the client it returned, no engine call was
    made, and a second call returns the same client and changes nothing;
    when it fails the driver is left as it was, without a client, so that
    the next call tries again. *)
Theorem initializeDockerCli_caches (st : State Engine) :
  (∀ cli st' evs, initializeDockerCli docker st = (Ok cli, st', evs) →
     dockerCli (driver st') = Some cli ∧ evs = [] ∧ engine st' = engine st
     ∧ initializeDockerCli docker st' = (Ok cli, st', []))
  ∧ (∀ err st' evs, initializeDockerCli docker st = (Fail err, st', evs) →
       st' = st ∧ evs = [] ∧ dockerCli (driver st) = None).
Proof.
  destruct (initializeDockerCli_cases st)
    as [(cli & Hcli & ->)|[(err & Hcli & -> & _)|(cli0 & Hcli & _ & _ & ->)]].
  - split; [|intros ??? [=]]. intros ??? [= <- <- <-].
    repeat split; try done.
    by destruct (initializeDockerCli_cases st)
      as [(c & Hc & ->)|[(? & ? & _)|(? & ? & _)]]; simplify_eq.
  - split; [intros ??? [=]|]. by intros ??? [= <- <- <-].
  - split; [|intros ??? [=]]. intros ??? [= <- <- <-]. by repeat split.
Qed.

(** X11. The setting [DOCKER_DRIVER_QUIET] bears on a client the driver
    creates itself and on nothing else: a client given with [SetDockerCli]
    is returned as it is, whatever the setting; a client the driver creates
    has its streams discarded exactly when the setting is [1], and is the
    one [NewDockerCli] made otherwise. *)
Theorem initializeDockerCli_quiet (st : State Engine) (cli : Cli) st' evs :
  initializeDockerCli docker st = (Ok cli, st', evs) →
  match dockerCli (driver st) with
  | Some given => cli = given ∧ st' = st
  | None =>
      ∃ cli0, NewDockerCli docker = Ok cli0
        ∧ Initialize docker cli = None
        ∧ cli = (if decide (config_get (driver st) "DOCKER_DRIVER_QUIET" = "1")
                 then {| combinedDiscard := true |} else cli0)
  end.
Proof.
  destruct (initializeDockerCli_cases st)
    as [(given & Hcli & ->)|[(err & Hcli & -> & _)|(cli0 & Hcli & Hnew & Hinit & ->)]];
    rewrite Hcli; intros [= <- <- <-]; [done|]. by exists cli0.
Qed.

(** A computation that leaves the driver as it is. *)
Lemma bind_driver {A B} (m : M Engine A) (k : A → M Engine B) s :
  (∀ a s1, driver (k a s1).1.2 = driver s1) →
  driver ((m ≫= k) s).1.2 = driver (m s).1.2.
Proof.
  intros Hk. unfold mbind, M_bind. destruct (m s) as [[a s1] evs1].
  specialize (Hk a s1). by destruct (k a s1) as [[? ?] ?].
Qed.

Lemma pullImage_driver image (s : State Engine) :
  driver (pullImage docker image s).1.2 = driver s.
Proof. by destruct (pullImage_spec docker image s) as (? & ? & ? & -> & _). Qed.

Lemma execDeferred_driver op ID (s : State Engine) :
  driver (execDeferred docker op ID s).1.2 = driver s.
Proof. by destruct (execDeferred_spec docker op ID s) as (? & ? & ? & ? & -> & _). Qed.

Lemma call_driver {R} (f : Engine → R * Engine) (ev : R → event) (s : State Engine) :
  driver (call f ev s).1.2 = driver s.
Proof. unfold call. by destruct (f (engine s)). Qed.

(** X12. [Run] changes nothing in the driver but the client it keeps: the
    driver after a run is the driver [initializeDockerCli] left, so the
    settings, the simulate flag, the options and the two writers are those
    of before, and after a run that acquired a client the next run finds
    it. *)
Theorem Run_keeps_driver (op : Operation) (st : State Engine) :
  driver (Run docker op st).1.2 = driver (initializeDockerCli docker st).1.2
  ∧ config (driver (Run docker op st).1.2) = config (driver st)
  ∧ Simulate (driver (Run docker op st).1.2) = Simulate (driver st)
  ∧ dockerConfigurationOptions (driver (Run docker op st).1.2)
    = dockerConfigurationOptions (driver st)
  ∧ containerOut (driver (Run docker op st).1.2) = containerOut (driver st)
  ∧ containerErr (driver (Run docker op st).1.2) = containerErr (driver st)
  ∧ ∀ cli, (initializeDockerCli docker st).1.1 = Ok cli →
           dockerCli (driver (Run docker op st).1.2) = Some cli.
Proof.
  assert (driver (Run docker op st).1.2 = driver (initializeDockerCli docker st).1.2) as Heq.
  { unfold Run, exec. apply bind_driver. intros [cli|err] s1; [|done].
    rewrite bind_driver; [done|]. intros d s2. destruct (Simulate d); [done|].
    rewrite bind_driver.
    2:{ intros [err|] s3; [done|].
        destruct (applyOptions _ _ _) as [[cfg hostCfg]|err]; [|done].
        rewrite bind_driver; [apply call_driver|].
        intros [ID|err] s4; [apply execDeferred_driver|].
        destruct (IsErrNotFound (Some err)); [|done].
        rewrite bind_driver; [done|]. intros _ s5.
        rewrite bind_driver; [apply pullImage_driver|]. intros [perr|] s6; [done|].
        rewrite bind_driver; [apply call_driver|].
        intros [ID|err'] s7; [apply execDeferred_driver|done]. }
    destruct (decide _); [apply pullImage_driver|done]. }
  split; [done|]. rewrite Heq.
  destruct (initializeDockerCli_cases st)
    as [(cli & Hcli & ->)|[(err & Hcli & -> & _)|(cli0 & Hcli & _ & _ & ->)]];
    cbn [fst snd driver]; repeat split; try done; intros c [= <-]; done.
Qed.
End Client.

(** ** The properties above on the scripted runs *)

Example removeTwice_runs :
  run FakeOS.sys Scenarios.removeTwice FakeOS.world0
  = (Some (Err ("Failed to remove credential set prod: remove " +:+ FakeOS.prod +:+
                ": no such file or directory" +:+ newline +:+
                "Unable to find credential set(s): stage")),
     {| fs := [FakeOS.dev];
        out := ["Removed credential set: prod" +:+ newline];
        removals :=
          [("prod", FakeOS.prod, None);
           ("prod", FakeOS.prod,
            Some (Err ("remove " +:+ FakeOS.prod +:+ ": no such file or directory")))] |}).
Proof. vm_compute. reflexivity. Qed.

Lemma run_error_text_witness :
  [ "Failed to remove credential set prod: remove " +:+ FakeOS.prod +:+
      ": no such file or directory";
    "Unable to find credential set(s): stage" ]
  = errorLines FakeOS.sys
      (findCredentialSets FakeOS.sys
         (Credentials FakeOS.sys (home Scenarios.removeTwice)) (fs FakeOS.world0))
      (names Scenarios.removeTwice) (fs FakeOS.world0)
  ∧ (run FakeOS.sys Scenarios.removeTwice FakeOS.world0).1
    = Some (Err (strings_Join
                   [ "Failed to remove credential set prod: remove " +:+ FakeOS.prod +:+
                       ": no such file or directory";
                     "Unable to find credential set(s): stage" ] newline)).
Proof.
  assert ([ "Failed to remove credential set prod: remove " +:+ FakeOS.prod +:+
              ": no such file or directory";
            "Unable to find credential set(s): stage" ]
          = errorLines FakeOS.sys
              (findCredentialSets FakeOS.sys
                 (Credentials FakeOS.sys (home Scenarios.removeTwice)) (fs FakeOS.world0))
              (names Scenarios.removeTwice) (fs FakeOS.world0)) as Hlines
    by (vm_compute; reflexivity).
  split; [exact Hlines|].
  refine (proj1 (run_error_text FakeOS.sys Scenarios.removeTwice FakeOS.world0
                  [ "Failed to remove credential set prod: remove " +:+ FakeOS.prod +:+
                      ": no such file or directory";
                    "Unable to find credential set(s): stage" ] Hlines _) _).
  - discriminate.
  - vm_compute. reflexivity.
Defined.

Lemma RunE_nothing_found_witness :
  ["stage"; "qa"] ≠ []
  ∧ (∀ name, name ∈ ["stage"; "qa"] →
       findCredentialSets FakeOS.sys (Credentials FakeOS.sys (homePath FakeOS.sys))
         (fs FakeOS.world0) !! name = None)
  ∧ RunE FakeOS.sys ["stage"; "qa"] FakeOS.world0
    = (Some (Err "Unable to find credential set(s): stage, qa"), FakeOS.world0).
Proof.
  assert (∀ name, name ∈ ["stage"; "qa"] →
            findCredentialSets FakeOS.sys (Credentials FakeOS.sys (homePath FakeOS.sys))
              (fs FakeOS.world0) !! name = None) as Hmissing.
  { intros name Hin. apply elem_of_cons in Hin as [->|Hin]; [by vm_compute|].
    apply elem_of_cons in Hin as [->|Hin]; [by vm_compute|]. by apply elem_of_nil in Hin. }
  split; [discriminate|]. split; [exact Hmissing|].
  exact (proj1 (proj2 (proj2 (RunE_nothing_found FakeOS.sys ["stage"; "qa"] FakeOS.world0)
                               ltac:(discriminate) Hmissing))
           ltac:(vm_compute; reflexivity)).
Defined.

Lemma Run_one_container_witness :
  Scenarios.runB = (Scenarios.runB.1.1, Scenarios.runB.1.2, Scenarios.runB.2)
  ∧ (count is_created Scenarios.runB.2 ≤ 1)%nat.
Proof.
  split; [reflexivity|].
  exact (proj1 (Run_one_container Fake.docker Fake.install Fake.stateB
                  Scenarios.runB.1.1 Scenarios.runB.1.2 Scenarios.runB.2 eq_refl)).
Defined.

Lemma Run_start_order_witness :
  Scenarios.runA = (Scenarios.runA.1.1, Scenarios.runA.1.2, Scenarios.runA.2)
  ∧ EvContainerStart "c1" None ∈ Scenarios.runA.2
  ∧ ∃ pre cfg hostCfg tarContent post,
      Scenarios.runA.2
      = pre ++ [EvContainerCreate cfg hostCfg (Ok "c1");
                EvCopyToContainer "c1" "/" tarContent None;
                EvContainerAttach "c1" None;
                EvContainerWait "c1";
                EvContainerStart "c1" None] ++ post
      ∧ generateTar (Files Fake.install) = Ok tarContent.
Proof.
  assert (EvContainerStart "c1" None ∈ Scenarios.runA.2) as Hin
    by (vm_compute; repeat constructor).
  split; [reflexivity|]. split; [exact Hin|].
  exact (Run_start_order Fake.docker Fake.install Fake.stateA
           Scenarios.runA.1.1 Scenarios.runA.1.2 Scenarios.runA.2 "c1" None eq_refl Hin).
Defined.

Lemma Run_stage_failure_witness :
  Scenarios.runStartFails
  = (Scenarios.runStartFails.1.1, Scenarios.runStartFails.1.2, Scenarios.runStartFails.2)
  ∧ EvContainerStart "c1" (Some (Err "OCI runtime create failed")) ∈ Scenarios.runStartFails.2
  ∧ Scenarios.runStartFails.1.1
    = (OperationResult_zero,
       Some (Errorf ("cannot start container: " +:+ "OCI runtime create failed"))).
Proof.
  assert (EvContainerStart "c1" (Some (Err "OCI runtime create failed"))
            ∈ Scenarios.runStartFails.2) as Hin
    by (vm_compute; repeat constructor).
  split; [reflexivity|]. split; [exact Hin|].
  exact (proj1 (proj2 (proj2 (Run_stage_failure Fake.docker Fake.install
                                {| driver := Fake.driver0; engine := Scenarios.startFails |}
                                Scenarios.runStartFails.1.1 Scenarios.runStartFails.1.2 Scenarios.runStartFails.2 "c1" (Err "OCI runtime create failed") eq_refl))
                  Hin)).
Defined.

Lemma Run_outputs_allocated_witness :
  Scenarios.runA = (Scenarios.runA.1.1, Scenarios.runA.1.2, Scenarios.runA.2)
  ∧ (is_Some (Outputs Scenarios.runA.1.1.1) ↔ ∃ w, EvReceived w ∈ Scenarios.runA.2).
Proof.
  split; [reflexivity|].
  exact (proj1 (Run_outputs_allocated Fake.docker Fake.install Fake.stateA
                  Scenarios.runA.1.1 Scenarios.runA.1.2 Scenarios.runA.2 eq_refl)).
Defined.

Lemma Run_nil_error_witness :
  Scenarios.runA = (Scenarios.runA.1.1, Scenarios.runA.1.2, Scenarios.runA.2)
  ∧ Scenarios.runA.1.1.2 = None
  ∧ ((Simulate (driver Fake.stateA) = true ∧ Scenarios.runA.2 = []
      ∧ Scenarios.runA.1.1.1 = OperationResult_zero)
     ∨ (∃ WaitError ID reply,
          EvReceived (FromStatusc 0 WaitError) ∈ Scenarios.runA.2
          ∧ EvCopyFromContainer ID "/cnab/app/outputs" reply ∈ Scenarios.runA.2
          ∧ (fetched (Quote Fake.docker) reply).2 = None)
     ∨ EvReceived (FromErrc None) ∈ Scenarios.runA.2).
Proof.
  split; [reflexivity|]. split; [reflexivity|].
  exact (Run_nil_error Fake.docker Fake.install Fake.stateA
           Scenarios.runA.1.1 Scenarios.runA.1.2 Scenarios.runA.2 eq_refl eq_refl).
Defined.

Lemma Run_outputs_absolute_witness :
  Scenarios.runA = (Scenarios.runA.1.1, Scenarios.runA.1.2, Scenarios.runA.2)
  ∧ Outputs Scenarios.runA.1.1.1 = Some {[ "/cnab/app/outputs/install.log" := "done" ]}
  ∧ "/cnab/app/outputs/install.log"
      ∈ dom ({[ "/cnab/app/outputs/install.log" := "done" ]} : gmap string string)
  ∧ IsAbs "/cnab/app/outputs/install.log" = true.
Proof.
  assert (Outputs Scenarios.runA.1.1.1
          = Some {[ "/cnab/app/outputs/install.log" := "done" ]}) as Hout
    by (vm_compute; reflexivity).
  assert ("/cnab/app/outputs/install.log"
            ∈ dom ({[ "/cnab/app/outputs/install.log" := "done" ]} : gmap string string))
    as Hin by (apply elem_of_dom; exists "done"; reflexivity).
  split; [reflexivity|]. split; [exact Hout|]. split; [exact Hin|].
  exact (Run_outputs_absolute Fake.docker Fake.install Fake.stateA
           Scenarios.runA.1.1 Scenarios.runA.1.2 Scenarios.runA.2
           {[ "/cnab/app/outputs/install.log" := "done" ]} "/cnab/app/outputs/install.log"
           eq_refl Hout Hin).
Defined.

Lemma Run_stages_files_witness :
  Scenarios.runA = (Scenarios.runA.1.1, Scenarios.runA.1.2, Scenarios.runA.2)
  ∧ EvCopyToContainer "c1" "/" (writeEntries (range (Files Fake.install))) None
      ∈ Scenarios.runA.2
  ∧ generateTar (Files Fake.install) = Ok (writeEntries (range (Files Fake.install))).
Proof.
  assert (EvCopyToContainer "c1" "/" (writeEntries (range (Files Fake.install))) None
            ∈ Scenarios.runA.2) as Hin
    by (vm_compute; repeat constructor).
  split; [reflexivity|]. split; [exact Hin|].
  exact (proj1 (proj2 (Run_stages_files Fake.docker Fake.install Fake.stateA
                         Scenarios.runA.1.1 Scenarios.runA.1.2 Scenarios.runA.2
                         "c1" "/" (writeEntries (range (Files Fake.install))) None
                         eq_refl Hin))).
Defined.

Lemma Run_eager_pull_witness :
  Scenarios.runPullRefused
  = (Scenarios.runPullRefused.1.1, Scenarios.runPullRefused.1.2, Scenarios.runPullRefused.2)
  ∧ (config_get Fake.alwaysPull "PULL_ALWAYS" = "1" →
     Scenarios.runPullRefused.2 = []
     ∨ ∃ encodedAuth reply rest,
         Scenarios.runPullRefused.2
         = EvImagePull (Image Fake.install) encodedAuth reply :: rest
         ∧ ∀ err,
             match reply with
             | Fail e => Some e
             | Ok body => DisplayJSONMessagesStream body
             end = Some err →
             rest = [] ∧ Scenarios.runPullRefused.1.1 = (OperationResult_zero, Some err)).
Proof.
  split; [reflexivity|].
  exact (proj2 (Run_eager_pull Fake.docker Fake.install
                  {| driver := Fake.alwaysPull; engine := Fake.refused |}
                  Scenarios.runPullRefused.1.1 Scenarios.runPullRefused.1.2 Scenarios.runPullRefused.2 eq_refl)).
Defined.

Lemma initializeDockerCli_quiet_witness :
  initializeDockerCli Fake.docker Scenarios.stateQuiet
  = (Ok {| combinedDiscard := true |},
     {| driver := SetDockerCli Scenarios.quiet {| combinedDiscard := true |};
        engine := Fake.scenarioA |}, [])
  ∧ ∃ cli0, NewDockerCli Fake.docker = Ok cli0
      ∧ Initialize Fake.docker {| combinedDiscard := true |} = None
      ∧ {| combinedDiscard := true |}
        = (if decide (config_get Scenarios.quiet "DOCKER_DRIVER_QUIET" = "1")
           then {| combinedDiscard := true |} else cli0).
Proof.
  split; [reflexivity|].
  exact (initializeDockerCli_quiet Fake.docker Scenarios.stateQuiet
           {| combinedDiscard := true |}
           {| driver := SetDockerCli Scenarios.quiet {| combinedDiscard := true |};
              engine := Fake.scenarioA |} [] eq_refl).
Defined.

Section Lifecycle.
Context {Engine : Type} (docker : Docker Engine).

(** X18. A run in which the [select] receives a value has gone through the
    whole life of one container, in this order and without any other call
    on it: creation, copy of the files to [/], attachment, registration of
    the wait, start, the value received, copy of [/cnab/app/outputs] out of
    the container, and the removal as the last call of the run. *)
Theorem Run_lifecycle (op : Operation) (st : State Engine) res st' evs w :
  Run docker op st = (res, st', evs) →
  EvReceived w ∈ evs →
  ∃ pre cfg hostCfg ID tarContent reply removed,
    evs = pre ++ [EvContainerCreate cfg hostCfg (Ok ID);
                  EvCopyToContainer ID "/" tarContent None;
                  EvContainerAttach ID None;
                  EvContainerWait ID;
                  EvContainerStart ID None;
                  EvReceived w;
                  EvCopyFromContainer ID "/cnab/app/outputs" reply;
                  EvContainerRemove ID removed]
    ∧ preamble 1 2 pre.
Proof.
  intros Hrun Hin.
  destruct (Run_body_event _ _ _ _ _ _ _ Hrun Hin eq_refl)
    as (pre & cfg & hostCfg & ID & body & removed & -> & Hbody & Hpre & Hin').
  inv Hbody; split_elem Hin'; simplify_eq;
    by eexists pre, cfg, hostCfg, ID, _, _, removed.
Qed.
End Lifecycle.

Lemma Run_lifecycle_witness :
  Scenarios.runA = (Scenarios.runA.1.1, Scenarios.runA.1.2, Scenarios.runA.2)
  ∧ EvReceived (FromStatusc 0 None) ∈ Scenarios.runA.2
  ∧ ∃ pre cfg hostCfg ID tarContent reply removed,
      Scenarios.runA.2
      = pre ++ [EvContainerCreate cfg hostCfg (Ok ID);
                EvCopyToContainer ID "/" tarContent None;
                EvContainerAttach ID None;
                EvContainerWait ID;
                EvContainerStart ID None;
                EvReceived (FromStatusc 0 None);
                EvCopyFromContainer ID "/cnab/app/outputs" reply;
                EvContainerRemove ID removed]
      ∧ preamble 1 2 pre.
Proof.
  assert (EvReceived (FromStatusc 0 None) ∈ Scenarios.runA.2) as Hin
    by (vm_compute; repeat constructor).
  split; [reflexivity|]. split; [exact Hin|].
  exact (Run_lifecycle Fake.docker Fake.install Fake.stateA
           Scenarios.runA.1.1 Scenarios.runA.1.2 Scenarios.runA.2 (FromStatusc 0 None) eq_refl Hin).
Defined.
